(** * daily-balance-bot: the scheduling engines, embedded and verified

    The repository holds several generations of one scheduling logic:

    - [ScheduleEngine]       the class [ScheduleEngine] with per-date ad-hoc
                             blocks and suppressed recurring instances;
    - [ScheduleEngineV1]     the earlier [ScheduleEngine], where it differs;
    - [TimetableScheduler]   the slot-grid scheduler, second generation
                             ([insertIntelligentBreaks], [getBalancedScore]);
    - [TimetableSchedulerV1] the first generation, where it differs;
    - [AITaskScheduler]      the scheduler that chains tasks and breaks
                             from 9:00 on.

    A function that two generations share word for word is embedded once:
    [rescheduleTask] of both [ScheduleEngine]s, [rescheduleTask] and
    [addUnavailableTime] of both [TimetableScheduler]s, and the urgency
    score [getUrgencyScore] that [AITaskScheduler], [ScheduleEngine] and
    the first [TimetableScheduler] all carry.

    Dates are JavaScript [Date]s: a number of milliseconds since the epoch,
    here a [Z].  Local time is UTC shifted by a fixed offset [tz] (in
    milliseconds); daylight-saving changes are not modelled.  Durations are
    whole minutes.  Arrays are lists in index order, [push] appends at the
    end.  [Array.prototype.sort] is stable and is modelled by a stable
    insertion sort.  A method of the engine takes the engine and returns
    the engine afterwards with the array it returns; the wall clock it
    reads is an argument. *)

From stdpp Require Import base gmap strings list pretty.
From Stdlib Require Import ZArith Lia Permutation Ascii.

Open Scope Z_scope.

(** ** JavaScript helpers *)

Module Js.

Definition MS_PER_MINUTE : Z := 60000.
Definition MS_PER_HOUR : Z := 3600000.
Definition MS_PER_DAY : Z := 86400000.

(** [Math.ceil (a / b)] for integers [a] and a positive integer [b]. *)
Definition ceilDiv (a b : Z) : Z := - ((- a) / b).

(** Index of the local calendar day that holds the instant [t]. *)
Definition localDay (tz t : Z) : Z := (t + tz) / MS_PER_DAY.

(** [d.setHours (h, m, 0, 0)] *)
Definition setHours (tz t h m : Z) : Z :=
  localDay tz t * MS_PER_DAY + h * MS_PER_HOUR + m * MS_PER_MINUTE - tz.

Definition getHours (tz t : Z) : Z := ((t + tz) mod MS_PER_DAY) / MS_PER_HOUR.
Definition getMinutes (tz t : Z) : Z := ((t + tz) mod MS_PER_HOUR) / MS_PER_MINUTE.

(** [d.getDay ()], 0 = Sunday; the epoch was a Thursday. *)
Definition getDay (tz t : Z) : Z := (localDay tz t + 4) mod 7.

(** [a.toDateString () === b.toDateString ()] *)
Definition sameDateString (tz a b : Z) : bool := localDay tz a =? localDay tz b.

(** [xs.includes (x)] on an array of numbers. *)
Definition includes (xs : list Z) (x : Z) : bool := existsb (Z.eqb x) xs.

(** [xs.some (p)], [xs.every (p)], [xs.find (p)], [xs.filter (p)] are the
    Standard Library's [existsb], [forallb], [find] and [filter]. *)
Abbreviation some := List.existsb (only parsing).
Abbreviation every := List.forallb (only parsing).
Abbreviation find := List.find (only parsing).
Abbreviation filter := List.filter (only parsing).

(** [xs.findIndex (p)], with [None] for -1. *)
Fixpoint findIndex {A} (p : A -> bool) (xs : list A) : option nat :=
  match xs with
  | [] => None
  | x :: xs' => if p x then Some O else S <$> findIndex p xs'
  end.

(** [xs.push (x)] *)
Definition push {A} (xs : list A) (x : A) : list A := xs ++ [x].

(** [xs.sort (cmp)]: stable, [cmp a b < 0] puts [a] first. *)
Fixpoint insertBy {A} (cmp : A -> A -> Z) (x : A) (sorted : list A) : list A :=
  match sorted with
  | [] => [x]
  | y :: rest => if cmp x y <=? 0 then x :: y :: rest else y :: insertBy cmp x rest
  end.

Fixpoint sort {A} (cmp : A -> A -> Z) (xs : list A) : list A :=
  match xs with
  | [] => []
  | x :: xs' => insertBy cmp x (sort cmp xs')
  end.

(** [s.split (sep)] for a one-character separator. *)
Fixpoint split (sep : Ascii.ascii) (s : string) : list string :=
  match s with
  | EmptyString => [EmptyString]
  | String c s' =>
      if Ascii.eqb c sep then EmptyString :: split sep s'
      else
        match split sep s' with
        | piece :: pieces => String c piece :: pieces
        | [] => [String c EmptyString]
        end
  end.

(** [s.startsWith (p)] *)
Definition startsWith (s p : string) : bool := String.prefix p s.

(** A template literal's rendering of an integer. *)
Definition show (n : Z) : string := pretty n.

End Js.

(** ** The data model ([types/task.ts]) *)

Inductive TaskType := work | study | leisure.
Inductive Priority := low | medium | high.
Inductive BlockType := task | break | unavailable.
Inductive RecurringType := daily | weekly.

#[global] Instance TaskType_eq_dec : EqDecision TaskType.
Proof. solve_decision. Defined.
#[global] Instance Priority_eq_dec : EqDecision Priority.
Proof. solve_decision. Defined.
#[global] Instance BlockType_eq_dec : EqDecision BlockType.
Proof. solve_decision. Defined.

Definition showTaskType (t : TaskType) : string :=
  match t with work => "work" | study => "study" | leisure => "leisure" end.

Definition showPriority (p : Priority) : string :=
  match p with low => "low" | medium => "medium" | high => "high" end.

Module Task.
Record t := mk {
  id : string;
  name : string;
  duration : Z;           (* minutes *)
  deadline : Z;
  priority : Priority;
  type : TaskType;
  completed : bool;
  createdAt : Z;
  scheduledTime : option Z
}.
End Task.

Module TimeBlock.
Record t := mk {
  id : string;
  type : BlockType;
  startTime : Z;
  endTime : Z;
  title : string;
  description : option string;
  taskId : option string;
  task : option Task.t;
  isFixed : option bool
}.
End TimeBlock.

Module Recurring.
Record t := mk {
  type : RecurringType;
  days : option (list Z)  (* 0-6 for weekly, 0 = Sunday *)
}.
End Recurring.

Module UnavailableBlock.
Record t := mk {
  id : string;
  startTime : Z;
  endTime : Z;
  title : string;
  description : option string;
  recurring : option Recurring.t
}.
End UnavailableBlock.

(** [`${task.type} • ${task.priority} priority • ${task.duration}m`] *)
Definition taskDescription (t : Task.t) : string :=
  showTaskType (Task.type t) +:+ " • " +:+ showPriority (Task.priority t)
    +:+ " priority • " +:+ Js.show (Task.duration t) +:+ "m".

(** The strict interval test shared by every generation
    ([timeSlotsOverlap], [slotsOverlap]). *)
Definition timeSlotsOverlap (start1 end1 start2 end2 : Z) : bool :=
  (start1 <? end2) && (start2 <? end1).

Definition blocksOverlap (a b : TimeBlock.t) : bool :=
  timeSlotsOverlap (TimeBlock.startTime a) (TimeBlock.endTime a)
                   (TimeBlock.startTime b) (TimeBlock.endTime b).

Definition byStartTime (a b : TimeBlock.t) : Z :=
  TimeBlock.startTime a - TimeBlock.startTime b.

Definition isType (k : BlockType) (b : TimeBlock.t) : bool :=
  bool_decide (TimeBlock.type b = k).

Definition hasTaskId (taskId : string) (b : TimeBlock.t) : bool :=
  bool_decide (TimeBlock.taskId b = Some taskId).

Definition hasId (blockId : string) (b : TimeBlock.t) : bool :=
  bool_decide (TimeBlock.id b = blockId).

(** The urgency score of [AITaskScheduler], [ScheduleEngine] and the first
    [TimetableScheduler] ([getUrgencyScore]).  [hoursToDeadline <= 24] is
    compared on milliseconds, where it is exact. *)
Definition getUrgencyScore (now : Z) (t : Task.t) : Z :=
  let timeToDeadline := Task.deadline t - now in
  let deadlineScore :=
    if timeToDeadline <=? 24 * Js.MS_PER_HOUR then 100
    else if timeToDeadline <=? 48 * Js.MS_PER_HOUR then 80
    else if timeToDeadline <=? 168 * Js.MS_PER_HOUR then 60
    else 20 in
  let priorityScore :=
    match Task.priority t with high => 50 | medium => 30 | low => 10 end in
  let typeScore :=
    match Task.type t with work => 20 | study => 15 | leisure => 5 end in
  deadlineScore + priorityScore + typeScore.

(** ** [ScheduleEngine], latest generation *)

Module ScheduleEngine.

Record ScheduleEngineConfig := mkConfig {
  workingHoursStart : Z;
  workingHoursEnd : Z;
  shortBreakDuration : Z;   (* minutes *)
  longBreakDuration : Z;    (* minutes *)
  maxContinuousWork : Z;    (* minutes before mandatory break *)
  longBreakThreshold : Z    (* minutes of work before long break needed *)
}.

Definition defaultConfig : ScheduleEngineConfig :=
  {| workingHoursStart := 9; workingHoursEnd := 17;
     shortBreakDuration := 15; longBreakDuration := 30;
     maxContinuousWork := 90; longBreakThreshold := 180 |}.

(** The object's fields.  The two [Map]s are keyed by the date key
    [YYYY-MM-DD] of [toISOString], which names a UTC day: the key is
    modelled by the index of that day. *)
Record t := mk {
  config : ScheduleEngineConfig;
  tasks : list Task.t;
  unavailableBlocks : list UnavailableBlock.t;
  schedule : list TimeBlock.t;
  adHocUnavailableByDate : gmap Z (list TimeBlock.t);
  suppressedRecurringInstances : gmap Z (gset string)
}.

Definition init : t :=
  {| config := defaultConfig; tasks := []; unavailableBlocks := [];
     schedule := []; adHocUnavailableByDate := ∅;
     suppressedRecurringInstances := ∅ |}.

Definition withSchedule (e : t) (s : list TimeBlock.t) : t :=
  {| config := config e; tasks := tasks e;
     unavailableBlocks := unavailableBlocks e; schedule := s;
     adHocUnavailableByDate := adHocUnavailableByDate e;
     suppressedRecurringInstances := suppressedRecurringInstances e |}.

(** The two readings of the wall clock ([new Date()]) made during one
    [generateSchedule]: in [prioritizeTasks], then in [scheduleTasks]. *)
Record Clock := mkClock { nowRank : Z; nowStart : Z }.

Definition setTasks (e : t) (ts : list Task.t) : t :=
  {| config := config e;
     tasks := Js.filter (fun t => negb (Task.completed t)) ts;
     unavailableBlocks := unavailableBlocks e; schedule := schedule e;
     adHocUnavailableByDate := adHocUnavailableByDate e;
     suppressedRecurringInstances := suppressedRecurringInstances e |}.

Definition setUnavailableBlocks (e : t) (bs : list UnavailableBlock.t) : t :=
  {| config := config e; tasks := tasks e; unavailableBlocks := bs;
     schedule := schedule e;
     adHocUnavailableByDate := adHocUnavailableByDate e;
     suppressedRecurringInstances := suppressedRecurringInstances e |}.

Definition setConfig (e : t) (c : ScheduleEngineConfig) : t :=
  {| config := c; tasks := tasks e;
     unavailableBlocks := unavailableBlocks e; schedule := schedule e;
     adHocUnavailableByDate := adHocUnavailableByDate e;
     suppressedRecurringInstances := suppressedRecurringInstances e |}.

Definition getDateKey (date : Z) : Z := date / Js.MS_PER_DAY.

(** [roundUpToMinutes (date, minutes)] *)
Definition roundUpToMinutes (date minutes : Z) : Z :=
  let ms := minutes * Js.MS_PER_MINUTE in
  Js.ceilDiv date ms * ms.

Definition shouldIncludeBlock (tz : Z) (block : UnavailableBlock.t) (date : Z) : bool :=
  match UnavailableBlock.recurring block with
  | None => true
  | Some r =>
      match Recurring.type r, Recurring.days r with
      | daily, _ => true
      | weekly, Some days => Js.includes days (Js.getDay tz date)
      | weekly, None => false
      end
  end.

Definition isSlotAvailable (sched : list TimeBlock.t)
    (startTime endTime : Z) (excludeTaskId : string) : bool :=
  negb (Js.some (fun block =>
    if negb (String.eqb excludeTaskId "") && hasTaskId excludeTaskId block
    then false
    else timeSlotsOverlap startTime endTime
           (TimeBlock.startTime block) (TimeBlock.endTime block)) sched).

(** The loop of [findAvailableSlot] over the sorted blocks, with the
    check after the loop. *)
Fixpoint slotAfterConflicts (sortedBlocks : list TimeBlock.t)
    (nextStart durationMs endOfDay : Z) : option (Z * Z) :=
  match sortedBlocks with
  | [] =>
      let finalEnd := nextStart + durationMs in
      if finalEnd <=? endOfDay then Some (nextStart, finalEnd) else None
  | block :: rest =>
      let proposedEnd := nextStart + durationMs in
      if proposedEnd <=? TimeBlock.startTime block
      then Some (nextStart, proposedEnd)
      else slotAfterConflicts rest (TimeBlock.endTime block) durationMs endOfDay
  end.

Definition findAvailableSlot (sched : list TimeBlock.t)
    (startTime duration endOfDay : Z) : option (Z * Z) :=
  let endTime := startTime + duration * Js.MS_PER_MINUTE in
  if endOfDay <? endTime then None
  else
    let hasConflict := Js.some (fun block =>
      timeSlotsOverlap startTime endTime
        (TimeBlock.startTime block) (TimeBlock.endTime block)) sched in
    if negb hasConflict then Some (startTime, endTime)
    else
      let sortedBlocks :=
        Js.sort byStartTime
          (Js.filter (fun b => startTime <? TimeBlock.endTime b) sched) in
      slotAfterConflicts sortedBlocks startTime
        (duration * Js.MS_PER_MINUTE) endOfDay.

(** [createWorkDay (date)] *)
Definition createWorkDay (tz : Z) (cfg : ScheduleEngineConfig) (date : Z) : Z * Z :=
  (Js.setHours tz date (workingHoursStart cfg) 0,
   Js.setHours tz date (workingHoursEnd cfg) 0).

(** One turn of the first loop of [addUnavailableBlocks]. *)
Definition addRecurringBlock (tz : Z) (workDay : Z * Z) (suppressedIds : gset string)
    (sched : list TimeBlock.t) (block : UnavailableBlock.t) : list TimeBlock.t :=
  let targetDate := fst workDay in
  if bool_decide (UnavailableBlock.id block ∈ suppressedIds) then sched
  else if shouldIncludeBlock tz block targetDate then
    let startTime :=
      Js.setHours tz targetDate
        (Js.getHours tz (UnavailableBlock.startTime block))
        (Js.getMinutes tz (UnavailableBlock.startTime block)) in
    let endTime :=
      Js.setHours tz targetDate
        (Js.getHours tz (UnavailableBlock.endTime block))
        (Js.getMinutes tz (UnavailableBlock.endTime block)) in
    if timeSlotsOverlap startTime endTime (fst workDay) (snd workDay) then
      let clampedStart := Z.max startTime (fst workDay) in
      let clampedEnd := Z.min endTime (snd workDay) in
      Js.push sched
        {| TimeBlock.id :=
             "unavailable-" +:+ UnavailableBlock.id block +:+ "-" +:+ Js.show targetDate;
           TimeBlock.type := unavailable;
           TimeBlock.startTime := clampedStart;
           TimeBlock.endTime := clampedEnd;
           TimeBlock.title := UnavailableBlock.title block;
           TimeBlock.description := UnavailableBlock.description block;
           TimeBlock.taskId := None;
           TimeBlock.task := None;
           TimeBlock.isFixed := Some true |}
    else sched
  else sched.

(** One turn of the second loop of [addUnavailableBlocks]. *)
Definition addAdHocBlock (workDay : Z * Z)
    (sched : list TimeBlock.t) (block : TimeBlock.t) : list TimeBlock.t :=
  if timeSlotsOverlap (TimeBlock.startTime block) (TimeBlock.endTime block)
       (fst workDay) (snd workDay)
  then
    let clampedStart := Z.max (TimeBlock.startTime block) (fst workDay) in
    let clampedEnd := Z.min (TimeBlock.endTime block) (snd workDay) in
    Js.push sched
      {| TimeBlock.id := TimeBlock.id block;
         TimeBlock.type := TimeBlock.type block;
         TimeBlock.startTime := clampedStart;
         TimeBlock.endTime := clampedEnd;
         TimeBlock.title := TimeBlock.title block;
         TimeBlock.description := TimeBlock.description block;
         TimeBlock.taskId := TimeBlock.taskId block;
         TimeBlock.task := TimeBlock.task block;
         TimeBlock.isFixed := TimeBlock.isFixed block |}
  else sched.

Definition addUnavailableBlocks (tz : Z) (e : t) (workDay : Z * Z) (dateKey : Z)
    (sched : list TimeBlock.t) : list TimeBlock.t :=
  let suppressedIds := default ∅ (suppressedRecurringInstances e !! dateKey) in
  let sched1 :=
    fold_left (addRecurringBlock tz workDay suppressedIds) (unavailableBlocks e) sched in
  let adHocBlocks := default [] (adHocUnavailableByDate e !! dateKey) in
  fold_left (addAdHocBlock workDay) adHocBlocks sched1.

Definition prioritizeTasks (e : t) (now : Z) : list Task.t :=
  Js.sort (fun a b => getUrgencyScore now b - getUrgencyScore now a) (tasks e).

Definition breakTitle (cfg : ScheduleEngineConfig) (breakDuration : Z) : string :=
  if breakDuration =? longBreakDuration cfg then "Long Break" else "Short Break".

Definition taskBlock (tk : Task.t) (startTime endTime : Z) : TimeBlock.t :=
  {| TimeBlock.id := "task-" +:+ Task.id tk +:+ "-" +:+ Js.show startTime;
     TimeBlock.type := task;
     TimeBlock.startTime := startTime;
     TimeBlock.endTime := endTime;
     TimeBlock.title := Task.name tk;
     TimeBlock.description := Some (taskDescription tk);
     TimeBlock.taskId := Some (Task.id tk);
     TimeBlock.task := Some tk;
     TimeBlock.isFixed := None |}.

Definition breakBlock (startTime endTime : Z) (title : string) : TimeBlock.t :=
  {| TimeBlock.id := "break-" +:+ Js.show startTime;
     TimeBlock.type := break;
     TimeBlock.startTime := startTime;
     TimeBlock.endTime := endTime;
     TimeBlock.title := title;
     TimeBlock.description := Some "Time to recharge and stay productive";
     TimeBlock.taskId := None;
     TimeBlock.task := None;
     TimeBlock.isFixed := None |}.

(** The break decision at the head of the loop body of [scheduleTasks]:
    the schedule, [currentTime] and [continuousWorkTime] after it. *)
Definition breakBeforeTask (cfg : ScheduleEngineConfig) (workEnd : Z)
    (sched : list TimeBlock.t) (currentTime continuousWorkTime : Z)
    : list TimeBlock.t * Z * Z :=
  if maxContinuousWork cfg <=? continuousWorkTime then
    let breakDuration :=
      if longBreakThreshold cfg <=? continuousWorkTime
      then longBreakDuration cfg else shortBreakDuration cfg in
    let breakEndTime := currentTime + breakDuration * Js.MS_PER_MINUTE in
    if breakEndTime <=? workEnd then
      (Js.push sched
         (breakBlock currentTime breakEndTime (breakTitle cfg breakDuration)),
       breakEndTime, 0)
    else (sched, currentTime, continuousWorkTime)
  else (sched, currentTime, continuousWorkTime).

(** The [for] loop of [scheduleTasks]; both [break] statements end it. *)
Fixpoint scheduleLoop (cfg : ScheduleEngineConfig) (workEnd : Z)
    (ts : list Task.t) (sched : list TimeBlock.t)
    (currentTime continuousWorkTime : Z) : list TimeBlock.t :=
  match ts with
  | [] => sched
  | tk :: rest =>
      let '(sched1, currentTime1, work1) :=
        breakBeforeTask cfg workEnd sched currentTime continuousWorkTime in
      match findAvailableSlot sched1 currentTime1 (Task.duration tk) workEnd with
      | None => sched1
      | Some (slotStart, slotEnd) =>
          let sched2 := Js.push sched1 (taskBlock tk slotStart slotEnd) in
          if workEnd <=? slotEnd then sched2
          else scheduleLoop cfg workEnd rest sched2 slotEnd
                 (work1 + Task.duration tk)
      end
  end.

Definition startFrom (workDay : Z * Z) (now : Z) : Z :=
  if (fst workDay <=? now) && (now <? snd workDay)
  then roundUpToMinutes now 5 else fst workDay.

Definition scheduleTasks (cfg : ScheduleEngineConfig) (ts : list Task.t)
    (workDay : Z * Z) (now : Z) (sched : list TimeBlock.t) : list TimeBlock.t :=
  scheduleLoop cfg (snd workDay) ts sched (startFrom workDay now) 0.

(** [generateSchedule (date)]: the engine afterwards, and the array
    returned (a sorted copy of the engine's schedule). *)
Definition generateSchedule (tz : Z) (clock : Clock) (e : t) (date : Z)
    : t * list TimeBlock.t :=
  let workDay := createWorkDay tz (config e) date in
  let dateKey := getDateKey date in
  let sched1 := addUnavailableBlocks tz e workDay dateKey [] in
  let prioritizedTasks := prioritizeTasks e (nowRank clock) in
  let sched2 := scheduleTasks (config e) prioritizedTasks workDay (nowStart clock) sched1 in
  (withSchedule e sched2, Js.sort byStartTime sched2).

Definition getSchedule (e : t) : list TimeBlock.t := schedule e.

(** The body of the [for] loop of [regenerateBreaks] on the adjacent
    tasks [currentTask] and [nextTask]: the break it pushes, if any.
    [gapDuration] and [breakDuration] are kept in milliseconds: the
    comparisons and the [Math.min] of the source, made on minutes, are
    exact on them. *)
Definition breakAfter (cfg : ScheduleEngineConfig)
    (currentTask nextTask : TimeBlock.t) : option TimeBlock.t :=
  let gapMs := TimeBlock.startTime nextTask - TimeBlock.endTime currentTask in
  let workDuration :=
    match TimeBlock.task currentTask with
    | Some tk => Task.duration tk
    | None => 0
    end in
  if (shortBreakDuration cfg * Js.MS_PER_MINUTE <=? gapMs)
     && (60 <=? workDuration)
  then
    let breakMs :=
      if longBreakThreshold cfg <=? workDuration
      then Z.min (longBreakDuration cfg * Js.MS_PER_MINUTE) gapMs
      else Z.min (shortBreakDuration cfg * Js.MS_PER_MINUTE) gapMs in
    Some (breakBlock (TimeBlock.endTime currentTask)
            (TimeBlock.endTime currentTask + breakMs)
            (if breakMs =? longBreakDuration cfg * Js.MS_PER_MINUTE
             then "Long Break" else "Short Break"))
  else None.

(** The loop itself, over the adjacent pairs of [taskBlocks]. *)
Fixpoint breaksBetween (cfg : ScheduleEngineConfig)
    (taskBlocks : list TimeBlock.t) (sched : list TimeBlock.t) : list TimeBlock.t :=
  match taskBlocks with
  | [] => sched
  | currentTask :: rest =>
      match rest with
      | [] => sched
      | nextTask :: _ =>
          breaksBetween cfg rest
            (match breakAfter cfg currentTask nextTask with
             | Some b => Js.push sched b
             | None => sched
             end)
      end
  end.

Definition regenerateBreaks (cfg : ScheduleEngineConfig)
    (sched : list TimeBlock.t) : list TimeBlock.t :=
  let sched0 := Js.filter (fun b => negb (isType break b)) sched in
  let taskBlocks := Js.sort byStartTime (Js.filter (isType task) sched0) in
  breaksBetween cfg taskBlocks sched0.

(** [rescheduleTask (taskId, newStartTime)] *)
Definition rescheduleTask (e : t) (taskId : string) (newStartTime : Z)
    : t * list TimeBlock.t :=
  match Js.find (hasTaskId taskId) (schedule e) with
  | None => (e, schedule e)
  | Some found =>
      match TimeBlock.task found with
      | None => (e, schedule e)
      | Some tk =>
          let newEndTime := newStartTime + Task.duration tk * Js.MS_PER_MINUTE in
          if isSlotAvailable (schedule e) newStartTime newEndTime taskId then
            let sched1 := Js.filter (fun b => negb (hasTaskId taskId b)) (schedule e) in
            let sched2 := Js.push sched1 (taskBlock tk newStartTime newEndTime) in
            let sched3 := regenerateBreaks (config e) sched2 in
            (withSchedule e sched3, sched3)
          else (e, getSchedule e)
      end
  end.

Definition adHocBlock (startTime endTime : Z) (title : string)
    (description : option string) : TimeBlock.t :=
  {| TimeBlock.id := "ad-hoc-" +:+ Js.show startTime;
     TimeBlock.type := unavailable;
     TimeBlock.startTime := startTime;
     TimeBlock.endTime := endTime;
     TimeBlock.title := title;
     TimeBlock.description := description;
     TimeBlock.taskId := None;
     TimeBlock.task := None;
     TimeBlock.isFixed := Some true |}.

Definition withAdHoc (e : t) (m : gmap Z (list TimeBlock.t)) : t :=
  {| config := config e; tasks := tasks e;
     unavailableBlocks := unavailableBlocks e; schedule := schedule e;
     adHocUnavailableByDate := m;
     suppressedRecurringInstances := suppressedRecurringInstances e |}.

Definition withSuppressed (e : t) (m : gmap Z (gset string)) : t :=
  {| config := config e; tasks := tasks e;
     unavailableBlocks := unavailableBlocks e; schedule := schedule e;
     adHocUnavailableByDate := adHocUnavailableByDate e;
     suppressedRecurringInstances := m |}.

(** [addUnavailableTime (startTime, endTime, title, description)] *)
Definition addUnavailableTime (tz : Z) (clock : Clock) (e : t)
    (startTime endTime : Z) (title : string) (description : option string)
    : t * list TimeBlock.t :=
  let dateKey := getDateKey startTime in
  let unavailableBlock := adHocBlock startTime endTime title description in
  let stored := default [] (adHocUnavailableByDate e !! dateKey) in
  let e1 := withAdHoc e (<[dateKey := Js.push stored unavailableBlock]>
                           (adHocUnavailableByDate e)) in
  generateSchedule tz clock e1 startTime.

(** [deleteTimeBlock (blockId)] *)
Definition deleteTimeBlock (tz : Z) (clock : Clock) (e : t) (blockId : string)
    : t * list TimeBlock.t :=
  match Js.find (hasId blockId) (schedule e) with
  | None => (e, getSchedule e)
  | Some block =>
      let dateKey := getDateKey (TimeBlock.startTime block) in
      if Js.startsWith blockId "ad-hoc-" then
        let adHocBlocks := default [] (adHocUnavailableByDate e !! dateKey) in
        let filteredBlocks := Js.filter (fun b => negb (hasId blockId b)) adHocBlocks in
        let e1 :=
          match filteredBlocks with
          | [] => withAdHoc e (delete dateKey (adHocUnavailableByDate e))
          | _ => withAdHoc e (<[dateKey := filteredBlocks]> (adHocUnavailableByDate e))
          end in
        generateSchedule tz clock e1 (TimeBlock.startTime block)
      else if Js.startsWith blockId "unavailable-" then
        let recurringBlockId := default "" (Js.split "-"%char blockId !! 1%nat) in
        let suppressed := default ∅ (suppressedRecurringInstances e !! dateKey) in
        let e1 := withSuppressed e
                    (<[dateKey := suppressed ∪ {[recurringBlockId]}]>
                       (suppressedRecurringInstances e)) in
        generateSchedule tz clock e1 (TimeBlock.startTime block)
      else
        let sched1 := Js.filter (fun b => negb (hasId blockId b)) (schedule e) in
        let sched2 :=
          if Js.startsWith blockId "task-"
          then regenerateBreaks (config e) sched1 else sched1 in
        (withSchedule e sched2, sched2)
  end.

End ScheduleEngine.

(** ** The earlier [ScheduleEngine], where it differs *)

Module ScheduleEngineV1.

(** [addUnavailableTime]: the block goes straight into the schedule. *)
Definition addUnavailableTime (sched : list TimeBlock.t)
    (startTime endTime : Z) (title : string) (description : option string)
    : list TimeBlock.t :=
  Js.push sched
    {| TimeBlock.id := "unavailable-" +:+ Js.show startTime;
       TimeBlock.type := unavailable;
       TimeBlock.startTime := startTime;
       TimeBlock.endTime := endTime;
       TimeBlock.title := title;
       TimeBlock.description := description;
       TimeBlock.taskId := None;
       TimeBlock.task := None;
       TimeBlock.isFixed := Some true |}.

End ScheduleEngineV1.

(** ** [TimetableScheduler], second generation *)

(** What a call does: it returns, or it throws the [TypeError] of reading
    a property of [undefined]. *)
Inductive Completion (A : Type) :=
| Normal (a : A)
| TypeError.
Arguments Normal {A} a.
Arguments TypeError {A}.

Module TimetableScheduler.

Definition dayStart : Z := 6.
Definition dayEnd : Z := 23.
Definition shortBreakDuration : Z := 15.
Definition longBreakDuration : Z := 30.
Definition maxContinuousWork : Z := 90.

Definition SLOT_MINUTES : Z := 30.
Definition SLOT_MS : Z := SLOT_MINUTES * Js.MS_PER_MINUTE.

Definition slotsOverlap (start1 end1 start2 end2 : Z) : bool :=
  (start1 <? end2) && (end1 >? start2).

Definition shouldIncludeBlock (tz : Z) (block : UnavailableBlock.t) (date : Z) : bool :=
  match UnavailableBlock.recurring block with
  | None => Js.sameDateString tz (UnavailableBlock.startTime block) date
  | Some r =>
      match Recurring.type r with
      | daily => true
      | weekly =>
          match Recurring.days r with
          | Some days => Js.includes days (Js.getDay tz date)
          | None => false
          end
      end
  end.

Record Slot := mkSlot { start : Z; end_ : Z; available : bool }.

(** The [while (current < dayEnd)] loop that builds the grid runs
    [slotCount] times. *)
Definition slotCount (gridStart gridEnd : Z) : nat :=
  Z.to_nat (Js.ceilDiv (gridEnd - gridStart) SLOT_MS).

Fixpoint slotsFrom (n : nat) (current : Z) : list Slot :=
  match n with
  | O => []
  | S n' =>
      {| start := current; end_ := current + SLOT_MS; available := true |}
        :: slotsFrom n' (current + SLOT_MS)
  end.

Definition createSlots (gridStart gridEnd : Z) : list Slot :=
  slotsFrom (slotCount gridStart gridEnd) gridStart.

(** [timetable.forEach (block => slots.forEach (slot => ...))] *)
Definition markBlock (slots : list Slot) (block : TimeBlock.t) : list Slot :=
  map (fun slot =>
         if slotsOverlap (start slot) (end_ slot)
              (TimeBlock.startTime block) (TimeBlock.endTime block)
         then {| start := start slot; end_ := end_ slot; available := false |}
         else slot) slots.

Definition markUnavailable (timetable : list TimeBlock.t) (slots : list Slot) : list Slot :=
  fold_left markBlock timetable slots.

(** [xs.slice (from, to)], with the negative indices of JavaScript. *)
Definition slice {A} (xs : list A) (from to : Z) : list A :=
  let len := Z.of_nat (length xs) in
  let k := if from <? 0 then Z.max (len + from) 0 else Z.min from len in
  let final := if to <? 0 then Z.max (len + to) 0 else Z.min to len in
  take (Z.to_nat (final - k)) (drop (Z.to_nat k) xs).

Definition requiredSlots (duration : Z) : Z := Js.ceilDiv duration SLOT_MINUTES.

(** The search loop [for (i = 0; i <= slots.length - requiredSlots; i++)];
    [todo] counts the turns left. *)
Fixpoint searchSlots (todo : nat) (i : Z) (slots : list Slot) (required : Z)
    (lastTaskEndTime : option Z) (continuousWorkTime : Z)
    : Completion (option (Z * Z)) :=
  match todo with
  | O => Normal None
  | S todo' =>
      let consecutiveSlots := slice slots i (i + required) in
      let next := searchSlots todo' (i + 1) slots required
                    lastTaskEndTime continuousWorkTime in
      if Js.every available consecutiveSlots then
        match head consecutiveSlots, last consecutiveSlots with
        | Some first, Some final =>
            let proposedStart := start first in
            let skip :=
              match lastTaskEndTime with
              | Some lastEnd =>
                  negb (continuousWorkTime =? 0)
                  && (maxContinuousWork <=? continuousWorkTime)
                  && (let timeSinceLastTask := proposedStart - lastEnd in
                      let minBreakTime :=
                        if 120 <=? continuousWorkTime
                        then longBreakDuration else shortBreakDuration in
                      timeSinceLastTask <? minBreakTime * Js.MS_PER_MINUTE)
              | None => false
              end in
            if skip then next else Normal (Some (start first, end_ final))
        | _, _ => TypeError
        end
      else next
  end.

(** Where the grid starts: at [dayStart], or for today at the next half
    hour after [now]. *)
Definition gridStart (tz : Z) (date now : Z) : Z :=
  let isToday := Js.sameDateString tz date now in
  let dayStart0 := Js.setHours tz date dayStart 0 in
  if isToday && (dayStart0 <? now) then
    let currentHour := Js.getHours tz now in
    let currentMinute := Js.getMinutes tz now in
    let roundedMinute :=
      if 30 <? currentMinute then 60
      else if 0 <? currentMinute then 30 else 0 in
    if roundedMinute =? 60
    then Js.setHours tz dayStart0 (currentHour + 1) 0
    else Js.setHours tz dayStart0 currentHour roundedMinute
  else dayStart0.

(** [findAvailableSlot (timetable, duration, date, currentTime,
    lastTaskEndTime, continuousWorkTime)]; [clock] is what [new Date()]
    reads when [currentTime] is [null]. *)
Definition findAvailableSlot (tz clock : Z) (timetable : list TimeBlock.t)
    (duration date : Z) (currentTime lastTaskEndTime : option Z)
    (continuousWorkTime : Z) : Completion (option (Z * Z)) :=
  let now := default clock currentTime in
  let slots :=
    markUnavailable timetable
      (createSlots (gridStart tz date now) (Js.setHours tz date dayEnd 0)) in
  let required := requiredSlots duration in
  searchSlots (Z.to_nat (Z.of_nat (length slots) - required + 1)) 0
    slots required lastTaskEndTime continuousWorkTime.

(** The block [placeTasks] builds; [dateLabel] is [date.toDateString ()]. *)
Definition taskBlock (dateLabel : string) (tk : Task.t) (slot : Z * Z) : TimeBlock.t :=
  {| TimeBlock.id := "task-" +:+ Task.id tk +:+ "-" +:+ dateLabel;
     TimeBlock.type := task;
     TimeBlock.startTime := fst slot;
     TimeBlock.endTime := snd slot;
     TimeBlock.title := Task.name tk;
     TimeBlock.description := Some (taskDescription tk);
     TimeBlock.taskId := Some (Task.id tk);
     TimeBlock.task :=
       Some {| Task.id := Task.id tk; Task.name := Task.name tk;
               Task.duration := Task.duration tk;
               Task.deadline := Task.deadline tk;
               Task.priority := Task.priority tk; Task.type := Task.type tk;
               Task.completed := Task.completed tk;
               Task.createdAt := Task.createdAt tk;
               Task.scheduledTime := Some (fst slot) |};
     TimeBlock.isFixed := None |}.

(** [placeTasks (timetable, tasks, date, currentTime)], as a loop over
    [tasks] that carries [lastTaskEndTime] and [continuousWorkTime]. *)
Fixpoint placeLoop (tz clock : Z) (dateLabel : string) (date : Z)
    (currentTime : option Z) (ts : list Task.t) (timetable : list TimeBlock.t)
    (lastTaskEndTime : option Z) (continuousWorkTime : Z)
    : Completion (list TimeBlock.t) :=
  match ts with
  | [] => Normal timetable
  | tk :: rest =>
      match findAvailableSlot tz clock timetable (Task.duration tk) date
              currentTime lastTaskEndTime continuousWorkTime with
      | TypeError => TypeError
      | Normal None =>
          placeLoop tz clock dateLabel date currentTime rest timetable
            lastTaskEndTime continuousWorkTime
      | Normal (Some slot) =>
          let work := continuousWorkTime + Task.duration tk in
          placeLoop tz clock dateLabel date currentTime rest
            (Js.push timetable (taskBlock dateLabel tk slot))
            (Some (snd slot))
            (if maxContinuousWork <? work then 0 else work)
      end
  end.

Definition placeTasks (tz clock : Z) (dateLabel : string)
    (timetable : list TimeBlock.t) (ts : list Task.t) (date : Z)
    (currentTime : option Z) : Completion (list TimeBlock.t) :=
  placeLoop tz clock dateLabel date currentTime ts timetable None 0.

Definition taskDuration (b : TimeBlock.t) : Z :=
  match TimeBlock.task b with Some tk => Task.duration tk | None => 0 end.

Definition intensive (b : TimeBlock.t) : bool :=
  match TimeBlock.task b with
  | Some tk => bool_decide (Task.priority tk = high) || (90 <=? Task.duration tk)
  | None => false
  end.

(** One turn of the loop of [insertIntelligentBreaks] on the adjacent
    tasks [currentTask] and [nextTask]: the accumulator once the current
    task is counted, the break pushed if any, the accumulator left to
    the next turn. *)
Record BreakStep := mkBreakStep {
  accumulated : Z;
  inserted : option TimeBlock.t;
  carried : Z
}.

Definition breakStep (currentTask nextTask : TimeBlock.t)
    (continuousWorkTime : Z) : BreakStep :=
  let work := continuousWorkTime + taskDuration currentTask in
  let timeBetween := TimeBlock.startTime nextTask - TimeBlock.endTime currentTask in
  let gapAtLeast (minutes : Z) := minutes * Js.MS_PER_MINUTE <=? timeBetween in
  let needsShortBreak :=
    (45 <=? taskDuration currentTask) && gapAtLeast shortBreakDuration in
  let needsLongBreak :=
    (maxContinuousWork <=? work) && gapAtLeast longBreakDuration in
  let needsRestBreak :=
    intensive currentTask && intensive nextTask && gapAtLeast shortBreakDuration in
  let breakDuration :=
    if needsLongBreak then longBreakDuration else shortBreakDuration in
  let breakEnd := TimeBlock.endTime currentTask + breakDuration * Js.MS_PER_MINUTE in
  let fits :=
    (needsLongBreak || needsRestBreak || needsShortBreak)
    && gapAtLeast shortBreakDuration
    && (breakEnd <=? TimeBlock.startTime nextTask) in
  let pushed :=
    if fits then
      Some {| TimeBlock.id :=
                "break-" +:+ TimeBlock.id currentTask +:+ "-" +:+ TimeBlock.id nextTask;
              TimeBlock.type := break;
              TimeBlock.startTime := TimeBlock.endTime currentTask;
              TimeBlock.endTime := breakEnd;
              TimeBlock.title :=
                if needsLongBreak then "Extended Break"
                else if needsRestBreak then "Rest Break" else "Short Break";
              TimeBlock.description :=
                Some (if needsLongBreak then "Extended rest for wellbeing"
                      else if needsRestBreak then "Recovery from intensive work"
                      else "Quick refresh");
              TimeBlock.taskId := None;
              TimeBlock.task := None;
              TimeBlock.isFixed := None |}
    else None in
  let afterBreak := if fits && needsLongBreak then 0 else work in
  {| accumulated := work;
     inserted := pushed;
     carried := if gapAtLeast 60 then 0 else afterBreak |}.

(** The turns of the loop over [taskBlocks], in order. *)
Fixpoint breakSteps (taskBlocks : list TimeBlock.t) (continuousWorkTime : Z)
    : list BreakStep :=
  match taskBlocks with
  | [] => []
  | currentTask :: rest =>
      match rest with
      | [] => []
      | nextTask :: _ =>
          let step := breakStep currentTask nextTask continuousWorkTime in
          step :: breakSteps rest (carried step)
      end
  end.

Definition sortedTaskBlocks (timetable : list TimeBlock.t) : list TimeBlock.t :=
  Js.sort byStartTime (Js.filter (isType task) timetable).

(** [insertIntelligentBreaks (timetable)]: [breaksToAdd] is what the
    turns pushed, and goes to the end of the timetable. *)
Definition breaksToAdd (timetable : list TimeBlock.t) : list TimeBlock.t :=
  omap inserted (breakSteps (sortedTaskBlocks timetable) 0).

Definition insertIntelligentBreaks (timetable : list TimeBlock.t) : list TimeBlock.t :=
  timetable ++ breaksToAdd timetable.

(** [getBalancedScore] of [prioritizeTasks] *)
Definition getBalancedScore (now : Z) (t : Task.t) : Z :=
  let timeToDeadline := Task.deadline t - now in
  let deadlineScore :=
    if timeToDeadline <=? 24 * Js.MS_PER_HOUR then 80
    else if timeToDeadline <=? 48 * Js.MS_PER_HOUR then 60
    else if timeToDeadline <=? 168 * Js.MS_PER_HOUR then 40
    else 15 in
  let priorityScore :=
    match Task.priority t with high => 40 | medium => 25 | low => 10 end in
  let typeScore :=
    match Task.type t with work => 15 | study => 12 | leisure => 8 end in
  let wellbeing :=
    (if 120 <? Task.duration t then -10 else 0)
    + (if 180 <? Task.duration t then -15 else 0) in
  deadlineScore + priorityScore + typeScore + wellbeing.

(** [prioritizeTasks (targetDate, currentTime)] *)
Definition prioritizeTasks (clock : Z) (ts : list Task.t)
    (targetDate : Z) (currentTime : option Z) : list Task.t :=
  let now := default clock currentTime in
  Js.sort (fun a b => getBalancedScore now b - getBalancedScore now a)
    (Js.filter (fun tk =>
       let daysDiff := Js.ceilDiv (Task.deadline tk - targetDate) Js.MS_PER_DAY in
       (0 <=? daysDiff) || ((-1 <=? daysDiff) && negb (Task.completed tk))) ts).

(** [timetable.some ((block, index) => ...)], counting from [index]. *)
Fixpoint someFrom (p : TimeBlock.t -> nat -> bool) (index : nat)
    (timetable : list TimeBlock.t) : bool :=
  match timetable with
  | [] => false
  | block :: rest => p block index || someFrom p (S index) rest
  end.

Definition moved (taskBlock : TimeBlock.t) (newStartTime newEndTime : Z) : TimeBlock.t :=
  {| TimeBlock.id := TimeBlock.id taskBlock;
     TimeBlock.type := TimeBlock.type taskBlock;
     TimeBlock.startTime := newStartTime;
     TimeBlock.endTime := newEndTime;
     TimeBlock.title := TimeBlock.title taskBlock;
     TimeBlock.description := TimeBlock.description taskBlock;
     TimeBlock.taskId := TimeBlock.taskId taskBlock;
     TimeBlock.task :=
       match TimeBlock.task taskBlock with
       | Some tk =>
           Some {| Task.id := Task.id tk; Task.name := Task.name tk;
                   Task.duration := Task.duration tk;
                   Task.deadline := Task.deadline tk;
                   Task.priority := Task.priority tk;
                   Task.type := Task.type tk;
                   Task.completed := Task.completed tk;
                   Task.createdAt := Task.createdAt tk;
                   Task.scheduledTime := Some newStartTime |}
       | None => None
       end;
     TimeBlock.isFixed := TimeBlock.isFixed taskBlock |}.

(** [rescheduleTask (taskId, newStartTime, timetable)] *)
Definition rescheduleTask (taskId : string) (newStartTime : Z)
    (timetable : list TimeBlock.t) : list TimeBlock.t :=
  match Js.findIndex (hasTaskId taskId) timetable with
  | None => timetable
  | Some taskIndex =>
      match timetable !! taskIndex with
      | None => timetable
      | Some taskBlock =>
          let duration := TimeBlock.endTime taskBlock - TimeBlock.startTime taskBlock in
          let newEndTime := newStartTime + duration in
          let conflictExists :=
            someFrom (fun block index =>
              negb (Nat.eqb index taskIndex)
              && slotsOverlap newStartTime newEndTime
                   (TimeBlock.startTime block) (TimeBlock.endTime block))
              O timetable in
          if negb conflictExists
          then <[taskIndex := moved taskBlock newStartTime newEndTime]> timetable
          else timetable
      end
  end.

(** [addUnavailableTime (startTime, endTime, title, description)]; [uuid]
    is what [crypto.randomUUID ()] gave.  The rule list afterwards and
    the rule returned. *)
Definition addUnavailableTime (uuid : string) (rules : list UnavailableBlock.t)
    (startTime endTime : Z) (title : string) (description : option string)
    : list UnavailableBlock.t * UnavailableBlock.t :=
  let newBlock :=
    {| UnavailableBlock.id := uuid;
       UnavailableBlock.startTime := startTime;
       UnavailableBlock.endTime := endTime;
       UnavailableBlock.title := title;
       UnavailableBlock.description := description;
       UnavailableBlock.recurring := None |} in
  (Js.push rules newBlock, newBlock).

(** One turn of [addUnavailableBlocks (timetable, date)]; [dateLabel] is
    [date.toDateString ()].  The block is not clamped to the day. *)
Definition addUnavailableBlock (tz : Z) (dateLabel : string) (date : Z)
    (timetable : list TimeBlock.t) (block : UnavailableBlock.t) : list TimeBlock.t :=
  if shouldIncludeBlock tz block date then
    let blockDate :=
      Js.setHours tz date
        (Js.getHours tz (UnavailableBlock.startTime block))
        (Js.getMinutes tz (UnavailableBlock.startTime block)) in
    let blockEndTime :=
      Js.setHours tz blockDate
        (Js.getHours tz (UnavailableBlock.endTime block))
        (Js.getMinutes tz (UnavailableBlock.endTime block)) in
    Js.push timetable
      {| TimeBlock.id :=
           "unavailable-" +:+ UnavailableBlock.id block +:+ "-" +:+ dateLabel;
         TimeBlock.type := unavailable;
         TimeBlock.startTime := blockDate;
         TimeBlock.endTime := blockEndTime;
         TimeBlock.title := UnavailableBlock.title block;
         TimeBlock.description := UnavailableBlock.description block;
         TimeBlock.taskId := None;
         TimeBlock.task := None;
         TimeBlock.isFixed := Some true |}
  else timetable.

Definition addUnavailableBlocks (tz : Z) (dateLabel : string)
    (rules : list UnavailableBlock.t) (timetable : list TimeBlock.t) (date : Z)
    : list TimeBlock.t :=
  fold_left (addUnavailableBlock tz dateLabel date) rules timetable.

(** [setTasks (tasks)] *)
Definition setTasks (ts : list Task.t) : list Task.t :=
  Js.filter (fun tk => negb (Task.completed tk)) ts.

(** [generateTimetable (date)] on the scheduler's [tasks] and
    [unavailableBlocks]; [clock] is what [new Date()] reads, [dateLabel] is
    [targetDate.toDateString ()]. *)
Definition generateTimetable (tz clock : Z) (dateLabel : string)
    (ts : list Task.t) (rules : list UnavailableBlock.t) (date : Z)
    : Completion (list TimeBlock.t) :=
  let targetDate := Js.setHours tz date 0 0 in
  let isToday := Js.sameDateString tz targetDate clock in
  let currentTime := if isToday then Some clock else None in
  let timetable := addUnavailableBlocks tz dateLabel rules [] targetDate in
  let sortedTasks := prioritizeTasks clock ts targetDate currentTime in
  match placeTasks tz clock dateLabel timetable sortedTasks targetDate currentTime with
  | TypeError => TypeError
  | Normal placed => Normal (Js.sort byStartTime (insertIntelligentBreaks placed))
  end.

End TimetableScheduler.

(** ** The first [TimetableScheduler], where it differs *)

Module TimetableSchedulerV1.

Import TimetableScheduler.

Definition shouldIncludeBlock (tz : Z) (block : UnavailableBlock.t) (date : Z) : bool :=
  match UnavailableBlock.recurring block with
  | None => true
  | Some r =>
      match Recurring.type r with
      | daily => true
      | weekly =>
          match Recurring.days r with
          | Some days => Js.includes days (Js.getDay tz date)
          | None => false
          end
      end
  end.

(** [findAvailableSlot (timetable, duration, date)]: the whole day's
    grid, and no break rule in the search. *)
Definition findAvailableSlot (tz : Z) (timetable : list TimeBlock.t)
    (duration date : Z) : Completion (option (Z * Z)) :=
  let slots :=
    markUnavailable timetable
      (createSlots (Js.setHours tz date dayStart 0) (Js.setHours tz date dayEnd 0)) in
  let required := requiredSlots duration in
  searchSlots (Z.to_nat (Z.of_nat (length slots) - required + 1)) 0
    slots required None 0.

(** One turn of the loop of [insertBreaks]. *)
Definition breakStep (currentTask nextTask : TimeBlock.t)
    (continuousWorkTime : Z) : BreakStep :=
  let work := continuousWorkTime + taskDuration currentTask in
  let timeBetween := TimeBlock.startTime nextTask - TimeBlock.endTime currentTask in
  let needsBreak :=
    (maxContinuousWork <=? work) || (15 * Js.MS_PER_MINUTE <=? timeBetween) in
  let breakDuration :=
    if 120 <=? work then longBreakDuration else shortBreakDuration in
  let breakEnd := TimeBlock.endTime currentTask + breakDuration * Js.MS_PER_MINUTE in
  let fits :=
    needsBreak && (15 * Js.MS_PER_MINUTE <=? timeBetween)
    && (breakEnd <=? TimeBlock.startTime nextTask) in
  {| accumulated := work;
     inserted :=
       if fits then
         Some {| TimeBlock.id :=
                   "break-" +:+ TimeBlock.id currentTask +:+ "-" +:+ TimeBlock.id nextTask;
                 TimeBlock.type := break;
                 TimeBlock.startTime := TimeBlock.endTime currentTask;
                 TimeBlock.endTime := breakEnd;
                 TimeBlock.title :=
                   if breakDuration =? longBreakDuration
                   then "Long Break" else "Short Break";
                 TimeBlock.description := Some "Time to recharge";
                 TimeBlock.taskId := None;
                 TimeBlock.task := None;
                 TimeBlock.isFixed := None |}
       else None;
     carried :=
       if fits && (breakDuration =? longBreakDuration) then 0 else work |}.

Fixpoint breakSteps (taskBlocks : list TimeBlock.t) (continuousWorkTime : Z)
    : list BreakStep :=
  match taskBlocks with
  | [] => []
  | currentTask :: rest =>
      match rest with
      | [] => []
      | nextTask :: _ =>
          let step := breakStep currentTask nextTask continuousWorkTime in
          step :: breakSteps rest (carried step)
      end
  end.

Definition insertBreaks (timetable : list TimeBlock.t) : list TimeBlock.t :=
  timetable ++ omap inserted (breakSteps (sortedTaskBlocks timetable) 0).

End TimetableSchedulerV1.

(** ** [AITaskScheduler]

    Its [ScheduleBlock]s are [TimeBlock]s without [isFixed]. *)

Module AITaskScheduler.

Definition workingHoursStart : Z := 9.
Definition workingHoursEnd : Z := 17.
Definition maxContinuousWork : Z := 90.
Definition shortBreak : Z := 10.
Definition longBreak : Z := 30.

Definition setTasks (ts : list Task.t) : list Task.t :=
  Js.filter (fun tk => negb (Task.completed tk)) ts.

Definition prioritizeTasks (now : Z) (ts : list Task.t) : list Task.t :=
  Js.sort (fun a b => getUrgencyScore now b - getUrgencyScore now a) ts.

Definition breakBlock (currentTime breakDuration : Z) : TimeBlock.t :=
  {| TimeBlock.id := "break-" +:+ Js.show currentTime;
     TimeBlock.type := break;
     TimeBlock.startTime := currentTime;
     TimeBlock.endTime := currentTime + breakDuration * Js.MS_PER_MINUTE;
     TimeBlock.title :=
       if breakDuration =? longBreak then "Long Break" else "Short Break";
     TimeBlock.description := Some "Time to recharge and stay productive";
     TimeBlock.taskId := None;
     TimeBlock.task := None;
     TimeBlock.isFixed := None |}.

Definition taskBlock (tk : Task.t) (currentTime : Z) : TimeBlock.t :=
  {| TimeBlock.id := "task-" +:+ Task.id tk;
     TimeBlock.type := task;
     TimeBlock.startTime := currentTime;
     TimeBlock.endTime := currentTime + Task.duration tk * Js.MS_PER_MINUTE;
     TimeBlock.title := Task.name tk;
     TimeBlock.description := Some (taskDescription tk);
     TimeBlock.taskId := Some (Task.id tk);
     TimeBlock.task := Some tk;
     TimeBlock.isFixed := None |}.

(** The break decision at the head of the loop body of [generateSchedule]. *)
Definition breakBeforeTask (sched : list TimeBlock.t)
    (currentTime continuousWorkTime : Z) : list TimeBlock.t * Z * Z :=
  if maxContinuousWork <=? continuousWorkTime then
    let breakDuration :=
      if 180 <=? continuousWorkTime then longBreak else shortBreak in
    let b := breakBlock currentTime breakDuration in
    (Js.push sched b, TimeBlock.endTime b, 0)
  else (sched, currentTime, continuousWorkTime).

(** The [for] loop of [generateSchedule]; it ends on the first task that
    stops at an hour of the day from [workingHours.end] on. *)
Fixpoint scheduleLoop (tz : Z) (ts : list Task.t) (sched : list TimeBlock.t)
    (currentTime continuousWorkTime : Z) : list TimeBlock.t :=
  match ts with
  | [] => sched
  | tk :: rest =>
      let '(sched1, currentTime1, work1) :=
        breakBeforeTask sched currentTime continuousWorkTime in
      let b := taskBlock tk currentTime1 in
      let sched2 := Js.push sched1 b in
      if workingHoursEnd <=? Js.getHours tz (TimeBlock.endTime b) then sched2
      else scheduleLoop tz rest sched2 (TimeBlock.endTime b)
             (work1 + Task.duration tk)
  end.

(** [generateSchedule (date)] on the pending [tasks]; [now] is what
    [new Date()] reads in [prioritizeTasks]. *)
Definition generateSchedule (tz now : Z) (ts : list Task.t) (date : Z)
    : list TimeBlock.t :=
  match prioritizeTasks now ts with
  | [] => []
  | sortedTasks =>
      scheduleLoop tz sortedTasks [] (Js.setHours tz date workingHoursStart 0) 0
  end.

(** [estimateCompletion (tasks)] *)
Definition estimateCompletion (now : Z) (ts : list Task.t) : Z :=
  let totalDuration := fold_left (fun sum tk => sum + Task.duration tk) ts 0 in
  let breaksNeeded := totalDuration / maxContinuousWork in
  let totalBreakTime := breaksNeeded * shortBreak in
  let totalTime := totalDuration + totalBreakTime in
  now + totalTime * Js.MS_PER_MINUTE.

End AITaskScheduler.

(** * Verification *)

(** ** Lists, sorting and intervals *)

Section SortFacts.
Context {A : Type} (cmp : A -> A -> Z).

Lemma insertBy_Permutation x l : Permutation (x :: l) (Js.insertBy cmp x l).
Proof.
  induction l as [|y l IH]; simpl; [reflexivity|].
  destruct (cmp x y <=? 0); [reflexivity|].
  rewrite perm_swap. now apply perm_skip.
Qed.

Lemma sort_Permutation l : Permutation l (Js.sort cmp l).
Proof.
  induction l as [|x l IH]; simpl; [reflexivity|].
  rewrite <- insertBy_Permutation. now apply perm_skip.
Qed.

Lemma sort_In x l : In x (Js.sort cmp l) <-> In x l.
Proof.
  split; apply Permutation_in; [symmetry|]; apply sort_Permutation.
Qed.

(** Sorting only looks at the comparator on the elements of the list. *)
Lemma insertBy_ext (cmp' : A -> A -> Z) x l :
  (forall y, In y l -> cmp x y = cmp' x y) ->
  Js.insertBy cmp x l = Js.insertBy cmp' x l.
Proof.
  induction l as [|y l IH]; intros H; simpl; [reflexivity|].
  rewrite <- (H y) by now left.
  destruct (cmp x y <=? 0); [reflexivity|].
  f_equal. apply IH. intros z Hz. apply H. now right.
Qed.

Lemma sort_ext (cmp' : A -> A -> Z) l :
  (forall x y, In x l -> In y l -> cmp x y = cmp' x y) ->
  Js.sort cmp l = Js.sort cmp' l.
Proof.
  induction l as [|x l IH]; intros H; simpl; [reflexivity|].
  rewrite <- IH by (intros; apply H; now right).
  apply insertBy_ext. intros y Hy. apply H; [left; reflexivity|].
  right. exact (proj1 (sort_In y l) Hy).
Qed.
End SortFacts.

(** ** C5: ranking is monotone in the deadline *)

Lemma deadline_band_monotone (now d1 d2 : Z) (v1 v2 v3 v4 : Z) :
  v4 <= v3 -> v3 <= v2 -> v2 <= v1 -> d1 < d2 ->
  (if d2 - now <=? 24 * Js.MS_PER_HOUR then v1
   else if d2 - now <=? 48 * Js.MS_PER_HOUR then v2
   else if d2 - now <=? 168 * Js.MS_PER_HOUR then v3 else v4)
  <= (if d1 - now <=? 24 * Js.MS_PER_HOUR then v1
      else if d1 - now <=? 48 * Js.MS_PER_HOUR then v2
      else if d1 - now <=? 168 * Js.MS_PER_HOUR then v3 else v4).
Proof.
  intros H43 H32 H21 Hd. unfold Js.MS_PER_HOUR.
  repeat match goal with
         | |- context [?a <=? ?b] => destruct (Z.leb_spec a b)
         end; lia.
Qed.

(** C5.  Two tasks with the same priority, category and duration, the
    first with the strictly earlier deadline: whatever the clock reads, the
    first scores at least as much as the second, under the urgency score of
    [ScheduleEngine] and under the balanced score of [TimetableScheduler]. *)
Theorem C5_earlier_deadline_never_scores_lower (now : Z) (a b : Task.t) :
  Task.priority a = Task.priority b ->
  Task.type a = Task.type b ->
  Task.duration a = Task.duration b ->
  Task.deadline a < Task.deadline b ->
  getUrgencyScore now b <= getUrgencyScore now a
  /\ TimetableScheduler.getBalancedScore now b
     <= TimetableScheduler.getBalancedScore now a.
Proof.
  intros Hp Ht Hd Hlt.
  unfold getUrgencyScore, TimetableScheduler.getBalancedScore.
  rewrite Hp, Ht, Hd. split.
  - pose proof (deadline_band_monotone now _ _ 100 80 60 20
                  ltac:(lia) ltac:(lia) ltac:(lia) Hlt). cbv zeta. lia.
  - pose proof (deadline_band_monotone now _ _ 80 60 40 15
                  ltac:(lia) ltac:(lia) ltac:(lia) Hlt). cbv zeta. lia.
Qed.

Definition sampleTask (id : string) (duration deadline : Z)
    (p : Priority) (k : TaskType) : Task.t :=
  {| Task.id := id; Task.name := id; Task.duration := duration;
     Task.deadline := deadline; Task.priority := p; Task.type := k;
     Task.completed := false; Task.createdAt := 0;
     Task.scheduledTime := None |}.

Lemma C5_witness :
  getUrgencyScore 0 (sampleTask "late" 60 (100 * Js.MS_PER_HOUR) medium study)
    <= getUrgencyScore 0 (sampleTask "soon" 60 Js.MS_PER_HOUR medium study)
  /\ TimetableScheduler.getBalancedScore 0
       (sampleTask "late" 60 (100 * Js.MS_PER_HOUR) medium study)
     <= TimetableScheduler.getBalancedScore 0
          (sampleTask "soon" 60 Js.MS_PER_HOUR medium study).
Proof.
  apply (C5_earlier_deadline_never_scores_lower 0
           (sampleTask "soon" 60 Js.MS_PER_HOUR medium study)
           (sampleTask "late" 60 (100 * Js.MS_PER_HOUR) medium study));
    [reflexivity | reflexivity | reflexivity | vm_compute; reflexivity].
Defined.

(** ** C10: rescheduling a task that has no block *)

Lemma find_none_taskId (taskId : string) (S : list TimeBlock.t) :
  (forall b, In b S -> TimeBlock.taskId b <> Some taskId) ->
  Js.find (hasTaskId taskId) S = None.
Proof.
  induction S as [|b S IH]; intros H; simpl; [reflexivity|].
  unfold hasTaskId at 1. rewrite bool_decide_eq_false_2 by (apply H; now left).
  apply IH. intros c Hc. apply H. now right.
Qed.

Lemma findIndex_none_taskId (taskId : string) (S : list TimeBlock.t) :
  (forall b, In b S -> TimeBlock.taskId b <> Some taskId) ->
  Js.findIndex (hasTaskId taskId) S = None.
Proof.
  induction S as [|b S IH]; intros H; simpl; [reflexivity|].
  unfold hasTaskId at 1. rewrite bool_decide_eq_false_2 by (apply H; now left).
  rewrite IH; [reflexivity|]. intros c Hc. apply H. now right.
Qed.

(** C10.  When no block of the schedule carries the task id,
    [rescheduleTask] gives the schedule back as it is, for every new start:
    the engine keeps its state and returns its schedule, and the timetable
    scheduler returns the timetable it was given. *)
Theorem C10_reschedule_without_block_is_identity
    (S : list TimeBlock.t) (taskId : string) (newStartTime : Z) :
  (forall b, In b S -> TimeBlock.taskId b <> Some taskId) ->
  (forall e, ScheduleEngine.schedule e = S ->
             ScheduleEngine.rescheduleTask e taskId newStartTime = (e, S))
  /\ TimetableScheduler.rescheduleTask taskId newStartTime S = S.
Proof.
  intros H. split.
  - intros e He. unfold ScheduleEngine.rescheduleTask.
    rewrite He, find_none_taskId by exact H. reflexivity.
  - unfold TimetableScheduler.rescheduleTask.
    rewrite findIndex_none_taskId by exact H. reflexivity.
Qed.

Definition sampleBlock (id : string) (k : BlockType) (startTime endTime : Z)
    (tk : option Task.t) : TimeBlock.t :=
  {| TimeBlock.id := id; TimeBlock.type := k;
     TimeBlock.startTime := startTime; TimeBlock.endTime := endTime;
     TimeBlock.title := id; TimeBlock.description := None;
     TimeBlock.taskId := Task.id <$> tk; TimeBlock.task := tk;
     TimeBlock.isFixed := None |}.

(** Minutes after midnight of the first day, in milliseconds. *)
Definition at_ (h m : Z) : Z := h * Js.MS_PER_HOUR + m * Js.MS_PER_MINUTE.

Lemma C10_witness :
  let S := [sampleBlock "task-a" task (at_ 9 0) (at_ 10 0)
              (Some (sampleTask "a" 60 (at_ 20 0) high work));
            sampleBlock "lunch" unavailable (at_ 12 0) (at_ 13 0) None] in
  (forall e, ScheduleEngine.schedule e = S ->
             ScheduleEngine.rescheduleTask e "b" (at_ 14 0) = (e, S))
  /\ TimetableScheduler.rescheduleTask "b" (at_ 14 0) S = S.
Proof.
  intros S.
  apply (C10_reschedule_without_block_is_identity S "b" (at_ 14 0)).
  intros b [<-|[<-|[]]]; simpl; discriminate.
Defined.

(** ** C6: rules without recurrence *)

(** The second [TimetableScheduler] includes a rule without recurrence on
    the calendar day of its template, and on no other day. *)
Lemma TimetableScheduler_one_off_rule_same_day_only
    (tz : Z) (block : UnavailableBlock.t) (date : Z) :
  UnavailableBlock.recurring block = None ->
  TimetableScheduler.shouldIncludeBlock tz block date = true
  <-> Js.localDay tz (UnavailableBlock.startTime block) = Js.localDay tz date.
Proof.
  intros H. unfold TimetableScheduler.shouldIncludeBlock, Js.sameDateString.
  rewrite H. apply Z.eqb_eq.
Qed.

Definition dentist : UnavailableBlock.t :=
  {| UnavailableBlock.id := "dentist";
     UnavailableBlock.startTime := at_ 12 0;
     UnavailableBlock.endTime := at_ 13 0;
     UnavailableBlock.title := "Dentist";
     UnavailableBlock.description := None;
     UnavailableBlock.recurring := None |}.

(** C6.  [ScheduleEngine] and the first [TimetableScheduler] include a rule
    without recurrence on a day that is not the day of its template: the
    rule [dentist], dated on the first day, is expanded on the second day,
    where the second [TimetableScheduler] leaves it out. *)
Theorem C6_engine_expands_one_off_rule_on_another_day :
  let nextDay := Js.MS_PER_DAY in
  let e := ScheduleEngine.setUnavailableBlocks ScheduleEngine.init [dentist] in
  Js.localDay 0 (UnavailableBlock.startTime dentist) <> Js.localDay 0 nextDay
  /\ ScheduleEngine.shouldIncludeBlock 0 dentist nextDay = true
  /\ TimetableSchedulerV1.shouldIncludeBlock 0 dentist nextDay = true
  /\ TimetableScheduler.shouldIncludeBlock 0 dentist nextDay = false
  /\ map (fun b => (TimeBlock.startTime b - nextDay, TimeBlock.endTime b - nextDay))
       (snd (ScheduleEngine.generateSchedule 0 (ScheduleEngine.mkClock 0 0) e nextDay))
     = [(at_ 12 0, at_ 13 0)].
Proof.
  cbv zeta. repeat split; try (vm_compute; reflexivity).
  vm_compute. discriminate.
Qed.

(** ** C4: the length of an allocated block *)

Section SlotGrid.
Import TimetableScheduler.

(** The slots of a grid that starts at [origin]: slot [k] begins [k]
    slot widths after it and is one slot wide. *)
Definition onGrid (origin : Z) (slots : list Slot) : Prop :=
  forall (k : nat) (slot : Slot), slots !! k = Some slot ->
    start slot = origin + Z.of_nat k * SLOT_MS
    /\ end_ slot = start slot + SLOT_MS.

Lemma slotsFrom_onGrid n origin : onGrid origin (slotsFrom n origin).
Proof.
  revert origin. induction n as [|n IH]; intros origin k slot H; simpl in H.
  - discriminate.
  - destruct k as [|k]; simpl in H.
    + injection H as <-. simpl. lia.
    + apply IH in H. lia.
Qed.

Lemma markBlock_onGrid origin slots block :
  onGrid origin slots -> onGrid origin (markBlock slots block).
Proof.
  intros H k slot Hk. unfold markBlock in Hk.
  rewrite list_lookup_fmap in Hk.
  destruct (slots !! k) as [slot0|] eqn:E; [|discriminate].
  apply H in E. simpl in Hk. injection Hk as <-.
  destruct (slotsOverlap _ _ _ _); simpl; exact E.
Qed.

Lemma markUnavailable_onGrid origin timetable slots :
  onGrid origin slots -> onGrid origin (markUnavailable timetable slots).
Proof.
  unfold markUnavailable. revert slots.
  induction timetable as [|b timetable IH]; intros slots H; simpl; [exact H|].
  apply IH. now apply markBlock_onGrid.
Qed.

(** A run of [required] slots inside the grid: the slice of the source. *)
Lemma slice_run (slots : list Slot) (i required : Z) :
  0 <= i -> 1 <= required -> i + required <= Z.of_nat (length slots) ->
  head (slice slots i (i + required)) = slots !! Z.to_nat i
  /\ last (slice slots i (i + required)) = slots !! Z.to_nat (i + required - 1).
Proof.
  intros Hi Hr Hlen. unfold slice.
  destruct (Z.ltb_spec i 0); [lia|].
  destruct (Z.ltb_spec (i + required) 0); [lia|].
  rewrite !Z.min_l by lia.
  replace (i + required - i) with required by lia.
  split.
  - rewrite head_lookup, lookup_take_lt by lia.
    rewrite lookup_drop. f_equal. lia.
  - rewrite last_lookup, length_take, length_drop.
    rewrite lookup_take_lt by lia.
    rewrite lookup_drop. f_equal. lia.
Qed.

Lemma searchSlots_length origin slots required lastEnd work :
  onGrid origin slots -> 1 <= required ->
  forall todo i s e,
    0 <= i ->
    (todo <> O -> i + Z.of_nat todo <= Z.of_nat (length slots) - required + 1) ->
    searchSlots todo i slots required lastEnd work = Normal (Some (s, e)) ->
    e = s + required * SLOT_MS.
Proof.
  intros Hgrid Hr. induction todo as [|todo IH]; intros i s e Hi Hb H; simpl in H.
  - discriminate.
  - assert (Hb' : i + Z.of_nat (S todo) <= Z.of_nat (length slots) - required + 1)
      by (apply Hb; discriminate).
    assert (Hnext : forall s e,
               searchSlots todo (i + 1) slots required lastEnd work
                 = Normal (Some (s, e)) -> e = s + required * SLOT_MS).
    { intros s' e' H'. apply (IH (i + 1)); [lia| |exact H']. intros _. lia. }
    destruct (slice_run slots i required) as [Hh Hl]; [lia..|].
    destruct (Js.every available _); [|now apply Hnext].
    rewrite Hh, Hl in H.
    destruct (slots !! Z.to_nat i) as [first|] eqn:E1; [|discriminate].
    destruct (slots !! Z.to_nat (i + required - 1)) as [final|] eqn:E2;
      [|discriminate].
    match type of H with
    | (if ?c then _ else _) = _ => destruct c; [now apply Hnext|]
    end.
    injection H as <- <-.
    apply Hgrid in E1, E2. rewrite !Z2Nat.id in * by lia. lia.
Qed.

Lemma requiredSlots_bounds duration :
  duration <= requiredSlots duration * SLOT_MINUTES < duration + SLOT_MINUTES.
Proof.
  unfold requiredSlots, Js.ceilDiv, SLOT_MINUTES.
  pose proof (Z.div_mod (- duration) 30 ltac:(lia)).
  pose proof (Z.mod_pos_bound (- duration) 30 ltac:(lia)). lia.
Qed.
End SlotGrid.

Lemma slotAfterConflicts_length sortedBlocks nextStart durationMs endOfDay s e :
  ScheduleEngine.slotAfterConflicts sortedBlocks nextStart durationMs endOfDay
    = Some (s, e) ->
  e = s + durationMs.
Proof.
  revert nextStart. induction sortedBlocks as [|b l IH]; intros nextStart; simpl.
  - destruct (_ <=? _); [|discriminate]. now intros [= <- <-].
  - destruct (_ <=? _); [now intros [= <- <-]|]. apply IH.
Qed.

Lemma engine_slot_length sched startTime duration endOfDay s e :
  ScheduleEngine.findAvailableSlot sched startTime duration endOfDay = Some (s, e) ->
  e = s + duration * Js.MS_PER_MINUTE.
Proof.
  unfold ScheduleEngine.findAvailableSlot.
  destruct (_ <? _); [discriminate|].
  destruct (negb _); [now intros [= <- <-]|].
  apply slotAfterConflicts_length.
Qed.

(** A slot found on a grid, for a positive duration, is
    [ceil (duration / 30)] slots long. *)
Lemma grid_slot_length origin slots duration lastEnd work s e :
  0 < duration -> onGrid origin slots ->
  TimetableScheduler.searchSlots
    (Z.to_nat (Z.of_nat (length slots)
               - TimetableScheduler.requiredSlots duration + 1)) 0
    slots (TimetableScheduler.requiredSlots duration) lastEnd work
  = Normal (Some (s, e)) ->
  e = s + Js.ceilDiv duration 30 * (30 * Js.MS_PER_MINUTE)
  /\ duration * Js.MS_PER_MINUTE <= e - s < (duration + 30) * Js.MS_PER_MINUTE.
Proof.
  intros Hd Hgrid H.
  pose proof (requiredSlots_bounds duration) as Hb.
  assert (Hr : 1 <= TimetableScheduler.requiredSlots duration)
    by (unfold TimetableScheduler.SLOT_MINUTES in Hb; lia).
  apply (searchSlots_length origin) in H; [|exact Hgrid|exact Hr|lia|lia].
  unfold TimetableScheduler.SLOT_MS, TimetableScheduler.SLOT_MINUTES,
    TimetableScheduler.requiredSlots, Js.MS_PER_MINUTE in *.
  split; [exact H|lia].
Qed.

Lemma timetable_slot_length tz clock timetable duration date
    currentTime lastTaskEndTime work s e :
  0 < duration ->
  TimetableScheduler.findAvailableSlot tz clock timetable duration date
    currentTime lastTaskEndTime work = Normal (Some (s, e)) ->
  e = s + Js.ceilDiv duration 30 * (30 * Js.MS_PER_MINUTE)
  /\ duration * Js.MS_PER_MINUTE <= e - s < (duration + 30) * Js.MS_PER_MINUTE.
Proof.
  intros Hd H. eapply grid_slot_length; [exact Hd| |exact H].
  apply markUnavailable_onGrid, slotsFrom_onGrid.
Qed.

(** Every block [placeTasks] pushes is the block of one of the tasks, a
    whole number of slots long. *)
Lemma placeLoop_pushes_whole_slots tz clock dateLabel date currentTime ts :
  List.Forall (fun tk => 0 < Task.duration tk) ts ->
  forall timetable lastTaskEndTime work result,
    TimetableScheduler.placeLoop tz clock dateLabel date currentTime ts
      timetable lastTaskEndTime work = Normal result ->
    exists pushed,
      result = timetable ++ pushed
      /\ List.Forall (fun b =>
           exists tk, In tk ts
             /\ TimeBlock.type b = task
             /\ TimeBlock.taskId b = Some (Task.id tk)
             /\ TimeBlock.endTime b
                = TimeBlock.startTime b
                  + Js.ceilDiv (Task.duration tk) 30 * (30 * Js.MS_PER_MINUTE))
           pushed.
Proof.
  induction ts as [|tk ts IH]; intros Hts timetable lastEnd work result H;
    simpl in H.
  - injection H as <-. exists []. split; [now rewrite app_nil_r|constructor].
  - inversion Hts as [|? ? Hd Hts']; subst.
    assert (Hmore : forall pushed,
              List.Forall (fun b => exists tk0, In tk0 ts
                  /\ TimeBlock.type b = task
                  /\ TimeBlock.taskId b = Some (Task.id tk0)
                  /\ TimeBlock.endTime b
                     = TimeBlock.startTime b
                       + Js.ceilDiv (Task.duration tk0) 30 * (30 * Js.MS_PER_MINUTE))
                pushed ->
              List.Forall (fun b => exists tk0, In tk0 (tk :: ts)
                  /\ TimeBlock.type b = task
                  /\ TimeBlock.taskId b = Some (Task.id tk0)
                  /\ TimeBlock.endTime b
                     = TimeBlock.startTime b
                       + Js.ceilDiv (Task.duration tk0) 30 * (30 * Js.MS_PER_MINUTE))
                pushed).
    { intros pushed. apply List.Forall_impl.
      intros b (tk0 & Hin & Hrest). exists tk0. split; [now right|exact Hrest]. }
    destruct (TimetableScheduler.findAvailableSlot _ _ _ _ _ _ _ _)
      as [[[s e]|]|] eqn:Es; [| |discriminate].
    + apply IH in H as (pushed & -> & Hp); [|exact Hts'].
      exists (TimetableScheduler.taskBlock dateLabel tk (s, e) :: pushed).
      unfold Js.push. rewrite <- app_assoc. split; [reflexivity|].
      constructor; [|now apply Hmore].
      exists tk. split; [now left|]. repeat split.
      now apply timetable_slot_length in Es as [-> _].
    + apply IH in H as (pushed & -> & Hp); [|exact Hts'].
      exists pushed. split; [reflexivity|now apply Hmore].
Qed.

(** C4, as amended.  A task of positive duration placed by the slot grid of
    [TimetableScheduler] (either generation) gets a whole number of slots,
    [ceil (duration / 30)] of them, so the block is at least as long as the
    task and less than one slot longer.  [ScheduleEngine] has no grid: its
    block is exactly as long as the task. *)
Theorem C4_allocated_block_length (duration s e : Z) :
  0 < duration ->
  (forall tz clock timetable date currentTime lastTaskEndTime work,
      TimetableScheduler.findAvailableSlot tz clock timetable duration date
        currentTime lastTaskEndTime work = Normal (Some (s, e)) ->
      e = s + Js.ceilDiv duration 30 * (30 * Js.MS_PER_MINUTE)
      /\ duration * Js.MS_PER_MINUTE <= e - s
         < (duration + 30) * Js.MS_PER_MINUTE)
  /\ (forall tz timetable date,
      TimetableSchedulerV1.findAvailableSlot tz timetable duration date
        = Normal (Some (s, e)) ->
      e = s + Js.ceilDiv duration 30 * (30 * Js.MS_PER_MINUTE)
      /\ duration * Js.MS_PER_MINUTE <= e - s
         < (duration + 30) * Js.MS_PER_MINUTE)
  /\ (forall sched startTime endOfDay,
      ScheduleEngine.findAvailableSlot sched startTime duration endOfDay
        = Some (s, e) ->
      e = s + duration * Js.MS_PER_MINUTE).
Proof.
  intros Hd. split; [|split].
  - intros tz clock timetable date currentTime lastEnd work.
    now apply timetable_slot_length.
  - intros tz timetable date H.
    eapply grid_slot_length; [exact Hd| |exact H].
    apply markUnavailable_onGrid, slotsFrom_onGrid.
  - intros sched startTime endOfDay. apply engine_slot_length.
Qed.

Lemma C4_witness :
  TimetableScheduler.findAvailableSlot 0 0 [] 45 0 None None 0
    = Normal (Some (at_ 6 0, at_ 7 0))
  /\ at_ 7 0 = at_ 6 0 + Js.ceilDiv 45 30 * (30 * Js.MS_PER_MINUTE)
  /\ 45 * Js.MS_PER_MINUTE <= at_ 7 0 - at_ 6 0 < (45 + 30) * Js.MS_PER_MINUTE.
Proof.
  split; [vm_compute; reflexivity|].
  apply (proj1 (C4_allocated_block_length 45 (at_ 6 0) (at_ 7 0) ltac:(lia))
           0 0 [] 0 None None 0).
  vm_compute; reflexivity.
Defined.

Definition blockSpan (b : TimeBlock.t) : BlockType * Z * Z :=
  (TimeBlock.type b, TimeBlock.startTime b, TimeBlock.endTime b).

(** C4 as stated fails on [ScheduleEngine]: a task of 45 minutes, alone on
    an empty day, gets the block 9:00-9:45, which is neither one hour long
    ([ceil (45 / 30)] slots) nor longer than the task. *)
Lemma C4_counterexample :
  let e := ScheduleEngine.setTasks ScheduleEngine.init
             [sampleTask "a" 45 (at_ 20 0) high work] in
  map blockSpan
    (snd (ScheduleEngine.generateSchedule 0 (ScheduleEngine.mkClock 0 0) e 0))
    = [(task, at_ 9 0, at_ 9 45)]
  /\ at_ 9 45 <> at_ 9 0 + Js.ceilDiv 45 30 * (30 * Js.MS_PER_MINUTE)
  /\ ~ (45 * Js.MS_PER_MINUTE < at_ 9 45 - at_ 9 0).
Proof.
  cbv zeta. split; [vm_compute; reflexivity|].
  split; vm_compute; [discriminate | intros H; discriminate H].
Qed.

(** ** C7: when a break is inserted, how long it is, when the count restarts *)

Section BreakRule.
Import TimetableScheduler.

(** What one turn on the adjacent tasks [A] and [B] does, [st] being the
    turn and [gap] the time from the end of [A] to the start of [B]. *)
Definition followsBreakRule (A B : TimeBlock.t) (st : BreakStep) : Prop :=
  let gap := TimeBlock.startTime B - TimeBlock.endTime A in
  let work := accumulated st in
  let long := maxContinuousWork <= work
              /\ longBreakDuration * Js.MS_PER_MINUTE <= gap in
  let wanted := long \/ 45 <= taskDuration A
                \/ (intensive A = true /\ intensive B = true) in
  (* a break is inserted exactly when one is wanted and the gap holds a short break *)
  (is_Some (inserted st)
   <-> wanted /\ shortBreakDuration * Js.MS_PER_MINUTE <= gap)
  (* it starts where [A] ends, stops before [B] starts, and is long or short *)
  /\ (forall b, inserted st = Some b ->
        TimeBlock.type b = break
        /\ TimeBlock.startTime b = TimeBlock.endTime A
        /\ TimeBlock.endTime b <= TimeBlock.startTime B
        /\ (long ->
            TimeBlock.endTime b - TimeBlock.startTime b
            = longBreakDuration * Js.MS_PER_MINUTE)
        /\ (~ long ->
            TimeBlock.endTime b - TimeBlock.startTime b
            = shortBreakDuration * Js.MS_PER_MINUTE))
  (* the count restarts after a long break and after a gap of an hour *)
  /\ ((is_Some (inserted st) /\ long) \/ 60 * Js.MS_PER_MINUTE <= gap ->
      carried st = 0)
  /\ (~ ((is_Some (inserted st) /\ long) \/ 60 * Js.MS_PER_MINUTE <= gap) ->
      carried st = work).

(** The turns over a task sequence: each counts the current task, follows
    the rule, and hands its count to the next. *)
Fixpoint turnsFollowRule (taskBlocks : list TimeBlock.t) (work : Z)
    (steps : list BreakStep) : Prop :=
  match taskBlocks, steps with
  | A :: ((B :: _) as rest), st :: steps' =>
      accumulated st = work + taskDuration A
      /\ followsBreakRule A B st
      /\ turnsFollowRule rest (carried st) steps'
  | A :: ((B :: _) as rest), [] => False
  | _, [] => True
  | _, _ :: _ => False
  end.

Lemma breakStep_followsBreakRule A B work :
  followsBreakRule A B (breakStep A B work).
Proof.
  unfold followsBreakRule, breakStep. cbv zeta. simpl accumulated.
  unfold shortBreakDuration, longBreakDuration, maxContinuousWork,
    Js.MS_PER_MINUTE, inserted, carried.
  set (gap := TimeBlock.startTime B - TimeBlock.endTime A).
  assert (Hend : forall d, TimeBlock.endTime A + d <= TimeBlock.startTime B
                           <-> d <= gap) by (intros; subst gap; lia).
  destruct (Z.leb_spec 45 (taskDuration A));
    destruct (Z.leb_spec 90 (work + taskDuration A));
    destruct (Z.leb_spec (15 * 60000) gap);
    destruct (Z.leb_spec (30 * 60000) gap);
    destruct (Z.leb_spec (60 * 60000) gap);
    destruct (intensive A); destruct (intensive B);
    try lia; simpl;
    repeat match goal with
           | |- context [?a <=? ?b] => destruct (Z.leb_spec a b); try lia
           end;
    simpl; repeat split; intros;
    repeat match goal with
           | H : is_Some None |- _ => destruct H as [? H]; discriminate H
           | H : None = Some _ |- _ => discriminate H
           | H : Some _ = Some _ |- _ => injection H as <-
           | H : _ /\ _ |- _ => destruct H
           | H : false = true |- _ => discriminate H
           | |- is_Some (Some _) => eexists; reflexivity
           end;
    simpl; try reflexivity; try lia; try tauto;
    try (exfalso;
         match goal with H : ~ _ |- _ => apply H end;
         left; split; [eexists; reflexivity | lia]).
Qed.
End BreakRule.

Lemma breakSteps_turnsFollowRule taskBlocks work :
  turnsFollowRule taskBlocks work (TimetableScheduler.breakSteps taskBlocks work).
Proof.
  revert work. induction taskBlocks as [|A rest IH]; intros work; simpl;
    [exact I|].
  destruct rest as [|B rest']; [exact I|].
  split; [reflexivity|].
  split; [apply breakStep_followsBreakRule|].
  apply IH.
Qed.

(** C7, as amended.  [insertIntelligentBreaks] walks the tasks in start
    order with a count of continuous work, starting from zero.  Between the
    adjacent tasks A and B it inserts a break exactly when the gap holds a
    short break (15 min) and either the count (A included) has reached
    [maxContinuousWork] (90 min) with a gap of at least a long break
    (30 min), or A lasts 45 min or more, or A and B are both intensive.  The
    break is long when the count reached [maxContinuousWork] and the gap
    holds a long break, short otherwise.  The count restarts from zero after
    a long break, and after a gap of 60 min or more; a short break leaves
    it.  The breaks go to the end of the timetable. *)
Theorem C7_break_insertion_rule (timetable : list TimeBlock.t) :
  let taskBlocks := TimetableScheduler.sortedTaskBlocks timetable in
  let steps := TimetableScheduler.breakSteps taskBlocks 0 in
  turnsFollowRule taskBlocks 0 steps
  /\ TimetableScheduler.insertIntelligentBreaks timetable
     = timetable ++ omap TimetableScheduler.inserted steps.
Proof.
  cbv zeta. split; [apply breakSteps_turnsFollowRule | reflexivity].
Qed.

(** C7 as stated fails: after a task of 45 minutes and with half an hour
    to the next task, a break is inserted although the count of continuous
    work (45) has not reached [maxContinuousWork] (90), and the count is not
    reset by that break. *)
Lemma C7_counterexample :
  let timetable :=
    [sampleBlock "task-a" task (at_ 9 0) (at_ 10 0)
       (Some (sampleTask "a" 45 (at_ 20 0) medium study));
     sampleBlock "task-b" task (at_ 10 30) (at_ 11 0)
       (Some (sampleTask "b" 30 (at_ 20 0) medium study))] in
  map (fun st => (TimetableScheduler.accumulated st,
                  blockSpan <$> TimetableScheduler.inserted st,
                  TimetableScheduler.carried st))
    (TimetableScheduler.breakSteps
       (TimetableScheduler.sortedTaskBlocks timetable) 0)
    = [(45, Some (break, at_ 10 0, at_ 10 15), 45)]
  /\ 45 < TimetableScheduler.maxContinuousWork
  /\ map blockSpan (TimetableScheduler.insertIntelligentBreaks timetable)
     = [(task, at_ 9 0, at_ 10 0); (task, at_ 10 30, at_ 11 0);
        (break, at_ 10 0, at_ 10 15)].
Proof.
  cbv zeta. repeat split; vm_compute; reflexivity.
Qed.

(** ** What [generateSchedule] keeps *)

Section EngineFrames.
Import ScheduleEngine.

Lemma breakBeforeTask_extends cfg workEnd sched cur work sched1 cur1 work1 :
  breakBeforeTask cfg workEnd sched cur work = (sched1, cur1, work1) ->
  exists added, sched1 = sched ++ added.
Proof.
  unfold breakBeforeTask, Js.push.
  destruct (_ <=? _); [destruct (_ <=? _)|]; intros [= <- <- <-];
    eauto using app_nil_r.
  all: exists []; now rewrite app_nil_r.
Qed.

(** [scheduleTasks] only pushes. *)
Lemma scheduleLoop_extends cfg workEnd ts :
  forall sched cur work,
    exists added, scheduleLoop cfg workEnd ts sched cur work = sched ++ added.
Proof.
  induction ts as [|tk ts IH]; intros sched cur work; simpl.
  - exists []. now rewrite app_nil_r.
  - destruct (breakBeforeTask cfg workEnd sched cur work)
      as [[sched1 cur1] work1] eqn:Eb.
    apply breakBeforeTask_extends in Eb as [added1 ->].
    destruct (findAvailableSlot _ _ _ _) as [[s e]|]; [|eauto].
    unfold Js.push. destruct (_ <=? _).
    + rewrite <- app_assoc. eauto.
    + destruct (IH ((sched ++ added1) ++ [taskBlock tk s e]) e
                  (work1 + Task.duration tk)) as [added2 ->].
      rewrite <- !app_assoc. eauto.
Qed.

Lemma scheduleLoop_keeps cfg workEnd ts sched cur work b :
  In b sched -> In b (scheduleLoop cfg workEnd ts sched cur work).
Proof.
  intros H. destruct (scheduleLoop_extends cfg workEnd ts sched cur work)
    as [added ->]. apply in_or_app. now left.
Qed.

Lemma fold_addAdHocBlock_snoc workDay blocks block sched :
  fold_left (addAdHocBlock workDay) (blocks ++ [block]) sched
  = addAdHocBlock workDay (fold_left (addAdHocBlock workDay) blocks sched) block.
Proof. now rewrite fold_left_app. Qed.
End EngineFrames.

(** ** C9: what happens to invalid entries *)

(** C9, as amended.  The engine validates nothing and reports no error:
    [addUnavailableTime] stores the block whatever its bounds and returns a
    schedule.  When the end is not after the start and the block lies in the
    working window (window start < end, start < window end), the returned
    schedule holds the block with exactly these bounds, inverted or of zero
    length. *)
Theorem C9_inverted_block_is_scheduled (tz : Z) (clock : ScheduleEngine.Clock)
    (e : ScheduleEngine.t) (startTime endTime : Z)
    (title : string) (description : option string) :
  let workDay := ScheduleEngine.createWorkDay tz (ScheduleEngine.config e) startTime in
  endTime <= startTime ->
  fst workDay < endTime ->
  startTime < snd workDay ->
  In (ScheduleEngine.adHocBlock startTime endTime title description)
     (snd (ScheduleEngine.addUnavailableTime tz clock e
             startTime endTime title description)).
Proof.
  intros workDay Hinv Hlo Hhi.
  unfold ScheduleEngine.addUnavailableTime, ScheduleEngine.generateSchedule.
  cbn [snd]. apply sort_In.
  unfold ScheduleEngine.scheduleTasks. apply scheduleLoop_keeps.
  unfold ScheduleEngine.addUnavailableBlocks.
  cbn [ScheduleEngine.adHocUnavailableByDate ScheduleEngine.withAdHoc
       ScheduleEngine.config ScheduleEngine.unavailableBlocks
       ScheduleEngine.suppressedRecurringInstances].
  rewrite lookup_insert_eq. cbn [default]. unfold id, Js.push at 1.
  rewrite fold_addAdHocBlock_snoc.
  fold workDay. unfold ScheduleEngine.addAdHocBlock at 1.
  cbn [TimeBlock.startTime TimeBlock.endTime ScheduleEngine.adHocBlock].
  unfold timeSlotsOverlap.
  destruct (Z.ltb_spec startTime (snd workDay)); [|lia].
  destruct (Z.ltb_spec (fst workDay) endTime); [|lia].
  cbn [andb]. unfold Js.push. apply in_or_app. right. left.
  rewrite Z.max_l, Z.min_l by lia. reflexivity.
Qed.

Lemma C9_witness :
  In (ScheduleEngine.adHocBlock (at_ 12 0) (at_ 11 0) "Meeting" None)
     (snd (ScheduleEngine.addUnavailableTime 0 (ScheduleEngine.mkClock 0 0)
             ScheduleEngine.init (at_ 12 0) (at_ 11 0) "Meeting" None)).
Proof.
  apply (C9_inverted_block_is_scheduled 0 (ScheduleEngine.mkClock 0 0)
           ScheduleEngine.init (at_ 12 0) (at_ 11 0) "Meeting" None);
    vm_compute; congruence.
Defined.

(** C9 as stated fails: an ad-hoc block that ends an hour before it starts
    is accepted and scheduled as it is, and so are a block of zero length
    and a task of zero duration. *)
Lemma C9_counterexample :
  map blockSpan
    (snd (ScheduleEngine.addUnavailableTime 0 (ScheduleEngine.mkClock 0 0)
            ScheduleEngine.init (at_ 12 0) (at_ 11 0) "Meeting" None))
    = [(unavailable, at_ 12 0, at_ 11 0)]
  /\ map blockSpan
       (snd (ScheduleEngine.addUnavailableTime 0 (ScheduleEngine.mkClock 0 0)
               ScheduleEngine.init (at_ 12 0) (at_ 12 0) "Meeting" None))
     = [(unavailable, at_ 12 0, at_ 12 0)]
  /\ map blockSpan
       (snd (ScheduleEngine.generateSchedule 0 (ScheduleEngine.mkClock 0 0)
               (ScheduleEngine.setTasks ScheduleEngine.init
                  [sampleTask "a" 0 (at_ 20 0) high work]) 0))
     = [(task, at_ 9 0, at_ 9 0)].
Proof.
  repeat split; vm_compute; reflexivity.
Qed.

(** ** C3: what a generated schedule depends on *)

(** C3, as amended.  Two runs of [generateSchedule] for the same date on
    the same engine (tasks, rules, ad-hoc blocks, suppressed instances and
    configuration) return the same schedule and leave the same engine
    whenever their clock readings give every task the same urgency score
    and give the same anchor to start from; the clock enters in no other
    way. *)
Theorem C3_same_schedule_for_equivalent_clocks
    (tz : Z) (e : ScheduleEngine.t) (date : Z) (c1 c2 : ScheduleEngine.Clock) :
  let workDay := ScheduleEngine.createWorkDay tz (ScheduleEngine.config e) date in
  (forall tk, In tk (ScheduleEngine.tasks e) ->
     getUrgencyScore (ScheduleEngine.nowRank c1) tk
     = getUrgencyScore (ScheduleEngine.nowRank c2) tk) ->
  ScheduleEngine.startFrom workDay (ScheduleEngine.nowStart c1)
  = ScheduleEngine.startFrom workDay (ScheduleEngine.nowStart c2) ->
  ScheduleEngine.generateSchedule tz c1 e date
  = ScheduleEngine.generateSchedule tz c2 e date.
Proof.
  intros workDay Hscore Hanchor.
  unfold ScheduleEngine.generateSchedule, ScheduleEngine.scheduleTasks.
  fold workDay. rewrite Hanchor.
  replace (ScheduleEngine.prioritizeTasks e (ScheduleEngine.nowRank c1))
    with (ScheduleEngine.prioritizeTasks e (ScheduleEngine.nowRank c2));
    [reflexivity|].
  unfold ScheduleEngine.prioritizeTasks. apply sort_ext.
  intros a b Ha Hb. now rewrite !Hscore.
Qed.

Definition twoTasks : ScheduleEngine.t :=
  ScheduleEngine.setTasks ScheduleEngine.init
    [sampleTask "a" 60 (at_ 11 0) high work;
     sampleTask "b" 30 (at_ 72 0) low leisure].

Lemma C3_witness :
  ScheduleEngine.generateSchedule 0 (ScheduleEngine.mkClock (at_ 1 0) (at_ 2 0))
    twoTasks 0
  = ScheduleEngine.generateSchedule 0 (ScheduleEngine.mkClock (at_ 3 0) (at_ 18 0))
      twoTasks 0.
Proof.
  apply (C3_same_schedule_for_equivalent_clocks 0 twoTasks 0
           (ScheduleEngine.mkClock (at_ 1 0) (at_ 2 0))
           (ScheduleEngine.mkClock (at_ 3 0) (at_ 18 0))).
  - intros tk [<-|[<-|[]]]; vm_compute; reflexivity.
  - vm_compute; reflexivity.
Defined.

(** C3 as stated fails: the same tasks, rules, configuration and date give
    one schedule when the clock reads 1:00 and another when it reads 10:02,
    because the tasks are anchored at the current time inside working
    hours. *)
Lemma C3_counterexample :
  map blockSpan
    (snd (ScheduleEngine.generateSchedule 0
            (ScheduleEngine.mkClock (at_ 1 0) (at_ 1 0)) twoTasks 0))
    = [(task, at_ 9 0, at_ 10 0); (task, at_ 10 0, at_ 10 30)]
  /\ map blockSpan
       (snd (ScheduleEngine.generateSchedule 0
               (ScheduleEngine.mkClock (at_ 10 2) (at_ 10 2)) twoTasks 0))
     = [(task, at_ 10 5, at_ 11 5); (task, at_ 11 5, at_ 11 35)]
  /\ snd (ScheduleEngine.generateSchedule 0
            (ScheduleEngine.mkClock (at_ 1 0) (at_ 1 0)) twoTasks 0)
     <> snd (ScheduleEngine.generateSchedule 0
               (ScheduleEngine.mkClock (at_ 10 2) (at_ 10 2)) twoTasks 0).
Proof.
  split; [vm_compute; reflexivity|].
  split; [vm_compute; reflexivity|].
  intros H. apply (f_equal (map blockSpan)) in H. vm_compute in H.
  discriminate H.
Qed.

(** ** C8: deleting one instance of a recurring rule *)

Definition standup : UnavailableBlock.t :=
  {| UnavailableBlock.id := "123e4567-e89b-12d3-a456-426614174000";
     UnavailableBlock.startTime := at_ 12 0;
     UnavailableBlock.endTime := at_ 13 0;
     UnavailableBlock.title := "Stand-up";
     UnavailableBlock.description := None;
     UnavailableBlock.recurring :=
       Some {| Recurring.type := weekly; Recurring.days := Some [4] |} |}.

(** C8.  A weekly rule whose identity is a UUID, as [crypto.randomUUID]
    makes them: its block on the first day (a Thursday) is deleted.
    [deleteTimeBlock] takes [blockId.split ('-') [1]] for the rule's
    identity, which is only the first group of the UUID; the suppression
    set of the day receives that, not the rule, and the regenerated
    schedule of the day still holds the block. *)
Theorem C8_deleted_instance_of_uuid_rule_stays :
  let clock := ScheduleEngine.mkClock 0 0 in
  let e0 := ScheduleEngine.setUnavailableBlocks ScheduleEngine.init [standup] in
  let generated := ScheduleEngine.generateSchedule 0 clock e0 0 in
  let blockId := "unavailable-123e4567-e89b-12d3-a456-426614174000-32400000" in
  let deleted := ScheduleEngine.deleteTimeBlock 0 clock (fst generated) blockId in
  map TimeBlock.id (snd generated) = [blockId]
  /\ elements (default ∅
       (ScheduleEngine.suppressedRecurringInstances (fst deleted) !! 0))
     = ["123e4567"]
  /\ map TimeBlock.id (snd deleted) = [blockId].
Proof.
  cbv zeta. repeat split; vm_compute; reflexivity.
Qed.

(** What the deletion does when the rule's identity holds no hyphen: the
    instance goes on the dates of its date key, and stays on the others. *)
Section SuppressionScope.
Import ScheduleEngine.

Fixpoint hyphenFree (s : string) : bool :=
  match s with
  | EmptyString => true
  | String c s' => negb (Ascii.eqb c "-"%char) && hyphenFree s'
  end.

Lemma split_first_piece s rest :
  hyphenFree s = true ->
  Js.split "-"%char (s +:+ String "-"%char rest) = s :: Js.split "-"%char rest.
Proof.
  induction s as [|c s IH]; intros H; simpl in *.
  - reflexivity.
  - apply andb_true_iff in H as [Hc Hs]. apply negb_true_iff in Hc.
    rewrite Hc, IH by exact Hs. reflexivity.
Qed.

Lemma split_unavailable rest :
  Js.split "-"%char ("unavailable-" +:+ rest)
  = "unavailable" :: Js.split "-"%char rest.
Proof. reflexivity. Qed.

Lemma recurringBlockId_hyphenFree ruleId n :
  hyphenFree ruleId = true ->
  default "" (Js.split "-"%char ("unavailable-" +:+ ruleId +:+ "-" +:+ Js.show n)
              !! 1%nat) = ruleId.
Proof.
  intros H. rewrite split_unavailable.
  change ("-" +:+ Js.show n) with (String "-"%char (Js.show n)).
  rewrite split_first_piece by exact H. reflexivity.
Qed.

Definition withoutRule (ruleId : string) (e : t) : t :=
  setUnavailableBlocks e
    (Js.filter (fun r => negb (String.eqb (UnavailableBlock.id r) ruleId))
       (unavailableBlocks e)).

Lemma fold_addRecurringBlock_suppressed tz workDay (suppressed : gset string) ruleId rules :
  forall sched,
    fold_left (addRecurringBlock tz workDay (suppressed ∪ {[ruleId]})) rules sched
    = fold_left (addRecurringBlock tz workDay suppressed)
        (Js.filter (fun r => negb (String.eqb (UnavailableBlock.id r) ruleId)) rules)
        sched.
Proof.
  induction rules as [|r rules IH]; intros sched; simpl; [reflexivity|].
  destruct (String.eqb_spec (UnavailableBlock.id r) ruleId) as [E|E]; simpl.
  - rewrite <- IH. f_equal. unfold addRecurringBlock.
    rewrite bool_decide_eq_true_2; [reflexivity|].
    apply elem_of_union_r, elem_of_singleton. exact E.
  - rewrite <- IH. f_equal. unfold addRecurringBlock.
    destruct (decide (UnavailableBlock.id r ∈ suppressed)) as [Hin|Hin].
    + rewrite !bool_decide_eq_true_2; [reflexivity|exact Hin|].
      apply elem_of_union_l. exact Hin.
    + rewrite !bool_decide_eq_false_2; [reflexivity|exact Hin|].
      rewrite elem_of_union, elem_of_singleton. tauto.
Qed.

Lemma startsWith_unavailable rest :
  Js.startsWith ("unavailable-" +:+ rest) "ad-hoc-" = false
  /\ Js.startsWith ("unavailable-" +:+ rest) "unavailable-" = true.
Proof. split; [reflexivity|]. destruct rest; reflexivity. Qed.

Lemma deleteTimeBlock_suppresses_on_its_date tz clock e ruleId n block :
  hyphenFree ruleId = true ->
  Js.find (hasId ("unavailable-" +:+ ruleId +:+ "-" +:+ Js.show n)) (schedule e)
    = Some block ->
  let deleted :=
    deleteTimeBlock tz clock e ("unavailable-" +:+ ruleId +:+ "-" +:+ Js.show n) in
  let day := TimeBlock.startTime block in
  snd deleted = snd (generateSchedule tz clock (withoutRule ruleId e) day)
  /\ (forall c date, getDateKey date = getDateKey day ->
        snd (generateSchedule tz c (fst deleted) date)
        = snd (generateSchedule tz c (withoutRule ruleId e) date))
  /\ (forall c date, getDateKey date <> getDateKey day ->
        snd (generateSchedule tz c (fst deleted) date)
        = snd (generateSchedule tz c e date)).
Proof.
  intros Hfree Hfind. cbv zeta. unfold deleteTimeBlock. rewrite Hfind.
  rewrite (recurringBlockId_hyphenFree ruleId n Hfree).
  destruct (startsWith_unavailable (ruleId +:+ "-" +:+ Js.show n)) as [-> ->].
  set (key := getDateKey (TimeBlock.startTime block)).
  set (suppressed := default ∅ (suppressedRecurringInstances e !! key)).
  assert (Hsame : forall c date, getDateKey date = key ->
            snd (generateSchedule tz c
                   (withSuppressed e
                      (<[key := suppressed ∪ {[ruleId]}]> (suppressedRecurringInstances e)))
                   date)
            = snd (generateSchedule tz c (withoutRule ruleId e) date)).
  { intros c date Hkey. unfold generateSchedule, addUnavailableBlocks, prioritizeTasks.
    cbn [snd config tasks unavailableBlocks adHocUnavailableByDate
         suppressedRecurringInstances withSuppressed withoutRule setUnavailableBlocks].
    rewrite Hkey, lookup_insert_eq. cbn [default]. unfold id.
    fold suppressed. now rewrite fold_addRecurringBlock_suppressed. }
  split; [|split].
  - now apply Hsame.
  - intros c date Hkey. unfold generateSchedule at 2. cbn [fst].
    rewrite <- (Hsame c date Hkey). reflexivity.
  - intros c date Hkey. unfold generateSchedule, addUnavailableBlocks, prioritizeTasks.
    cbn [fst snd config tasks unavailableBlocks adHocUnavailableByDate
         suppressedRecurringInstances withSuppressed withSchedule].
    rewrite lookup_insert_ne by congruence. reflexivity.
Qed.
End SuppressionScope.

(** ** C1: which blocks can overlap *)

Section Pairwise.
Context {A : Type} (R : A -> A -> Prop).

(** [R] holds from every element to every later one. *)
Fixpoint pairwise (l : list A) : Prop :=
  match l with
  | [] => True
  | x :: l' => List.Forall (R x) l' /\ pairwise l'
  end.

Lemma pairwise_app l1 l2 :
  pairwise (l1 ++ l2)
  <-> pairwise l1 /\ pairwise l2 /\ (forall x y, In x l1 -> In y l2 -> R x y).
Proof.
  induction l1 as [|a l1 IH]; simpl.
  - intuition.
  - rewrite IH, List.Forall_app, !List.Forall_forall. split.
    + intros [[H1 H2] [H3 [H4 H5]]]. repeat split; auto.
      intros x y [<-|Hx] Hy; auto.
    + intros [[H1 H2] [H3 H4]]. repeat split; auto.
Qed.

Lemma pairwise_snoc l x :
  pairwise l -> (forall y, In y l -> R y x) -> pairwise (l ++ [x]).
Proof.
  intros Hl Hx. apply pairwise_app. repeat split; [exact Hl|constructor|].
  intros a b Ha [<-|[]]. now apply Hx.
Qed.

Lemma pairwise_filter p l : pairwise l -> pairwise (List.filter p l).
Proof.
  induction l as [|a l IH]; simpl; [trivial|]. intros [H1 H2].
  destruct (p a); simpl; [split|]; auto.
  apply List.Forall_forall. intros y Hy. apply List.filter_In in Hy as [Hy _].
  revert y Hy. now apply List.Forall_forall.
Qed.

Hypothesis R_sym : forall a b, R a b -> R b a.

Lemma pairwise_Permutation l l' : Permutation l l' -> pairwise l -> pairwise l'.
Proof.
  induction 1 as [|x l l' Hp IH|x y l|l l' l'' _ IH1 _ IH2]; simpl.
  - trivial.
  - intros [H1 H2]. split; [|auto].
    revert H1. apply Permutation_Forall. exact Hp.
  - intros [H1 [H2 H3]]. inversion H1 as [|? ? Hyx Hy]; subst.
    repeat split; auto.
  - auto.
Qed.

Lemma pairwise_lookup l :
  pairwise l ->
  forall (i j : nat) a b,
    i <> j -> l !! i = Some a -> l !! j = Some b -> R a b.
Proof.
  induction l as [|x l IH]; intros Hl i j a b Hij Hi Hj; [discriminate|].
  destruct Hl as [H1 H2]. rewrite List.Forall_forall in H1.
  destruct i as [|i], j as [|j]; simpl in Hi, Hj.
  - congruence.
  - injection Hi as <-. apply H1. apply list_elem_of_In.
    eapply list_elem_of_lookup_2. exact Hj.
  - injection Hj as <-. apply R_sym, H1. apply list_elem_of_In.
    eapply list_elem_of_lookup_2. exact Hi.
  - apply (IH H2 i j); auto.
Qed.
End Pairwise.

Lemma pairwise_impl {A} (R R' : A -> A -> Prop) l :
  (forall a b, In a l -> In b l -> R a b -> R' a b) ->
  pairwise R l -> pairwise R' l.
Proof.
  induction l as [|a l IH]; simpl; [trivial|]. intros H [H1 H2]. split.
  - apply List.Forall_forall. intros y Hy. apply H; auto.
    revert y Hy. now apply List.Forall_forall.
  - apply IH; auto.
Qed.

Lemma pairwise_conj {A} (R1 R2 : A -> A -> Prop) l :
  pairwise R1 l -> pairwise R2 l -> pairwise (fun a b => R1 a b /\ R2 a b) l.
Proof.
  induction l as [|a l IH]; simpl; [trivial|]. intros [H1 H2] [H3 H4].
  split; [|auto]. rewrite List.Forall_forall in *. auto.
Qed.

Lemma existsb_false_Forall {A} (p : A -> bool) l :
  existsb p l = false -> List.Forall (fun x => p x = false) l.
Proof.
  induction l as [|a l IH]; simpl; [constructor|].
  intros H. apply orb_false_iff in H as [H1 H2]. constructor; auto.
Qed.

(** Sorting by start time sorts. *)
Lemma insertBy_start_sorted x l :
  pairwise (fun a b => TimeBlock.startTime a <= TimeBlock.startTime b) l ->
  pairwise (fun a b => TimeBlock.startTime a <= TimeBlock.startTime b)
    (Js.insertBy byStartTime x l).
Proof.
  induction l as [|y l IH]; simpl; [auto|]. intros [H1 H2].
  unfold byStartTime at 1.
  destruct (Z.leb_spec (TimeBlock.startTime x - TimeBlock.startTime y) 0).
  - simpl. repeat split; auto. constructor; [lia|].
    rewrite List.Forall_forall in *. intros z Hz. specialize (H1 z Hz). lia.
  - simpl. split; [|auto].
    apply (Permutation_Forall (insertBy_Permutation byStartTime x l)).
    constructor; [lia|exact H1].
Qed.

Lemma sort_start_sorted l :
  pairwise (fun a b => TimeBlock.startTime a <= TimeBlock.startTime b)
    (Js.sort byStartTime l).
Proof.
  induction l as [|x l IH]; simpl; [trivial|]. now apply insertBy_start_sorted.
Qed.

Lemma timeSlotsOverlap_sym s1 e1 s2 e2 :
  timeSlotsOverlap s1 e1 s2 e2 = timeSlotsOverlap s2 e2 s1 e1.
Proof. unfold timeSlotsOverlap. apply andb_comm. Qed.

Lemma blocksOverlap_sym a b : blocksOverlap a b = blocksOverlap b a.
Proof. apply timeSlotsOverlap_sym. Qed.

Lemma timeSlotsOverlap_false s1 e1 s2 e2 :
  timeSlotsOverlap s1 e1 s2 e2 = false <-> e2 <= s1 \/ e1 <= s2.
Proof.
  unfold timeSlotsOverlap. rewrite andb_false_iff, !Z.ltb_ge. tauto.
Qed.

(** Two blocks the engine lets overlap: a break and an unavailable block. *)
Definition breakOnUnavailable (a b : TimeBlock.t) : Prop :=
  (TimeBlock.type a = break /\ TimeBlock.type b = unavailable)
  \/ (TimeBlock.type a = unavailable /\ TimeBlock.type b = break).

Definition compatible (a b : TimeBlock.t) : Prop :=
  blocksOverlap a b = true -> breakOnUnavailable a b.

Lemma compatible_sym a b : compatible a b -> compatible b a.
Proof.
  unfold compatible, breakOnUnavailable. rewrite (blocksOverlap_sym b a). tauto.
Qed.

Lemma disjoint_compatible a b : blocksOverlap a b = false -> compatible a b.
Proof. unfold compatible. congruence. Qed.

(** In a schedule without conflict, two blocks at different places overlap
    only if one is a break and the other an unavailable block. *)
Definition conflictFree (S : list TimeBlock.t) : Prop :=
  forall (i j : nat) a b,
    i <> j -> S !! i = Some a -> S !! j = Some b ->
    blocksOverlap a b = true -> breakOnUnavailable a b.

Lemma pairwise_conflictFree S : pairwise compatible S -> conflictFree S.
Proof.
  intros H i j a b Hij Hi Hj.
  exact (pairwise_lookup compatible compatible_sym S H i j a b Hij Hi Hj).
Qed.

(** A block is sound when it has a positive length, unless it is a break,
    and the task it carries has a positive duration. *)
Definition blockOk (b : TimeBlock.t) : Prop :=
  (TimeBlock.type b <> break -> TimeBlock.startTime b < TimeBlock.endTime b)
  /\ (forall tk, TimeBlock.task b = Some tk -> 0 < Task.duration tk).

Section Allocation.
Import ScheduleEngine.

(** Blocks in a row, each ending before the next starts. *)
Definition inRow (l : list TimeBlock.t) : Prop :=
  pairwise (fun a b => TimeBlock.endTime a <= TimeBlock.startTime b) l.

Lemma sorted_disjoint_inRow l :
  pairwise (fun a b => TimeBlock.startTime a <= TimeBlock.startTime b) l ->
  pairwise (fun a b => blocksOverlap a b = false) l ->
  List.Forall (fun b => TimeBlock.startTime b < TimeBlock.endTime b) l ->
  inRow l.
Proof.
  intros Hs Hd Hwf. unfold inRow.
  apply (pairwise_impl _ _ l) with (2 := pairwise_conj _ _ l Hs Hd).
  intros a b Ha Hb [Hab Hdis]. rewrite List.Forall_forall in Hwf.
  pose proof (Hwf a Ha). pose proof (Hwf b Hb).
  apply timeSlotsOverlap_false in Hdis. lia.
Qed.

(** The slot found after the conflicts is clear of every block of the
    row, and not before the place the search started from. *)
Lemma slotAfterConflicts_free durationMs endOfDay l :
  forall nextStart s e,
    inRow l ->
    List.Forall (fun b => TimeBlock.startTime b < TimeBlock.endTime b) l ->
    List.Forall (fun b => nextStart < TimeBlock.endTime b) l ->
    slotAfterConflicts l nextStart durationMs endOfDay = Some (s, e) ->
    nextStart <= s
    /\ List.Forall (fun b => timeSlotsOverlap s e
                      (TimeBlock.startTime b) (TimeBlock.endTime b) = false) l.
Proof.
  induction l as [|b l IH]; intros nextStart s e Hrow Hwf Hafter H; simpl in H.
  - destruct (_ <=? _); [|discriminate]. injection H as <- <-.
    split; [lia|constructor].
  - destruct Hrow as [Hb Hrow].
    inversion Hwf as [|? ? Hwb Hwl]; subst.
    inversion Hafter as [|? ? Hab Hal]; subst.
    rewrite List.Forall_forall in Hb, Hwl.
    destruct (Z.leb_spec (nextStart + durationMs) (TimeBlock.startTime b)).
    + injection H as <- <-. split; [lia|]. constructor.
      * apply timeSlotsOverlap_false. lia.
      * apply List.Forall_forall. intros c Hc.
        apply timeSlotsOverlap_false.
        specialize (Hb c Hc). specialize (Hwl c Hc). lia.
    + apply IH in H as [Hs Hfree]; auto.
      * split; [lia|]. constructor; [|exact Hfree].
        apply timeSlotsOverlap_false. lia.
      * apply List.Forall_forall; exact Hwl.
      * apply List.Forall_forall. intros c Hc.
        specialize (Hb c Hc). specialize (Hwl c Hc). lia.
Qed.

(** What the loop of [scheduleTasks] keeps true of the schedule and of
    [currentTime]. *)
Definition placedBefore (cur : Z) (sched : list TimeBlock.t) : Prop :=
  pairwise compatible sched
  /\ List.Forall blockOk sched
  /\ List.Forall (fun b => TimeBlock.type b <> unavailable ->
                           TimeBlock.endTime b <= cur) sched.

Lemma findAvailableSlot_free sched cur duration endOfDay s e :
  placedBefore cur sched ->
  findAvailableSlot sched cur duration endOfDay = Some (s, e) ->
  cur <= s
  /\ e = s + duration * Js.MS_PER_MINUTE
  /\ List.Forall (fun b => timeSlotsOverlap s e
                     (TimeBlock.startTime b) (TimeBlock.endTime b) = false) sched.
Proof.
  intros (Hpw & Hok & Hcur) H.
  pose proof (engine_slot_length _ _ _ _ _ _ H) as He.
  unfold findAvailableSlot in H.
  destruct (_ <? _); [discriminate|].
  destruct (existsb _ sched) eqn:Ex; simpl in H.
  - (* the search after the conflicts *)
    set (later := List.filter (fun b => cur <? TimeBlock.endTime b) sched) in H.
    assert (Hlater : forall b, In b later ->
               In b sched /\ cur < TimeBlock.endTime b
               /\ TimeBlock.type b = unavailable
               /\ TimeBlock.startTime b < TimeBlock.endTime b).
    { intros b Hb. apply List.filter_In in Hb as [Hb Hlt].
      apply Z.ltb_lt in Hlt. rewrite List.Forall_forall in Hcur, Hok.
      assert (TimeBlock.type b = unavailable).
      { destruct (decide (TimeBlock.type b = unavailable)); [trivial|].
        specialize (Hcur b Hb n). lia. }
      repeat split; auto. apply (Hok b Hb). congruence. }
    assert (Hsorted : forall b, In b (Js.sort byStartTime later) -> In b later)
      by (intros b; apply sort_In).
    apply slotAfterConflicts_free in H as [Hs Hfree].
    + repeat split; auto. apply List.Forall_forall. intros b Hb.
      destruct (Z.ltb_spec cur (TimeBlock.endTime b)).
      * rewrite List.Forall_forall in Hfree. apply Hfree, sort_In.
        apply List.filter_In. split; [exact Hb|]. now apply Z.ltb_lt.
      * apply timeSlotsOverlap_false. lia.
    + apply sorted_disjoint_inRow.
      * apply sort_start_sorted.
      * apply (pairwise_Permutation _) with (l := later).
        -- intros a b. now rewrite blocksOverlap_sym.
        -- apply sort_Permutation.
        -- apply (pairwise_impl compatible); [|now apply pairwise_filter].
           intros a b Ha Hb Hab.
           destruct (blocksOverlap a b) eqn:E; [|reflexivity].
           destruct (Hlater a Ha) as (_ & _ & Hta & _).
           destruct (Hlater b Hb) as (_ & _ & Htb & _).
           destruct (Hab E) as [[? ?]|[? ?]]; congruence.
      * apply List.Forall_forall. intros b Hb. now apply Hlater, Hsorted.
    + apply List.Forall_forall. intros b Hb. now apply Hlater, Hsorted.
    + apply List.Forall_forall. intros b Hb. now apply Hlater, Hsorted.
  - injection H as <- <-. repeat split; [lia|].
    now apply existsb_false_Forall in Ex.
Qed.
End Allocation.

Section EngineInvariant.
Import ScheduleEngine.

(** Break lengths are not negative. *)
Definition configOk (cfg : ScheduleEngineConfig) : Prop :=
  0 <= shortBreakDuration cfg /\ 0 <= longBreakDuration cfg.

Definition tasksOk (ts : list Task.t) : Prop :=
  List.Forall (fun tk => 0 < Task.duration tk) ts.

(** The engine is sound when its configuration and tasks are, and its
    schedule holds sound blocks without conflict. *)
Definition engineOk (e : t) : Prop :=
  configOk (config e) /\ tasksOk (tasks e)
  /\ pairwise compatible (schedule e) /\ List.Forall blockOk (schedule e).

(** The unavailable blocks a day starts from. *)
Definition dayBlocks (tz : Z) (e : t) (date : Z) : list TimeBlock.t :=
  addUnavailableBlocks tz e (createWorkDay tz (config e) date) (getDateKey date) [].

(** They fit when they are unavailable blocks of positive length, no two
    of which overlap. *)
Definition rulesFit (blocks : list TimeBlock.t) : Prop :=
  List.Forall (fun b => TimeBlock.type b = unavailable /\ blockOk b) blocks
  /\ pairwise (fun a b => blocksOverlap a b = false) blocks.

Lemma rulesFit_placedBefore cur blocks : rulesFit blocks -> placedBefore cur blocks.
Proof.
  intros [Hu Hd]. rewrite List.Forall_forall in Hu. repeat split.
  - apply (pairwise_impl _ _ blocks) with (2 := Hd).
    intros a b _ _. apply disjoint_compatible.
  - apply List.Forall_forall. intros b Hb. now apply Hu.
  - apply List.Forall_forall. intros b Hb Hn. now destruct (Hu b Hb).
Qed.

Lemma placedBefore_break cfg workEnd sched cur work sched1 cur1 work1 :
  configOk cfg -> placedBefore cur sched ->
  breakBeforeTask cfg workEnd sched cur work = (sched1, cur1, work1) ->
  placedBefore cur1 sched1.
Proof.
  intros [Hshort Hlong] Hp. unfold breakBeforeTask.
  destruct (_ <=? _); [|now intros [= <- <- <-]].
  set (breakDuration := if longBreakThreshold cfg <=? work
                        then longBreakDuration cfg else shortBreakDuration cfg).
  assert (0 <= breakDuration) by (subst breakDuration; destruct (_ <=? _); lia).
  clearbody breakDuration.
  destruct (_ <=? _); [|now intros [= <- <- <-]].
  intros [= <- <- <-]. destruct Hp as (Hpw & Hok & Hcur).
  rewrite List.Forall_forall in Hcur. unfold Js.push, Js.MS_PER_MINUTE.
  repeat split.
  - apply pairwise_snoc; [exact Hpw|]. intros y Hy Hov.
    destruct (decide (TimeBlock.type y = unavailable)) as [Hu|Hu];
      [right; now split|].
    specialize (Hcur y Hy Hu). unfold blocksOverlap in Hov. simpl in Hov.
    assert (timeSlotsOverlap (TimeBlock.startTime y) (TimeBlock.endTime y)
              cur (cur + breakDuration * 60000) = false)
      by (apply timeSlotsOverlap_false; lia).
    congruence.
  - apply List.Forall_app. split; [exact Hok|]. constructor; [|constructor].
    split; simpl; [congruence|discriminate].
  - apply List.Forall_app. split.
    + apply List.Forall_forall. intros y Hy Hu. specialize (Hcur y Hy Hu). lia.
    + constructor; [|constructor]. simpl. lia.
Qed.

Lemma placedBefore_task sched cur tk endOfDay s e :
  placedBefore cur sched -> 0 < Task.duration tk ->
  findAvailableSlot sched cur (Task.duration tk) endOfDay = Some (s, e) ->
  placedBefore e (Js.push sched (taskBlock tk s e)).
Proof.
  intros Hp Hd H.
  destruct (findAvailableSlot_free _ _ _ _ _ _ Hp H) as (Hs & He & Hfree).
  destruct Hp as (Hpw & Hok & Hcur).
  rewrite List.Forall_forall in Hcur, Hfree.
  unfold Js.push, Js.MS_PER_MINUTE in *. repeat split.
  - apply pairwise_snoc; [exact Hpw|]. intros y Hy.
    apply disjoint_compatible. rewrite blocksOverlap_sym. now apply Hfree.
  - apply List.Forall_app. split; [exact Hok|]. constructor; [|constructor].
    split; simpl; [lia|]. now intros ? [= <-].
  - apply List.Forall_app. split.
    + apply List.Forall_forall. intros y Hy Hu. specialize (Hcur y Hy Hu). lia.
    + constructor; [|constructor]. simpl. lia.
Qed.

Lemma scheduleLoop_placed cfg workEnd ts :
  configOk cfg -> tasksOk ts ->
  forall sched cur work,
    placedBefore cur sched ->
    exists cur', placedBefore cur' (scheduleLoop cfg workEnd ts sched cur work).
Proof.
  intros Hcfg. induction ts as [|tk ts IH]; intros Hts sched cur work Hp; simpl.
  - eauto.
  - inversion Hts as [|? ? Hd Hts']; subst.
    destruct (breakBeforeTask cfg workEnd sched cur work)
      as [[sched1 cur1] work1] eqn:Eb.
    pose proof (placedBefore_break _ _ _ _ _ _ _ _ Hcfg Hp Eb) as Hp1.
    destruct (findAvailableSlot sched1 cur1 (Task.duration tk) workEnd)
      as [[s e]|] eqn:Es; [|eauto].
    pose proof (placedBefore_task _ _ _ _ _ _ Hp1 Hd Es) as Hp2.
    destruct (_ <=? _); eauto.
Qed.

Lemma generateSchedule_ok tz clock e date :
  configOk (config e) -> tasksOk (tasks e) ->
  rulesFit (dayBlocks tz e date) ->
  engineOk (fst (generateSchedule tz clock e date))
  /\ pairwise compatible (snd (generateSchedule tz clock e date)).
Proof.
  intros Hcfg Hts Hfit. unfold generateSchedule, scheduleTasks. cbn [fst snd].
  fold (dayBlocks tz e date).
  set (ts := prioritizeTasks e (nowRank clock)).
  assert (Hts' : tasksOk ts).
  { unfold tasksOk, ts, prioritizeTasks.
    eapply Permutation_Forall; [apply sort_Permutation|exact Hts]. }
  set (workDay := createWorkDay tz (config e) date).
  destruct (scheduleLoop_placed (config e) (snd workDay) ts Hcfg Hts'
              (dayBlocks tz e date) (startFrom workDay (nowStart clock)) 0
              (rulesFit_placedBefore _ _ Hfit)) as (cur' & Hpw & Hok & _).
  split.
  - unfold engineOk. cbn [config tasks schedule withSchedule]. auto.
  - apply (pairwise_Permutation _ compatible_sym) with (2 := Hpw).
    apply sort_Permutation.
Qed.
End EngineInvariant.

Section BreakRegeneration.
Import ScheduleEngine.

(** The breaks [regenerateBreaks] pushes, in order. *)
Fixpoint newBreaks (cfg : ScheduleEngineConfig) (taskBlocks : list TimeBlock.t)
    : list TimeBlock.t :=
  match taskBlocks with
  | [] => []
  | currentTask :: rest =>
      match rest with
      | [] => []
      | nextTask :: _ =>
          option_list (breakAfter cfg currentTask nextTask) ++ newBreaks cfg rest
      end
  end.

Lemma breaksBetween_newBreaks cfg taskBlocks :
  forall sched, breaksBetween cfg taskBlocks sched = sched ++ newBreaks cfg taskBlocks.
Proof.
  induction taskBlocks as [|c rest IH]; intros sched; simpl.
  - now rewrite app_nil_r.
  - destruct rest as [|n rest']; [now rewrite app_nil_r|].
    rewrite IH. destruct (breakAfter cfg c n); simpl.
    + unfold Js.push. now rewrite <- app_assoc.
    + reflexivity.
Qed.

Lemma breakAfter_span cfg c n b :
  configOk cfg -> breakAfter cfg c n = Some b ->
  TimeBlock.type b = break /\ TimeBlock.task b = None
  /\ TimeBlock.startTime b = TimeBlock.endTime c
  /\ TimeBlock.startTime b <= TimeBlock.endTime b
  /\ TimeBlock.endTime b <= TimeBlock.startTime n.
Proof.
  intros [Hshort Hlong]. unfold breakAfter, Js.MS_PER_MINUTE.
  destruct (Z.leb_spec (shortBreakDuration cfg * 60000)
              (TimeBlock.startTime n - TimeBlock.endTime c)); [|discriminate].
  destruct (60 <=? _); [|discriminate]. cbn [andb].
  intros [= <-]. simpl. repeat split; try reflexivity;
    destruct (_ <=? _); lia.
Qed.

Lemma newBreaks_clear cfg taskBlocks :
  configOk cfg -> inRow taskBlocks ->
  List.Forall (fun b => TimeBlock.startTime b < TimeBlock.endTime b) taskBlocks ->
  List.Forall (fun b =>
      TimeBlock.type b = break /\ TimeBlock.task b = None
      /\ (forall h, head taskBlocks = Some h ->
            TimeBlock.endTime h <= TimeBlock.startTime b)
      /\ TimeBlock.startTime b <= TimeBlock.endTime b
      /\ List.Forall (fun t => blocksOverlap t b = false) taskBlocks)
    (newBreaks cfg taskBlocks)
  /\ pairwise (fun a b => blocksOverlap a b = false) (newBreaks cfg taskBlocks).
Proof.
  intros Hcfg. induction taskBlocks as [|c rest IH]; intros Hrow Hwf; simpl.
  - split; [constructor|exact I].
  - destruct rest as [|n rest']; [split; [constructor|exact I]|].
    destruct Hrow as [Hc Hrow].
    inversion Hwf as [|? ? Hwc Hwrest]; subst.
    destruct (IH Hrow Hwrest) as [IH1 IH2]. clear IH.
    inversion Hc as [|? ? Hcn Hcrest]; subst.
    inversion Hwrest as [|? ? Hwn Hwrest']; subst.
    destruct Hrow as [Hn _].
    rewrite List.Forall_forall in IH1, Hcrest, Hn, Hwrest'.
    assert (Hlater : forall b, In b (newBreaks cfg (n :: rest')) ->
              TimeBlock.endTime n <= TimeBlock.startTime b).
    { intros b Hb. now apply (IH1 b Hb). }
    assert (Hfirst : forall b, breakAfter cfg c n = Some b ->
              TimeBlock.type b = break /\ TimeBlock.task b = None
              /\ TimeBlock.startTime b = TimeBlock.endTime c
              /\ TimeBlock.startTime b <= TimeBlock.endTime b
              /\ TimeBlock.endTime b <= TimeBlock.startTime n)
      by (intros b; now apply breakAfter_span).
    split.
    + apply List.Forall_app. split.
      * destruct (breakAfter cfg c n) as [b|]; [|constructor].
        destruct (Hfirst b eq_refl) as (Ht & Hk & Hs & Hse & He).
        constructor; [|constructor]. repeat split; auto.
        -- intros h [= <-]. lia.
        -- constructor; [apply timeSlotsOverlap_false; lia|].
           constructor; [apply timeSlotsOverlap_false; lia|].
           apply List.Forall_forall. intros t Ht'.
           apply timeSlotsOverlap_false. specialize (Hn t Ht'). lia.
      * apply List.Forall_forall. intros b Hb.
        destruct (IH1 b Hb) as (Ht & Hk & Hh & Hse & Hclear).
        specialize (Hh n eq_refl). repeat split; auto.
        -- intros h [= <-]. lia.
        -- constructor; [apply timeSlotsOverlap_false; lia|exact Hclear].
    + apply pairwise_app. repeat split; [|exact IH2|].
      * destruct (breakAfter cfg c n); simpl; auto.
      * intros x y Hx Hy. destruct (breakAfter cfg c n) as [b|]; [|destruct Hx].
        destruct Hx as [<-|[]].
        destruct (Hfirst b eq_refl) as (_ & _ & _ & _ & He).
        specialize (Hlater y Hy). apply timeSlotsOverlap_false. lia.
Qed.

Lemma regenerateBreaks_ok cfg sched :
  configOk cfg -> pairwise compatible sched -> List.Forall blockOk sched ->
  pairwise compatible (regenerateBreaks cfg sched)
  /\ List.Forall blockOk (regenerateBreaks cfg sched).
Proof.
  intros Hcfg Hpw Hok. unfold regenerateBreaks.
  rewrite breaksBetween_newBreaks.
  set (kept := List.filter (fun b => negb (isType break b)) sched).
  set (taskBlocks := Js.sort byStartTime (List.filter (isType task) kept)).
  assert (Hkept : forall b, In b kept -> In b sched /\ TimeBlock.type b <> break).
  { intros b Hb. apply List.filter_In in Hb as [Hb Ht]. split; [exact Hb|].
    unfold isType in Ht. apply negb_true_iff, bool_decide_eq_false in Ht.
    exact Ht. }
  assert (Htasks : forall b, In b taskBlocks <->
              In b kept /\ TimeBlock.type b = task).
  { intros b. unfold taskBlocks. rewrite sort_In, List.filter_In.
    unfold isType. now rewrite bool_decide_eq_true. }
  assert (Hpwk : pairwise compatible kept) by now apply pairwise_filter.
  rewrite List.Forall_forall in Hok.
  destruct (newBreaks_clear cfg taskBlocks Hcfg) as [Hnew Hdis].
  { apply sorted_disjoint_inRow.
    - apply sort_start_sorted.
    - apply (pairwise_Permutation _) with (l := List.filter (isType task) kept).
      + intros a b. now rewrite blocksOverlap_sym.
      + apply sort_Permutation.
      + apply (pairwise_impl compatible); [|now apply pairwise_filter].
        intros a b Ha Hb Hab.
        destruct (blocksOverlap a b) eqn:E; [|reflexivity].
        apply List.filter_In in Ha as [_ Ha], Hb as [_ Hb].
        unfold isType in Ha, Hb. apply bool_decide_eq_true in Ha, Hb.
        destruct (Hab E) as [[? ?]|[? ?]]; congruence.
    - apply List.Forall_forall. intros b Hb. apply Htasks in Hb as [Hb Ht].
      apply Hkept in Hb as [Hb _]. apply (Hok b Hb). congruence. }
  { apply List.Forall_forall. intros b Hb. apply Htasks in Hb as [Hb Ht].
    apply Hkept in Hb as [Hb _]. apply (Hok b Hb). congruence. }
  rewrite List.Forall_forall in Hnew. split.
  - apply pairwise_app. repeat split; [exact Hpwk| |].
    + apply (pairwise_impl _ _ _) with (2 := Hdis).
      intros a b _ _. apply disjoint_compatible.
    + intros x y Hx Hy.
      destruct (Hnew y Hy) as (Hty & _ & _ & _ & Hclear).
      destruct (Hkept x Hx) as [Hxs Hxt].
      destruct (TimeBlock.type x) eqn:Etx; [|congruence|].
      * apply disjoint_compatible. rewrite List.Forall_forall in Hclear.
        apply Hclear, Htasks. now split.
      * intros _. right. now split.
  - apply List.Forall_app. split; apply List.Forall_forall; intros b Hb.
    + apply Hok. now apply Hkept.
    + destruct (Hnew b Hb) as (Hty & Hk & _). split; [congruence|].
      rewrite Hk. discriminate.
Qed.
End BreakRegeneration.

Section EngineOperations.
Import ScheduleEngine.

(** What [isSlotAvailable] grants: the slot is clear of every block that
    does not carry the excluded task id. *)
Lemma isSlotAvailable_clear sched startTime endTime taskId b :
  isSlotAvailable sched startTime endTime taskId = true ->
  In b sched -> hasTaskId taskId b = false ->
  timeSlotsOverlap startTime endTime
    (TimeBlock.startTime b) (TimeBlock.endTime b) = false.
Proof.
  unfold isSlotAvailable. intros H Hb Hid.
  apply negb_true_iff, existsb_false_Forall in H.
  rewrite List.Forall_forall in H. specialize (H b Hb). cbv beta in H.
  rewrite Hid, andb_false_r in H. exact H.
Qed.

Lemma rescheduleTask_ok e taskId newStartTime :
  engineOk e ->
  engineOk (fst (rescheduleTask e taskId newStartTime))
  /\ pairwise compatible (snd (rescheduleTask e taskId newStartTime)).
Proof.
  intros He. pose proof He as (Hcfg & Hts & Hpw & Hok).
  unfold rescheduleTask.
  destruct (List.find (hasTaskId taskId) (schedule e)) as [found|] eqn:Ef;
    [|now split].
  destruct (TimeBlock.task found) as [tk|] eqn:Etk; [|now split].
  destruct (isSlotAvailable _ _ _ _) eqn:Ea; [|now split].
  apply List.find_some in Ef as [Hfound _].
  assert (Hd : 0 < Task.duration tk).
  { rewrite List.Forall_forall in Hok. now apply (Hok found Hfound). }
  cbn [fst snd]. unfold engineOk. cbn [config tasks schedule withSchedule].
  destruct (regenerateBreaks_ok (config e)
              (Js.push (List.filter (fun b => negb (hasTaskId taskId b)) (schedule e))
                 (taskBlock tk newStartTime
                    (newStartTime + Task.duration tk * Js.MS_PER_MINUTE))))
    as [H1 H2]; auto.
  - apply pairwise_snoc; [now apply pairwise_filter|].
    intros y Hy. apply List.filter_In in Hy as [Hy Hid].
    apply negb_true_iff in Hid.
    apply disjoint_compatible. rewrite blocksOverlap_sym.
    exact (isSlotAvailable_clear _ _ _ _ _ Ea Hy Hid).
  - apply List.Forall_app. split.
    + apply List.Forall_forall. intros y Hy. apply List.filter_In in Hy as [Hy _].
      rewrite List.Forall_forall in Hok. now apply Hok.
    + constructor; [|constructor]. unfold Js.MS_PER_MINUTE.
      split; simpl; [lia|]. now intros ? [= <-].
Qed.

(** The four operations of the engine. *)
Inductive Operation :=
| Generate (date : Z)
| RescheduleTask (taskId : string) (newStartTime : Z)
| AddUnavailableTime (startTime endTime : Z) (title : string)
    (description : option string)
| DeleteTimeBlock (blockId : string).

Definition perform (tz : Z) (clock : Clock) (e : t) (op : Operation)
    : t * list TimeBlock.t :=
  match op with
  | Generate date => generateSchedule tz clock e date
  | RescheduleTask taskId newStartTime => rescheduleTask e taskId newStartTime
  | AddUnavailableTime startTime endTime title description =>
      addUnavailableTime tz clock e startTime endTime title description
  | DeleteTimeBlock blockId => deleteTimeBlock tz clock e blockId
  end.

(** The date an operation regenerates the schedule for, if it does. *)
Definition regenerated (e : t) (op : Operation) : option Z :=
  match op with
  | Generate date => Some date
  | RescheduleTask _ _ => None
  | AddUnavailableTime startTime _ _ _ => Some startTime
  | DeleteTimeBlock blockId =>
      match Js.find (hasId blockId) (schedule e) with
      | Some block =>
          if Js.startsWith blockId "ad-hoc-" || Js.startsWith blockId "unavailable-"
          then Some (TimeBlock.startTime block) else None
      | None => None
      end
  end.

Lemma deleteTimeBlock_ok tz clock e blockId :
  engineOk e ->
  (forall date, regenerated e (DeleteTimeBlock blockId) = Some date ->
     rulesFit (dayBlocks tz (fst (deleteTimeBlock tz clock e blockId)) date)) ->
  engineOk (fst (deleteTimeBlock tz clock e blockId))
  /\ pairwise compatible (snd (deleteTimeBlock tz clock e blockId)).
Proof.
  intros He. pose proof He as (Hcfg & Hts & Hpw & Hok).
  unfold regenerated, deleteTimeBlock.
  destruct (List.find (hasId blockId) (schedule e)) as [block|]; [|now split].
  destruct (Js.startsWith blockId "ad-hoc-").
  - intros Hfit. specialize (Hfit _ eq_refl).
    destruct (List.filter _ _); apply generateSchedule_ok; auto.
  - destruct (Js.startsWith blockId "unavailable-").
    + intros Hfit. specialize (Hfit _ eq_refl).
      apply generateSchedule_ok; auto.
    + intros _. cbn [fst snd]. unfold engineOk.
      cbn [config tasks schedule withSchedule].
      assert (Hf : pairwise compatible
                     (List.filter (fun b => negb (hasId blockId b)) (schedule e))
                   /\ List.Forall blockOk
                        (List.filter (fun b => negb (hasId blockId b)) (schedule e))).
      { split; [now apply pairwise_filter|].
        apply List.Forall_forall. intros y Hy. apply List.filter_In in Hy as [Hy _].
        rewrite List.Forall_forall in Hok. now apply Hok. }
      destruct Hf as [Hf1 Hf2].
      destruct (Js.startsWith blockId "task-"); [|auto].
      destruct (regenerateBreaks_ok (config e) _ Hcfg Hf1 Hf2); auto.
Qed.
End EngineOperations.

(** C1, as amended.  Take a sound engine (break lengths not negative, task
    durations positive, a schedule without conflict) and any of its four
    operations; when the operation regenerates a day, let the unavailable
    blocks of that day be of positive length and not overlap each other.
    Then the engine stays sound, and in the schedule returned two distinct
    blocks overlap (start of each before the end of the other) only if one
    is a break and the other an unavailable block. *)
Theorem C1_overlap_only_between_break_and_unavailable
    (tz : Z) (clock : ScheduleEngine.Clock) (e : ScheduleEngine.t) (op : Operation) :
  engineOk e ->
  (forall date, regenerated e op = Some date ->
     rulesFit (dayBlocks tz (fst (perform tz clock e op)) date)) ->
  engineOk (fst (perform tz clock e op))
  /\ conflictFree (snd (perform tz clock e op)).
Proof.
  intros He Hfit.
  cut (engineOk (fst (perform tz clock e op))
       /\ pairwise compatible (snd (perform tz clock e op))).
  { intros [H1 H2]. split; [exact H1|now apply pairwise_conflictFree]. }
  pose proof He as (Hcfg & Hts & Hpw & Hok).
  destruct op as [date|taskId newStartTime|startTime endTime title description|blockId];
    cbn [perform] in *.
  - apply generateSchedule_ok; auto. exact (Hfit date eq_refl).
  - now apply rescheduleTask_ok.
  - unfold ScheduleEngine.addUnavailableTime in *.
    apply generateSchedule_ok; auto. exact (Hfit startTime eq_refl).
  - now apply deleteTimeBlock_ok.
Qed.

Lemma init_engineOk : engineOk ScheduleEngine.init.
Proof. repeat split; simpl; try constructor; lia. Qed.

Definition dailyRule (id : string) (startTime endTime : Z) : UnavailableBlock.t :=
  {| UnavailableBlock.id := id;
     UnavailableBlock.startTime := startTime;
     UnavailableBlock.endTime := endTime;
     UnavailableBlock.title := id;
     UnavailableBlock.description := None;
     UnavailableBlock.recurring :=
       Some {| Recurring.type := daily; Recurring.days := None |} |}.

(** A long task, a short one, and a daily call from 10:30 to 11:00. *)
Definition busyMorning : ScheduleEngine.t :=
  ScheduleEngine.setUnavailableBlocks
    (ScheduleEngine.setTasks ScheduleEngine.init
       [sampleTask "a" 90 (at_ 11 0) high work;
        sampleTask "b" 30 (at_ 72 0) low leisure])
    [dailyRule "call" (at_ 10 30) (at_ 11 0)].

(** [rulesFit], decided. *)
Definition blockOkb (b : TimeBlock.t) : bool :=
  (isType break b || (TimeBlock.startTime b <? TimeBlock.endTime b))
  && match TimeBlock.task b with
     | Some tk => 0 <? Task.duration tk
     | None => true
     end.

Fixpoint pairwiseb {A} (r : A -> A -> bool) (l : list A) : bool :=
  match l with
  | [] => true
  | x :: l' => forallb (r x) l' && pairwiseb r l'
  end.

Definition rulesFitb (blocks : list TimeBlock.t) : bool :=
  forallb (fun b => isType unavailable b && blockOkb b) blocks
  && pairwiseb (fun a b => negb (blocksOverlap a b)) blocks.

Lemma blockOkb_sound b : blockOkb b = true -> blockOk b.
Proof.
  unfold blockOkb, blockOk, isType. intros H.
  apply andb_true_iff in H as [H1 H2]. split.
  - intros Hn. apply orb_true_iff in H1 as [H1|H1].
    + now apply bool_decide_eq_true in H1.
    + now apply Z.ltb_lt.
  - intros tk Htk. rewrite Htk in H2. now apply Z.ltb_lt.
Qed.

Lemma pairwiseb_sound {A} (r : A -> A -> bool) l :
  pairwiseb r l = true -> pairwise (fun a b => r a b = true) l.
Proof.
  induction l as [|x l IH]; simpl; [trivial|]. intros H.
  apply andb_true_iff in H as [H1 H2]. split; [|auto].
  apply List.Forall_forall. intros y Hy.
  rewrite List.forallb_forall in H1. now apply H1.
Qed.

Lemma rulesFitb_sound blocks : rulesFitb blocks = true -> rulesFit blocks.
Proof.
  unfold rulesFitb, rulesFit. intros H. apply andb_true_iff in H as [H1 H2]. split.
  - apply List.Forall_forall. intros b Hb.
    rewrite List.forallb_forall in H1. specialize (H1 b Hb).
    apply andb_true_iff in H1 as [Ht Hok]. split.
    + now apply bool_decide_eq_true in Ht.
    + now apply blockOkb_sound.
  - apply pairwiseb_sound in H2.
    apply (pairwise_impl _ _ _) with (2 := H2).
    intros a b _ _. now apply negb_true_iff.
Qed.

Lemma C1_witness :
  engineOk (fst (perform 0 (ScheduleEngine.mkClock 0 0) busyMorning (Generate 0)))
  /\ conflictFree
       (snd (perform 0 (ScheduleEngine.mkClock 0 0) busyMorning (Generate 0))).
Proof.
  apply (C1_overlap_only_between_break_and_unavailable 0
           (ScheduleEngine.mkClock 0 0) busyMorning (Generate 0)).
  - unfold engineOk. split; [|split; [|split]].
    + unfold configOk; simpl; lia.
    + unfold tasksOk; simpl. repeat constructor; simpl; lia.
    + simpl; exact I.
    + simpl; constructor.
  - intros date [= <-]. apply rulesFitb_sound. vm_compute. reflexivity.
Defined.

(** The schedule of [C1_witness] is one where the exception is used: the
    break after the long task lies on the daily call. *)
Lemma busyMorning_break_on_call :
  map blockSpan
    (snd (perform 0 (ScheduleEngine.mkClock 0 0) busyMorning (Generate 0)))
  = [(task, at_ 9 0, at_ 10 30); (unavailable, at_ 10 30, at_ 11 0);
     (break, at_ 10 30, at_ 10 45); (task, at_ 11 0, at_ 11 30)].
Proof. vm_compute; reflexivity. Qed.

(** The invariant as the specification words it: no two blocks at
    different places overlap. *)
Definition noOverlap (S : list TimeBlock.t) : Prop :=
  forall (i j : nat) a b,
    i <> j -> S !! i = Some a -> S !! j = Some b -> blocksOverlap a b = false.

Lemma overlapping_spans_refute_noOverlap S (i j : nat) ki si ei kj sj ej :
  i <> j ->
  map blockSpan S !! i = Some (ki, si, ei) ->
  map blockSpan S !! j = Some (kj, sj, ej) ->
  timeSlotsOverlap si ei sj ej = true ->
  ~ noOverlap S.
Proof.
  intros Hij Hi Hj Hov H.
  rewrite list_lookup_fmap in Hi, Hj.
  destruct (S !! i) as [a|] eqn:Ea; [|discriminate].
  destruct (S !! j) as [b|] eqn:Eb; [|discriminate].
  specialize (H i j a b Hij Ea Eb).
  unfold blockSpan in Hi, Hj. simpl in Hi, Hj.
  injection Hi as _ <- <-. injection Hj as _ <- <-.
  unfold blocksOverlap in H. congruence.
Qed.

(** C1 as stated fails.  Two rules that overlap are both expanded, as they
    are: lunch 12:00-13:00 and a meeting 12:30-13:30 give two overlapping
    blocks in the generated schedule.  And the earlier engine's
    [addUnavailableTime] pushes its block over a task already placed. *)
Lemma C1_counterexample :
  ~ noOverlap
      (snd (ScheduleEngine.generateSchedule 0 (ScheduleEngine.mkClock 0 0)
              (ScheduleEngine.setUnavailableBlocks ScheduleEngine.init
                 [dailyRule "lunch" (at_ 12 0) (at_ 13 0);
                  dailyRule "meeting" (at_ 12 30) (at_ 13 30)]) 0))
  /\ ~ noOverlap
        (ScheduleEngineV1.addUnavailableTime
           [sampleBlock "task-a-32400000" task (at_ 9 0) (at_ 10 0)
              (Some (sampleTask "a" 60 (at_ 20 0) high work))]
           (at_ 9 30) (at_ 10 30) "Visit" None).
Proof.
  split.
  - apply (overlapping_spans_refute_noOverlap _ 0 1
             unavailable (at_ 12 0) (at_ 13 0)
             unavailable (at_ 12 30) (at_ 13 30));
      [lia | vm_compute; reflexivity | vm_compute; reflexivity | reflexivity].
  - apply (overlapping_spans_refute_noOverlap _ 0 1
             task (at_ 9 0) (at_ 10 0)
             unavailable (at_ 9 30) (at_ 10 30));
      [lia | vm_compute; reflexivity | vm_compute; reflexivity | reflexivity].
Qed.

(** ** C2: rescheduling onto a taken slot, and what rescheduling adds *)

Section RescheduleConflict.

(** [ScheduleEngine]: a slot that overlaps a block of another task, or of
    no task, is refused, and engine and schedule stay as they are. *)
Lemma engine_reschedule_conflict_is_noop
    (e : ScheduleEngine.t) taskId newStartTime found tk other :
  Js.find (hasTaskId taskId) (ScheduleEngine.schedule e) = Some found ->
  TimeBlock.task found = Some tk ->
  In other (ScheduleEngine.schedule e) ->
  TimeBlock.taskId other <> Some taskId ->
  timeSlotsOverlap newStartTime
    (newStartTime + Task.duration tk * Js.MS_PER_MINUTE)
    (TimeBlock.startTime other) (TimeBlock.endTime other) = true ->
  ScheduleEngine.rescheduleTask e taskId newStartTime
  = (e, ScheduleEngine.schedule e).
Proof.
  intros Hf Htk Hin Hid Hov. unfold ScheduleEngine.rescheduleTask.
  rewrite Hf, Htk.
  replace (ScheduleEngine.isSlotAvailable _ _ _ _) with false; [reflexivity|].
  symmetry. unfold ScheduleEngine.isSlotAvailable.
  apply negb_false_iff, List.existsb_exists. exists other. split; [exact Hin|].
  unfold hasTaskId. rewrite bool_decide_eq_false_2 by exact Hid.
  now rewrite andb_false_r.
Qed.

Import TimetableScheduler.

Lemma someFrom_true p (k : nat) l :
  someFrom p k l = true <->
  exists (i : nat) b, l !! i = Some b /\ p b (k + i)%nat = true.
Proof.
  revert k. induction l as [|x l IH]; intros k; simpl.
  - split; [discriminate|]. intros (i & b & H & _). discriminate.
  - rewrite orb_true_iff, IH. split.
    + intros [H|(i & b & Hi & Hp)].
      * exists O, x. rewrite Nat.add_0_r. now split.
      * exists (S i), b. rewrite Nat.add_succ_r. now split.
    + intros (i & b & Hi & Hp). destruct i as [|i]; simpl in Hi.
      * injection Hi as <-. rewrite Nat.add_0_r in Hp. now left.
      * right. exists i, b. rewrite Nat.add_succ_r in Hp. now split.
Qed.

Lemma slotsOverlap_timeSlotsOverlap s1 e1 s2 e2 :
  slotsOverlap s1 e1 s2 e2 = timeSlotsOverlap s1 e1 s2 e2.
Proof. unfold slotsOverlap, timeSlotsOverlap. now rewrite Z.gtb_ltb. Qed.

(** [TimetableScheduler]: a slot that overlaps a block at another index
    is refused, and the timetable comes back as it was. *)
Lemma timetable_reschedule_conflict_is_noop
    taskId newStartTime (S : list TimeBlock.t) (taskIndex j : nat) taskBlock other :
  Js.findIndex (hasTaskId taskId) S = Some taskIndex ->
  S !! taskIndex = Some taskBlock ->
  S !! j = Some other -> j <> taskIndex ->
  timeSlotsOverlap newStartTime
    (newStartTime + (TimeBlock.endTime taskBlock - TimeBlock.startTime taskBlock))
    (TimeBlock.startTime other) (TimeBlock.endTime other) = true ->
  rescheduleTask taskId newStartTime S = S.
Proof.
  intros Hf Hidx Hj Hne Hov. unfold rescheduleTask. rewrite Hf, Hidx.
  match goal with
  | |- (if negb ?c then _ else _) = _ =>
      replace c with true; [reflexivity|]
  end.
  symmetry. apply someFrom_true. exists j, other. split; [exact Hj|].
  simpl. rewrite slotsOverlap_timeSlotsOverlap, Hov.
  now apply Nat.eqb_neq in Hne as ->.
Qed.

(** [TimetableScheduler]: two blocks that overlap after a call already
    overlapped, at the same places, before it. *)
Lemma timetable_reschedule_adds_no_overlap
    taskId newStartTime (S : list TimeBlock.t) (i j : nat) a b :
  i <> j ->
  rescheduleTask taskId newStartTime S !! i = Some a ->
  rescheduleTask taskId newStartTime S !! j = Some b ->
  blocksOverlap a b = true ->
  exists a' b', S !! i = Some a' /\ S !! j = Some b'
                /\ blocksOverlap a' b' = true.
Proof.
  intros Hij. unfold rescheduleTask.
  destruct (Js.findIndex _ S) as [taskIndex|]; [|eauto].
  destruct (S !! taskIndex) as [taskBlock|] eqn:Eidx; [|eauto].
  match goal with
  | |- context [negb ?c] => destruct c eqn:Ec
  end; cbn [negb]; [eauto|].
  assert (Hclear : forall (k : nat) other, k <> taskIndex -> S !! k = Some other ->
            timeSlotsOverlap newStartTime
              (newStartTime + (TimeBlock.endTime taskBlock
                               - TimeBlock.startTime taskBlock))
              (TimeBlock.startTime other) (TimeBlock.endTime other) = false).
  { intros k other Hk Hother.
    destruct (timeSlotsOverlap _ _ _ _) eqn:E; [|reflexivity].
    assert (someFrom (fun block index =>
              negb (index =? taskIndex)%nat
              && slotsOverlap newStartTime
                   (newStartTime + (TimeBlock.endTime taskBlock
                                    - TimeBlock.startTime taskBlock))
                   (TimeBlock.startTime block) (TimeBlock.endTime block))
              O S = true); [|congruence].
    apply someFrom_true. exists k, other. split; [exact Hother|].
    simpl. rewrite slotsOverlap_timeSlotsOverlap, E.
    now apply Nat.eqb_neq in Hk as ->. }
  intros Ha Hb Hov.
  destruct (decide (i = taskIndex)) as [->|Hi];
    destruct (decide (j = taskIndex)) as [->|Hj]; [congruence| | |].
  - rewrite list_lookup_insert_eq in Ha by (eapply lookup_lt_Some; eauto).
    rewrite list_lookup_insert_ne in Hb by congruence.
    injection Ha as <-. unfold blocksOverlap in Hov. simpl in Hov.
    rewrite (Hclear j b) in Hov by auto. discriminate.
  - rewrite list_lookup_insert_eq in Hb by (eapply lookup_lt_Some; eauto).
    rewrite list_lookup_insert_ne in Ha by congruence.
    injection Hb as <-. rewrite blocksOverlap_sym in Hov.
    unfold blocksOverlap in Hov. simpl in Hov.
    rewrite (Hclear i a) in Hov by auto. discriminate.
  - rewrite list_lookup_insert_ne in Ha, Hb by congruence. eauto.
Qed.
End RescheduleConflict.

Lemma noOverlapb_sound S :
  pairwiseb (fun a b => negb (blocksOverlap a b)) S = true -> noOverlap S.
Proof.
  intros H i j a b Hij Hi Hj. apply pairwiseb_sound in H.
  apply negb_true_iff.
  apply (pairwise_lookup (fun a b => negb (blocksOverlap a b) = true))
    with (l := S) (i := i) (j := j); auto.
  intros x y. now rewrite blocksOverlap_sym.
Qed.

(** An hour of work, a daily call from 10:00 to 10:30, half an hour of
    leisure. *)
Definition callAtTen : ScheduleEngine.t :=
  ScheduleEngine.setUnavailableBlocks
    (ScheduleEngine.setTasks ScheduleEngine.init
       [sampleTask "a" 60 (at_ 11 0) high work;
        sampleTask "b" 30 (at_ 72 0) low leisure])
    [dailyRule "call" (at_ 10 0) (at_ 10 30)].

(** C2.  The engine generates the day of [callAtTen]: task a 9:00-10:00,
    the call, task b 10:30-11:00, and nothing overlaps.  Task b is then
    moved to 12:00, a free slot.  [regenerateBreaks] sees a gap after task
    a and pushes a break at 10:00-10:15, on the call: the returned
    schedule has an overlap the schedule before did not have. *)
Theorem C2_reschedule_puts_break_on_unavailable_block :
  let clock := ScheduleEngine.mkClock 0 0 in
  let generated := ScheduleEngine.generateSchedule 0 clock callAtTen 0 in
  let moved := ScheduleEngine.rescheduleTask (fst generated) "b" (at_ 12 0) in
  map blockSpan (ScheduleEngine.schedule (fst generated))
  = [(unavailable, at_ 10 0, at_ 10 30); (task, at_ 9 0, at_ 10 0);
     (task, at_ 10 30, at_ 11 0)]
  /\ noOverlap (ScheduleEngine.schedule (fst generated))
  /\ map blockSpan (snd moved)
     = [(unavailable, at_ 10 0, at_ 10 30); (task, at_ 9 0, at_ 10 0);
        (task, at_ 12 0, at_ 12 30); (break, at_ 10 0, at_ 10 15)]
  /\ ~ noOverlap (snd moved).
Proof.
  cbv zeta. split; [vm_compute; reflexivity|].
  split; [apply noOverlapb_sound; vm_compute; reflexivity|].
  split; [vm_compute; reflexivity|].
  apply (overlapping_spans_refute_noOverlap _ 0 3
           unavailable (at_ 10 0) (at_ 10 30) break (at_ 10 0) (at_ 10 15));
    [lia | vm_compute; reflexivity | vm_compute; reflexivity | reflexivity].
Qed.

(** * Further properties of the code *)

(** ** Ranking *)

Section RankByKey.
Context {A : Type} (key : A -> Z).

Definition byKeyDescending (a b : A) : Z := key b - key a.

Lemma insertBy_key_sorted x l :
  pairwise (fun a b => key b <= key a) l ->
  pairwise (fun a b => key b <= key a) (Js.insertBy byKeyDescending x l).
Proof.
  induction l as [|y l IH]; simpl; [auto|]. intros [H1 H2].
  unfold byKeyDescending at 1.
  destruct (Z.leb_spec (key y - key x) 0).
  - simpl. repeat split; auto. constructor; [lia|].
    rewrite List.Forall_forall in *. intros z Hz. specialize (H1 z Hz). lia.
  - simpl. split; [|auto].
    apply (Permutation_Forall (insertBy_Permutation byKeyDescending x l)).
    constructor; [lia|exact H1].
Qed.

Lemma sort_key_sorted l :
  pairwise (fun a b => key b <= key a) (Js.sort byKeyDescending l).
Proof.
  induction l as [|x l IH]; simpl; [trivial|]. now apply insertBy_key_sorted.
Qed.

(** An element goes in front of the elements that share its key. *)
Lemma insertBy_key_filter v x l :
  List.filter (fun t => key t =? v) (Js.insertBy byKeyDescending x l)
  = (if key x =? v then [x] else []) ++ List.filter (fun t => key t =? v) l.
Proof.
  induction l as [|y l IH]; simpl.
  - destruct (key x =? v); reflexivity.
  - unfold byKeyDescending at 1.
    destruct (Z.leb_spec (key y - key x) 0); simpl.
    + destruct (key x =? v); reflexivity.
    + rewrite IH.
      destruct (Z.eqb_spec (key x) v), (Z.eqb_spec (key y) v);
        try reflexivity. lia.
Qed.

Lemma sort_key_stable v l :
  List.filter (fun t => key t =? v) (Js.sort byKeyDescending l)
  = List.filter (fun t => key t =? v) l.
Proof.
  induction l as [|x l IH]; simpl; [reflexivity|].
  rewrite insertBy_key_filter, IH. destruct (key x =? v); reflexivity.
Qed.
End RankByKey.

(** X1.  [prioritizeTasks] returns the pending tasks, all of them and each
    once, by urgency score from the highest down; tasks with the same score
    stay in the order they were given in. *)
Theorem X1_prioritizeTasks_sorts_stably (e : ScheduleEngine.t) (now : Z) :
  Permutation (ScheduleEngine.tasks e) (ScheduleEngine.prioritizeTasks e now)
  /\ pairwise (fun a b => getUrgencyScore now b <= getUrgencyScore now a)
       (ScheduleEngine.prioritizeTasks e now)
  /\ forall score,
       List.filter (fun tk => getUrgencyScore now tk =? score)
         (ScheduleEngine.prioritizeTasks e now)
       = List.filter (fun tk => getUrgencyScore now tk =? score)
           (ScheduleEngine.tasks e).
Proof.
  unfold ScheduleEngine.prioritizeTasks. split; [apply sort_Permutation|].
  split.
  - apply (sort_key_sorted (getUrgencyScore now)).
  - intros score. apply (sort_key_stable (getUrgencyScore now)).
Qed.

(** ** The engine's search for a slot *)

Lemma slotAfterConflicts_skips_only_conflicts durationMs endOfDay l :
  forall nextStart t,
    nextStart <= t ->
    match ScheduleEngine.slotAfterConflicts l nextStart durationMs endOfDay with
    | Some (s, _) => t < s
    | None => t + durationMs <= endOfDay
    end ->
    exists b, In b l
      /\ timeSlotsOverlap t (t + durationMs)
           (TimeBlock.startTime b) (TimeBlock.endTime b) = true.
Proof.
  induction l as [|b l IH]; intros nextStart t Ht H; simpl in H.
  - destruct (Z.leb_spec (nextStart + durationMs) endOfDay); lia.
  - destruct (Z.leb_spec (nextStart + durationMs) (TimeBlock.startTime b));
      [lia|].
    destruct (Z.lt_ge_cases t (TimeBlock.endTime b)).
    + exists b. split; [now left|]. unfold timeSlotsOverlap.
      apply andb_true_iff. split; apply Z.ltb_lt; lia.
    + destruct (IH (TimeBlock.endTime b) t) as (c & Hc & Hov); auto.
      exists c. split; [now right|exact Hov].
Qed.

Lemma findAvailableSlot_skips_only_conflicts sched cur duration endOfDay t :
  cur <= t ->
  match ScheduleEngine.findAvailableSlot sched cur duration endOfDay with
  | Some (s, _) => t < s
  | None => t + duration * Js.MS_PER_MINUTE <= endOfDay
  end ->
  exists b, In b sched
    /\ timeSlotsOverlap t (t + duration * Js.MS_PER_MINUTE)
         (TimeBlock.startTime b) (TimeBlock.endTime b) = true.
Proof.
  intros Ht. unfold ScheduleEngine.findAvailableSlot.
  destruct (Z.ltb_spec endOfDay (cur + duration * Js.MS_PER_MINUTE)); [lia|].
  destruct (existsb _ sched); simpl; [|lia].
  intros Hres.
  destruct (slotAfterConflicts_skips_only_conflicts _ _ _ _ t Ht Hres)
    as (b & Hb & Hov).
  exists b. split; [|exact Hov].
  apply sort_In, List.filter_In in Hb. tauto.
Qed.

(** X2.  While the loop of [scheduleTasks] runs (unavailable blocks that do
    not overlap each other, everything else placed before [currentTime]),
    [findAvailableSlot] returns the earliest start from [currentTime] on at
    which the task overlaps no block: the slot it returns is clear of every
    block, and every earlier start would overlap one.  It returns [null]
    only when every start that would end by the end of the day overlaps a
    block. *)
Theorem X2_findAvailableSlot_earliest_clear_slot
    (sched : list TimeBlock.t) (cur duration endOfDay : Z) :
  placedBefore cur sched ->
  match ScheduleEngine.findAvailableSlot sched cur duration endOfDay with
  | Some (s, e) =>
      cur <= s /\ e = s + duration * Js.MS_PER_MINUTE
      /\ (forall b, In b sched ->
            timeSlotsOverlap s e (TimeBlock.startTime b) (TimeBlock.endTime b)
            = false)
      /\ (forall t, cur <= t < s ->
            exists b, In b sched
              /\ timeSlotsOverlap t (t + duration * Js.MS_PER_MINUTE)
                   (TimeBlock.startTime b) (TimeBlock.endTime b) = true)
  | None =>
      forall t, cur <= t -> t + duration * Js.MS_PER_MINUTE <= endOfDay ->
        exists b, In b sched
          /\ timeSlotsOverlap t (t + duration * Js.MS_PER_MINUTE)
               (TimeBlock.startTime b) (TimeBlock.endTime b) = true
  end.
Proof.
  intros Hp.
  pose proof (findAvailableSlot_skips_only_conflicts sched cur duration endOfDay)
    as Hskip.
  destruct (ScheduleEngine.findAvailableSlot sched cur duration endOfDay)
    as [[s e]|] eqn:E.
  - destruct (findAvailableSlot_free _ _ _ _ _ _ Hp E) as (Hs & He & Hfree).
    repeat split; auto.
    + now apply List.Forall_forall.
    + intros t [Ht1 Ht2]. now apply Hskip.
  - intros t Ht1 Ht2. now apply Hskip.
Qed.

Lemma X2_witness :
  match ScheduleEngine.findAvailableSlot
          [sampleBlock "call" unavailable (at_ 10 30) (at_ 11 0) None]
          (at_ 10 0) 60 (at_ 17 0) with
  | Some (s, e) =>
      at_ 10 0 <= s /\ e = s + 60 * Js.MS_PER_MINUTE
      /\ (forall b,
            In b [sampleBlock "call" unavailable (at_ 10 30) (at_ 11 0) None] ->
            timeSlotsOverlap s e (TimeBlock.startTime b) (TimeBlock.endTime b)
            = false)
      /\ (forall t, at_ 10 0 <= t < s ->
            exists b,
              In b [sampleBlock "call" unavailable (at_ 10 30) (at_ 11 0) None]
              /\ timeSlotsOverlap t (t + 60 * Js.MS_PER_MINUTE)
                   (TimeBlock.startTime b) (TimeBlock.endTime b) = true)
  | None =>
      forall t, at_ 10 0 <= t -> t + 60 * Js.MS_PER_MINUTE <= at_ 17 0 ->
        exists b,
          In b [sampleBlock "call" unavailable (at_ 10 30) (at_ 11 0) None]
          /\ timeSlotsOverlap t (t + 60 * Js.MS_PER_MINUTE)
               (TimeBlock.startTime b) (TimeBlock.endTime b) = true
  end.
Proof.
  apply (X2_findAvailableSlot_earliest_clear_slot
           [sampleBlock "call" unavailable (at_ 10 30) (at_ 11 0) None]
           (at_ 10 0) 60 (at_ 17 0)).
  apply rulesFit_placedBefore, rulesFitb_sound. vm_compute. reflexivity.
Defined.

(** ** What [generateSchedule] puts in the schedule *)

Section GeneratedSchedule.
Import ScheduleEngine.

Lemma breakBeforeTask_pushes_break cfg workEnd sched cur work sched1 cur1 work1 :
  breakBeforeTask cfg workEnd sched cur work = (sched1, cur1, work1) ->
  exists pushed,
    sched1 = sched ++ pushed
    /\ omap TimeBlock.task pushed = []
    /\ List.Forall (fun b => TimeBlock.type b = break /\ TimeBlock.task b = None)
         pushed.
Proof.
  unfold breakBeforeTask, Js.push.
  destruct (_ <=? _); [destruct (_ <=? _)|]; intros [= <- <- <-].
  - eexists. split; [reflexivity|]. split; [reflexivity|].
    constructor; [|constructor]. now split.
  - exists []. rewrite app_nil_r. repeat split; constructor.
  - exists []. rewrite app_nil_r. repeat split; constructor.
Qed.

(** The loop pushes breaks and the blocks of a leading part of the tasks,
    in their order. *)
Lemma scheduleLoop_pushed cfg workEnd ts :
  forall sched cur work,
    exists pushed rest,
      scheduleLoop cfg workEnd ts sched cur work = sched ++ pushed
      /\ ts = omap TimeBlock.task pushed ++ rest
      /\ List.Forall (fun b =>
           (TimeBlock.type b = break /\ TimeBlock.task b = None)
           \/ TimeBlock.type b = task) pushed.
Proof.
  induction ts as [|tk ts IH]; intros sched cur work; simpl.
  - exists [], []. rewrite app_nil_r. repeat split; constructor.
  - destruct (breakBeforeTask cfg workEnd sched cur work)
      as [[sched1 cur1] work1] eqn:Eb.
    apply breakBeforeTask_pushes_break in Eb as (brk & -> & Hnone & Hbrk).
    assert (Hbrk' : List.Forall (fun b =>
              (TimeBlock.type b = break /\ TimeBlock.task b = None)
              \/ TimeBlock.type b = task) brk).
    { revert Hbrk. apply List.Forall_impl. intros b Hb. now left. }
    destruct (findAvailableSlot _ _ _ _) as [[s e]|].
    + unfold Js.push.
      assert (Hone : List.Forall (fun b =>
                (TimeBlock.type b = break /\ TimeBlock.task b = None)
                \/ TimeBlock.type b = task) (brk ++ [taskBlock tk s e])).
      { apply List.Forall_app. split; [exact Hbrk'|].
        constructor; [now right|constructor]. }
      destruct (_ <=? _).
      * exists (brk ++ [taskBlock tk s e]), ts.
        rewrite app_assoc, omap_app, Hnone. repeat split; auto.
      * destruct (IH ((sched ++ brk) ++ [taskBlock tk s e]) e
                    (work1 + Task.duration tk)) as (pushed & rest & -> & Hts & Hk).
        exists ((brk ++ [taskBlock tk s e]) ++ pushed), rest.
        rewrite !app_assoc, !omap_app, Hnone. repeat split.
        -- simpl. now f_equal.
        -- apply List.Forall_app. split; auto.
    + exists brk, (tk :: ts). rewrite Hnone. repeat split; auto.
Qed.
End GeneratedSchedule.

Lemma generateSchedule_pushed
    (tz : Z) (clock : ScheduleEngine.Clock) (e : ScheduleEngine.t) (date : Z) :
  exists pushed rest,
    ScheduleEngine.schedule (fst (ScheduleEngine.generateSchedule tz clock e date))
    = dayBlocks tz e date ++ pushed
    /\ Permutation
         (ScheduleEngine.schedule
            (fst (ScheduleEngine.generateSchedule tz clock e date)))
         (snd (ScheduleEngine.generateSchedule tz clock e date))
    /\ pairwise (fun a b => TimeBlock.startTime a <= TimeBlock.startTime b)
         (snd (ScheduleEngine.generateSchedule tz clock e date))
    /\ List.Forall (fun b =>
         (TimeBlock.type b = break /\ TimeBlock.task b = None)
         \/ TimeBlock.type b = task) pushed
    /\ ScheduleEngine.prioritizeTasks e (ScheduleEngine.nowRank clock)
       = omap TimeBlock.task pushed ++ rest.
Proof.
  unfold ScheduleEngine.generateSchedule, ScheduleEngine.scheduleTasks.
  cbn [fst snd ScheduleEngine.schedule ScheduleEngine.withSchedule].
  fold (dayBlocks tz e date).
  destruct (scheduleLoop_pushed (ScheduleEngine.config e)
              (snd (ScheduleEngine.createWorkDay tz (ScheduleEngine.config e) date))
              (ScheduleEngine.prioritizeTasks e (ScheduleEngine.nowRank clock))
              (dayBlocks tz e date)
              (ScheduleEngine.startFrom
                 (ScheduleEngine.createWorkDay tz (ScheduleEngine.config e) date)
                 (ScheduleEngine.nowStart clock)) 0)
    as (pushed & rest & -> & Hts & Hk).
  exists pushed, rest. repeat split; auto.
  - apply sort_Permutation.
  - apply sort_start_sorted.
Qed.

(** X3.  [generateSchedule] keeps every unavailable block of the day and
    pushes, after them, only breaks and task blocks.  It places the tasks in
    the order of the ranking and skips none: the tasks of the blocks pushed
    are a leading part of the ranking, which ends where a task first finds
    no slot or the day is full.  The array returned is the engine's
    schedule, by start time. *)
Theorem X3_generateSchedule_places_leading_tasks
    (tz : Z) (clock : ScheduleEngine.Clock) (e : ScheduleEngine.t) (date : Z) :
  exists pushed rest,
    ScheduleEngine.schedule (fst (ScheduleEngine.generateSchedule tz clock e date))
    = dayBlocks tz e date ++ pushed
    /\ Permutation
         (ScheduleEngine.schedule
            (fst (ScheduleEngine.generateSchedule tz clock e date)))
         (snd (ScheduleEngine.generateSchedule tz clock e date))
    /\ pairwise (fun a b => TimeBlock.startTime a <= TimeBlock.startTime b)
         (snd (ScheduleEngine.generateSchedule tz clock e date))
    /\ List.Forall (fun b =>
         (TimeBlock.type b = break /\ TimeBlock.task b = None)
         \/ TimeBlock.type b = task) pushed
    /\ ScheduleEngine.prioritizeTasks e (ScheduleEngine.nowRank clock)
       = omap TimeBlock.task pushed ++ rest.
Proof. apply generateSchedule_pushed. Qed.

(** X4.  After [setTasks], a completed task is never scheduled: every task
    block that [generateSchedule] pushes carries one of the tasks given
    that is not completed. *)
Theorem X4_completed_tasks_are_not_scheduled
    (tz : Z) (clock : ScheduleEngine.Clock) (e : ScheduleEngine.t)
    (ts : list Task.t) (date : Z) :
  exists pushed,
    ScheduleEngine.schedule
      (fst (ScheduleEngine.generateSchedule tz clock
              (ScheduleEngine.setTasks e ts) date))
    = dayBlocks tz (ScheduleEngine.setTasks e ts) date ++ pushed
    /\ forall b tk, In b pushed -> TimeBlock.task b = Some tk ->
         In tk ts /\ Task.completed tk = false.
Proof.
  destruct (generateSchedule_pushed tz clock
              (ScheduleEngine.setTasks e ts) date)
    as (pushed & rest & Hs & _ & _ & _ & Hts).
  exists pushed. split; [exact Hs|]. intros b tk Hb Htk.
  assert (Hin : In tk (ScheduleEngine.prioritizeTasks
                         (ScheduleEngine.setTasks e ts)
                         (ScheduleEngine.nowRank clock))).
  { rewrite Hts. apply in_or_app. left. apply list_elem_of_In.
    apply list_elem_of_omap. exists b. split; [now apply list_elem_of_In|exact Htk]. }
  unfold ScheduleEngine.prioritizeTasks in Hin. apply sort_In in Hin.
  cbn [ScheduleEngine.tasks ScheduleEngine.setTasks] in Hin.
  apply List.filter_In in Hin as [Hin Hc]. split; [exact Hin|].
  now apply negb_true_iff in Hc.
Qed.

(** ** The working window *)

Section WorkingWindow.
Import ScheduleEngine.


Lemma fold_left_Forall {A B} (P : A -> Prop) (f : list A -> B -> list A) l :
  (forall acc x, List.Forall P acc -> List.Forall P (f acc x)) ->
  forall acc, List.Forall P acc -> List.Forall P (fold_left f l acc).
Proof.
  intros Hf. induction l as [|x l IH]; intros acc Hacc; simpl; auto.
Qed.






End WorkingWindow.



(** ** Regenerating breaks, moving and deleting blocks *)

Definition notBreak (b : TimeBlock.t) : bool := negb (isType break b).

Lemma filter_all {A} (p : A -> bool) l :
  List.Forall (fun x => p x = true) l -> List.filter p l = l.
Proof.
  induction 1 as [|x l Hx _ IH]; simpl; [reflexivity|]. now rewrite Hx, IH.
Qed.

Lemma filter_none {A} (p : A -> bool) l :
  List.Forall (fun x => p x = false) l -> List.filter p l = [].
Proof.
  induction 1 as [|x l Hx _ IH]; simpl; [reflexivity|]. now rewrite Hx, IH.
Qed.

Lemma filter_filter {A} (p q : A -> bool) l :
  List.filter p (List.filter q l) = List.filter (fun x => q x && p x) l.
Proof.
  induction l as [|x l IH]; simpl; [reflexivity|].
  destruct (q x); simpl; [destruct (p x)|]; now rewrite IH.
Qed.

Lemma filter_passes {A} (p : A -> bool) l :
  List.Forall (fun x => p x = true) (List.filter p l).
Proof.
  apply List.Forall_forall. intros x Hx. now apply List.filter_In in Hx.
Qed.

Section BreaksAgain.
Import ScheduleEngine.

Lemma newBreaks_are_breaks cfg taskBlocks :
  List.Forall (fun b => TimeBlock.type b = break /\ TimeBlock.taskId b = None
                        /\ exists t, TimeBlock.id b = "break-" +:+ t)
    (newBreaks cfg taskBlocks).
Proof.
  induction taskBlocks as [|c rest IH]; simpl; [constructor|].
  destruct rest as [|n rest']; [constructor|].
  apply List.Forall_app. split; [|exact IH].
  unfold breakAfter. destruct (_ && _); simpl; constructor; [|constructor].
  repeat split. eexists. reflexivity.
Qed.

Lemma regenerateBreaks_split cfg sched :
  regenerateBreaks cfg sched
  = List.filter notBreak sched
    ++ newBreaks cfg
         (Js.sort byStartTime
            (List.filter (isType task) (List.filter notBreak sched))).
Proof. unfold regenerateBreaks. now rewrite breaksBetween_newBreaks. Qed.

Lemma regenerateBreaks_keeps cfg sched :
  List.filter notBreak (regenerateBreaks cfg sched) = List.filter notBreak sched.
Proof.
  rewrite regenerateBreaks_split, List.filter_app.
  rewrite (filter_all notBreak (List.filter notBreak sched)) by apply filter_passes.
  rewrite (filter_none notBreak (newBreaks _ _)); [apply app_nil_r|].
  eapply List.Forall_impl; [|apply newBreaks_are_breaks].
  intros b (Hb & _). unfold notBreak, isType.
  now rewrite bool_decide_eq_true_2.
Qed.
End BreaksAgain.

(** X6.  [regenerateBreaks] keeps every task and unavailable block, in
    place and in order, drops the breaks there were and pushes new breaks
    at the end; doing it twice is doing it once. *)
Theorem X6_regenerateBreaks_idempotent
    (cfg : ScheduleEngine.ScheduleEngineConfig) (sched : list TimeBlock.t) :
  ScheduleEngine.regenerateBreaks cfg (ScheduleEngine.regenerateBreaks cfg sched)
  = ScheduleEngine.regenerateBreaks cfg sched
  /\ exists pushed,
       ScheduleEngine.regenerateBreaks cfg sched
       = List.filter notBreak sched ++ pushed
       /\ List.Forall (fun b => TimeBlock.type b = break) pushed.
Proof.
  split.
  - rewrite (regenerateBreaks_split cfg (ScheduleEngine.regenerateBreaks cfg sched)).
    rewrite regenerateBreaks_keeps. symmetry. apply regenerateBreaks_split.
  - eexists. split; [apply regenerateBreaks_split|].
    eapply List.Forall_impl; [|apply newBreaks_are_breaks]. now intros b (Hb & _).
Qed.

(** X7.  A move that [isSlotAvailable] accepts: afterwards exactly one
    block carries the task id, the task's block at the new start and as
    long as the task; every other task or unavailable block is where it
    was. *)
Theorem X7_rescheduleTask_moves_the_block
    (e : ScheduleEngine.t) (taskId : string) (newStartTime : Z)
    (found : TimeBlock.t) (tk : Task.t) :
  Js.find (hasTaskId taskId) (ScheduleEngine.schedule e) = Some found ->
  TimeBlock.task found = Some tk ->
  Task.id tk = taskId ->
  ScheduleEngine.isSlotAvailable (ScheduleEngine.schedule e) newStartTime
    (newStartTime + Task.duration tk * Js.MS_PER_MINUTE) taskId = true ->
  List.filter (hasTaskId taskId)
    (snd (ScheduleEngine.rescheduleTask e taskId newStartTime))
  = [ScheduleEngine.taskBlock tk newStartTime
       (newStartTime + Task.duration tk * Js.MS_PER_MINUTE)]
  /\ List.filter (fun b => notBreak b && negb (hasTaskId taskId b))
       (snd (ScheduleEngine.rescheduleTask e taskId newStartTime))
     = List.filter (fun b => notBreak b && negb (hasTaskId taskId b))
         (ScheduleEngine.schedule e)
  /\ ScheduleEngine.schedule (fst (ScheduleEngine.rescheduleTask e taskId newStartTime))
     = snd (ScheduleEngine.rescheduleTask e taskId newStartTime).
Proof.
  intros Hf Htk Hid Ha. unfold ScheduleEngine.rescheduleTask.
  rewrite Hf, Htk, Ha. cbn [fst snd ScheduleEngine.schedule ScheduleEngine.withSchedule].
  rewrite regenerateBreaks_split. unfold Js.push.
  set (new := ScheduleEngine.taskBlock tk newStartTime
                (newStartTime + Task.duration tk * Js.MS_PER_MINUTE)).
  set (others := List.filter (fun b => negb (hasTaskId taskId b))
                   (ScheduleEngine.schedule e)).
  set (pushed := newBreaks _ _).
  assert (Hnew1 : hasTaskId taskId new = true)
    by (unfold hasTaskId; simpl; rewrite Hid; now apply bool_decide_eq_true_2).
  assert (Hnew2 : notBreak new = true) by reflexivity.
  assert (Hpushed : List.Forall (fun b => hasTaskId taskId b = false
                                          /\ notBreak b = false) pushed).
  { eapply List.Forall_impl; [|apply newBreaks_are_breaks].
    intros b (Hb & Hnone & _). unfold hasTaskId, notBreak, isType.
    rewrite Hnone, Hb. split; [now apply bool_decide_eq_false_2|reflexivity]. }
  assert (Hkept : List.filter notBreak (others ++ [new])
                  = List.filter notBreak others ++ [new])
    by (rewrite List.filter_app; cbn [List.filter]; now rewrite Hnew2).
  clearbody pushed. rewrite Hkept.
  split; [|split; [|reflexivity]].
  - rewrite !List.filter_app.
    replace (List.filter (hasTaskId taskId) [new]) with [new]
      by (cbn [List.filter]; now rewrite Hnew1).
    rewrite (filter_none _ pushed)
      by (revert Hpushed; apply List.Forall_impl; tauto).
    rewrite filter_none; [reflexivity|].
    apply List.Forall_forall. intros b Hb.
    apply List.filter_In in Hb as [Hb _]. apply List.filter_In in Hb as [_ Hb].
    now apply negb_true_iff in Hb.
  - rewrite !List.filter_app.
    replace (List.filter (fun b => notBreak b && negb (hasTaskId taskId b)) [new])
      with (@nil TimeBlock.t)
      by (cbn [List.filter]; now rewrite Hnew1, Hnew2).
    rewrite (filter_none _ pushed).
    2:{ revert Hpushed. apply List.Forall_impl. intros b [_ ->]. reflexivity. }
    unfold others. rewrite !filter_filter, !app_nil_r.
    apply List.filter_ext. intros b.
    destruct (hasTaskId taskId b), (notBreak b); reflexivity.
Qed.

Lemma X7_witness :
  let e := fst (ScheduleEngine.generateSchedule 0 (ScheduleEngine.mkClock 0 0)
                  callAtTen 0) in
  let tk := sampleTask "b" 30 (at_ 72 0) low leisure in
  List.filter (hasTaskId "b") (snd (ScheduleEngine.rescheduleTask e "b" (at_ 12 0)))
  = [ScheduleEngine.taskBlock tk (at_ 12 0)
       (at_ 12 0 + Task.duration tk * Js.MS_PER_MINUTE)]
  /\ List.filter (fun b => notBreak b && negb (hasTaskId "b" b))
       (snd (ScheduleEngine.rescheduleTask e "b" (at_ 12 0)))
     = List.filter (fun b => notBreak b && negb (hasTaskId "b" b))
         (ScheduleEngine.schedule e)
  /\ ScheduleEngine.schedule (fst (ScheduleEngine.rescheduleTask e "b" (at_ 12 0)))
     = snd (ScheduleEngine.rescheduleTask e "b" (at_ 12 0)).
Proof.
  intros e tk.
  apply (X7_rescheduleTask_moves_the_block e "b" (at_ 12 0)
           (ScheduleEngine.taskBlock tk (at_ 10 30) (at_ 11 0)) tk);
    vm_compute; reflexivity.
Defined.

(** X8.  A move onto a slot that overlaps a block of another task, a break
    or an unavailable block is refused: the engine and its schedule stay as
    they are. *)
Theorem X8_rescheduleTask_refuses_taken_slot
    (e : ScheduleEngine.t) (taskId : string) (newStartTime : Z)
    (found other : TimeBlock.t) (tk : Task.t) :
  Js.find (hasTaskId taskId) (ScheduleEngine.schedule e) = Some found ->
  TimeBlock.task found = Some tk ->
  In other (ScheduleEngine.schedule e) ->
  TimeBlock.taskId other <> Some taskId ->
  timeSlotsOverlap newStartTime
    (newStartTime + Task.duration tk * Js.MS_PER_MINUTE)
    (TimeBlock.startTime other) (TimeBlock.endTime other) = true ->
  ScheduleEngine.rescheduleTask e taskId newStartTime
  = (e, ScheduleEngine.schedule e).
Proof. apply engine_reschedule_conflict_is_noop. Qed.

Lemma X8_witness :
  let e := fst (ScheduleEngine.generateSchedule 0 (ScheduleEngine.mkClock 0 0)
                  callAtTen 0) in
  ScheduleEngine.rescheduleTask e "b" (at_ 9 30) = (e, ScheduleEngine.schedule e).
Proof.
  intros e.
  apply (X8_rescheduleTask_refuses_taken_slot e "b" (at_ 9 30)
           (ScheduleEngine.taskBlock (sampleTask "b" 30 (at_ 72 0) low leisure)
              (at_ 10 30) (at_ 11 0))
           (ScheduleEngine.taskBlock (sampleTask "a" 60 (at_ 11 0) high work)
              (at_ 9 0) (at_ 10 0))
           (sampleTask "b" 30 (at_ 72 0) low leisure)).
  - vm_compute; reflexivity.
  - reflexivity.
  - vm_compute. right. left. reflexivity.
  - discriminate.
  - vm_compute; reflexivity.
Defined.

(** X9.  [deleteTimeBlock] with an id that no block of the schedule has
    changes nothing: neither the schedule nor the ad-hoc blocks nor the
    suppressions, whatever the id looks like. *)
Theorem X9_deleteTimeBlock_unknown_id_is_identity
    (tz : Z) (clock : ScheduleEngine.Clock) (e : ScheduleEngine.t) (blockId : string) :
  List.Forall (fun b => TimeBlock.id b <> blockId) (ScheduleEngine.schedule e) ->
  ScheduleEngine.deleteTimeBlock tz clock e blockId = (e, ScheduleEngine.schedule e).
Proof.
  intros H. unfold ScheduleEngine.deleteTimeBlock.
  replace (Js.find (hasId blockId) (ScheduleEngine.schedule e)) with (@None TimeBlock.t);
    [reflexivity|].
  symmetry. induction H as [|b l Hb _ IH]; simpl; [reflexivity|].
  unfold hasId at 1. now rewrite bool_decide_eq_false_2.
Qed.

Lemma X9_witness :
  let e := fst (ScheduleEngine.generateSchedule 0 (ScheduleEngine.mkClock 0 0)
                  callAtTen 0) in
  ScheduleEngine.deleteTimeBlock 0 (ScheduleEngine.mkClock 0 0) e "unavailable-gone-0"
  = (e, ScheduleEngine.schedule e).
Proof.
  intros e.
  apply (X9_deleteTimeBlock_unknown_id_is_identity 0 (ScheduleEngine.mkClock 0 0)
           e "unavailable-gone-0").
  vm_compute. repeat constructor; discriminate.
Defined.

Lemma find_first {A} (p : A -> bool) l x rest :
  List.Forall (fun y => p y = false) l -> p x = true ->
  Js.find p (l ++ x :: rest) = Some x.
Proof.
  induction 1 as [|y l Hy _ IH]; intros Hx; simpl.
  - now rewrite Hx.
  - rewrite Hy. now apply IH.
Qed.


(** X10.  Deleting a block that is neither ad-hoc nor unavailable, a task
    or a break: no block of the schedule has the identity afterwards, the
    other tasks and unavailable blocks stay where they were, and the rules,
    ad-hoc blocks and suppressions are untouched.  Unless the identity is a
    task's, the schedule just loses the blocks with the identity. *)
Theorem X10_deleteTimeBlock_removes_task_or_break
    (tz : Z) (clock : ScheduleEngine.Clock) (e : ScheduleEngine.t)
    (blockId : string) (block : TimeBlock.t) :
  Js.find (hasId blockId) (ScheduleEngine.schedule e) = Some block ->
  Js.startsWith blockId "ad-hoc-" = false ->
  Js.startsWith blockId "unavailable-" = false ->
  let deleted := ScheduleEngine.deleteTimeBlock tz clock e blockId in
  List.Forall (fun b => TimeBlock.id b <> blockId) (snd deleted)
  /\ List.filter notBreak (snd deleted)
     = List.filter (fun b => notBreak b && negb (hasId blockId b))
         (ScheduleEngine.schedule e)
  /\ (Js.startsWith blockId "task-" = false ->
      snd deleted
      = List.filter (fun b => negb (hasId blockId b)) (ScheduleEngine.schedule e))
  /\ fst deleted = ScheduleEngine.withSchedule e (snd deleted).
Proof.
  intros Hfind Hadhoc Hunav. cbv zeta. unfold ScheduleEngine.deleteTimeBlock.
  rewrite Hfind, Hadhoc, Hunav. cbn [fst snd].
  set (others := Js.filter (fun b => negb (hasId blockId b)) (ScheduleEngine.schedule e)).
  assert (Hothers : List.Forall (fun b => TimeBlock.id b <> blockId) others).
  { apply List.Forall_forall. intros b Hb. apply List.filter_In in Hb as [_ Hb].
    apply negb_true_iff, bool_decide_eq_false in Hb. exact Hb. }
  assert (Hkept : List.filter notBreak others
                  = List.filter (fun b => notBreak b && negb (hasId blockId b))
                      (ScheduleEngine.schedule e)).
  { unfold others. rewrite filter_filter. apply List.filter_ext.
    intros b. apply andb_comm. }
  destruct (Js.startsWith blockId "task-") eqn:Htask.
  - repeat split; [| |discriminate].
    + rewrite regenerateBreaks_split. apply List.Forall_app. split.
      * apply List.Forall_forall. intros b Hb. apply List.filter_In in Hb as [Hb _].
        rewrite List.Forall_forall in Hothers. now apply Hothers.
      * eapply List.Forall_impl; [|apply newBreaks_are_breaks].
        intros b (_ & _ & t0 & Hid) Heq. rewrite Hid in Heq. subst blockId.
        discriminate Htask.
    + now rewrite regenerateBreaks_keeps.
  - repeat split; auto.
Qed.

Lemma X10_witness :
  let e := fst (ScheduleEngine.generateSchedule 0 (ScheduleEngine.mkClock 0 0)
                  callAtTen 0) in
  let blockId := "task-a-" +:+ Js.show (at_ 9 0) in
  let deleted :=
    ScheduleEngine.deleteTimeBlock 0 (ScheduleEngine.mkClock 0 0) e blockId in
  List.Forall (fun b => TimeBlock.id b <> blockId) (snd deleted)
  /\ List.filter notBreak (snd deleted)
     = List.filter (fun b => notBreak b && negb (hasId blockId b))
         (ScheduleEngine.schedule e)
  /\ (Js.startsWith blockId "task-" = false ->
      snd deleted
      = List.filter (fun b => negb (hasId blockId b)) (ScheduleEngine.schedule e))
  /\ fst deleted = ScheduleEngine.withSchedule e (snd deleted).
Proof.
  intros e blockId.
  apply (X10_deleteTimeBlock_removes_task_or_break 0 (ScheduleEngine.mkClock 0 0)
           e blockId
           (ScheduleEngine.taskBlock (sampleTask "a" 60 (at_ 11 0) high work)
              (at_ 9 0) (at_ 10 0)));
    vm_compute; reflexivity.
Defined.

(** ** Ad-hoc blocks: stored, shown, deleted *)

Section AdHocBlocks.
Import ScheduleEngine.

(** What [scheduleTasks] pushes is made by [breakBlock] and [taskBlock]. *)
Lemma scheduleLoop_pushes (P : TimeBlock.t -> Prop) cfg workEnd ts :
  (forall s e title, P (breakBlock s e title)) ->
  (forall tk s e, P (taskBlock tk s e)) ->
  forall sched cur work,
    exists pushed,
      scheduleLoop cfg workEnd ts sched cur work = sched ++ pushed
      /\ List.Forall P pushed.
Proof.
  intros Hbreak Htask.
  induction ts as [|tk ts IH]; intros sched cur work; simpl.
  - exists []. now rewrite app_nil_r.
  - assert (Hb : exists brk,
               fst (fst (breakBeforeTask cfg workEnd sched cur work)) = sched ++ brk
               /\ List.Forall P brk).
    { unfold breakBeforeTask, Js.push.
      destruct (_ <=? _); [destruct (_ <=? _)|]; cbn [fst].
      - eexists. split; [reflexivity|]. constructor; [apply Hbreak|constructor].
      - exists []. now rewrite app_nil_r.
      - exists []. now rewrite app_nil_r. }
    destruct (breakBeforeTask cfg workEnd sched cur work) as [[sched1 cur1] work1].
    cbn [fst] in Hb. destruct Hb as (brk & -> & Hbrk).
    destruct (findAvailableSlot _ _ _ _) as [[s e]|]; [|eauto].
    unfold Js.push. destruct (_ <=? _).
    + exists (brk ++ [taskBlock tk s e]). rewrite app_assoc. split; [reflexivity|].
      apply List.Forall_app. split; [exact Hbrk|]. constructor; [apply Htask|constructor].
    + destruct (IH ((sched ++ brk) ++ [taskBlock tk s e]) e
                  (work1 + Task.duration tk)) as (pushed & -> & Hp).
      exists ((brk ++ [taskBlock tk s e]) ++ pushed). rewrite !app_assoc.
      split; [reflexivity|].
      apply List.Forall_app. split; [|exact Hp].
      apply List.Forall_app. split; [exact Hbrk|]. constructor; [apply Htask|constructor].
Qed.

Definition notAdHocId (b : TimeBlock.t) : Prop :=
  Js.startsWith (TimeBlock.id b) "ad-hoc-" = false.

Lemma startsWith_adHoc rest : Js.startsWith ("ad-hoc-" +:+ rest) "ad-hoc-" = true.
Proof. destruct rest; reflexivity. Qed.

Lemma notAdHocId_differs b rest :
  notAdHocId b -> TimeBlock.id b <> "ad-hoc-" +:+ rest.
Proof.
  unfold notAdHocId. intros H Heq. rewrite Heq, startsWith_adHoc in H. discriminate.
Qed.

(** The blocks the rules give have identities of their own kind. *)
Lemma recurring_notAdHocId tz workDay suppressed rules :
  List.Forall notAdHocId
    (fold_left (addRecurringBlock tz workDay suppressed) rules []).
Proof.
  apply fold_left_Forall; [|constructor].
  intros acc block Hacc. unfold addRecurringBlock.
  destruct (bool_decide _); [exact Hacc|].
  destruct (shouldIncludeBlock _ _ _); [|exact Hacc].
  destruct (timeSlotsOverlap _ _ _ _); [|exact Hacc].
  apply List.Forall_app. split; [exact Hacc|]. constructor; [|constructor].
  reflexivity.
Qed.

(** The stored blocks keep their identities when they are shown. *)
Lemma adHoc_ids (Q : string -> Prop) workDay stored :
  List.Forall (fun b => Q (TimeBlock.id b)) stored ->
  forall sched,
    List.Forall (fun b => Q (TimeBlock.id b)) sched ->
    List.Forall (fun b => Q (TimeBlock.id b))
      (fold_left (addAdHocBlock workDay) stored sched).
Proof.
  induction 1 as [|b stored Hb _ IH]; intros sched Hs; simpl; [exact Hs|].
  apply IH. unfold addAdHocBlock. destruct (timeSlotsOverlap _ _ _ _); [|exact Hs].
  apply List.Forall_app. split; [exact Hs|]. constructor; [exact Hb|constructor].
Qed.

(** [generateSchedule] reads the maps at the key of its date only. *)
Lemma generateSchedule_reads tz clock e e' date :
  config e' = config e -> tasks e' = tasks e ->
  unavailableBlocks e' = unavailableBlocks e ->
  default ∅ (suppressedRecurringInstances e' !! getDateKey date)
  = default ∅ (suppressedRecurringInstances e !! getDateKey date) ->
  default [] (adHocUnavailableByDate e' !! getDateKey date)
  = default [] (adHocUnavailableByDate e !! getDateKey date) ->
  snd (generateSchedule tz clock e' date) = snd (generateSchedule tz clock e date)
  /\ schedule (fst (generateSchedule tz clock e' date))
     = schedule (fst (generateSchedule tz clock e date)).
Proof.
  intros Hc Ht Hu Hs Ha.
  unfold generateSchedule, addUnavailableBlocks, prioritizeTasks.
  cbn [fst snd schedule withSchedule]. now rewrite Hc, Ht, Hu, Hs, Ha.
Qed.


Lemma other_kinds_differ rest :
  (forall r, "unavailable-" +:+ r <> "ad-hoc-" +:+ rest)
  /\ (forall r, "break-" +:+ r <> "ad-hoc-" +:+ rest)
  /\ (forall r, "task-" +:+ r <> "ad-hoc-" +:+ rest).
Proof. repeat split; intros r; discriminate. Qed.
End AdHocBlocks.

Section AdHocRoundTrip.
Import ScheduleEngine.

Variables (tz : Z) (clock : Clock) (e : t) (startTime endTime : Z)
          (title : string) (description : option string).

Let workDay := createWorkDay tz (config e) startTime.
Let blockId := "ad-hoc-" +:+ Js.show startTime.
Let stored := default [] (adHocUnavailableByDate e !! getDateKey startTime).
Let added := fst (addUnavailableTime tz clock e startTime endTime title description).

Hypothesis stored_differ : List.Forall (fun b => TimeBlock.id b <> blockId) stored.

Lemma added_reads :
  config added = config e /\ tasks added = tasks e
  /\ unavailableBlocks added = unavailableBlocks e
  /\ suppressedRecurringInstances added = suppressedRecurringInstances e
  /\ adHocUnavailableByDate added
     = <[getDateKey startTime :=
           stored ++ [adHocBlock startTime endTime title description]]>
         (adHocUnavailableByDate e).
Proof. repeat split. Qed.

Lemma added_schedule :
  exists pushed,
    schedule added
    = addAdHocBlock workDay
        (fold_left (addAdHocBlock workDay) stored
           (fold_left
              (addRecurringBlock tz workDay
                 (default ∅ (suppressedRecurringInstances e !! getDateKey startTime)))
              (unavailableBlocks e) []))
        (adHocBlock startTime endTime title description)
      ++ pushed
    /\ List.Forall (fun b => TimeBlock.id b <> blockId) pushed.
Proof.
  unfold added, addUnavailableTime, generateSchedule, scheduleTasks.
  cbn [fst schedule withSchedule config withAdHoc].
  match goal with
  | |- exists _, scheduleLoop ?cfg ?we ?ts ?sched ?cur ?work = _ /\ _ =>
      destruct (scheduleLoop_pushes (fun b => TimeBlock.id b <> blockId) cfg we ts
                  (fun s e title => proj1 (proj2 (other_kinds_differ _)) _)
                  (fun tk s e => proj2 (proj2 (other_kinds_differ _)) _)
                  sched cur work)
        as (pushed & -> & Hp)
  end.
  exists pushed. split; [|exact Hp]. f_equal.
  unfold addUnavailableBlocks.
  cbn [config tasks unavailableBlocks adHocUnavailableByDate
       suppressedRecurringInstances withAdHoc].
  rewrite lookup_insert_eq. cbn [default]. unfold id, Js.push at 1.
  fold stored. now rewrite fold_addAdHocBlock_snoc.
Qed.

Lemma before_differ :
  List.Forall (fun b => TimeBlock.id b <> blockId)
    (fold_left (addAdHocBlock workDay) stored
       (fold_left
          (addRecurringBlock tz workDay
             (default ∅ (suppressedRecurringInstances e !! getDateKey startTime)))
          (unavailableBlocks e) [])).
Proof.
  apply (adHoc_ids (fun i => i <> blockId)); [exact stored_differ|].
  eapply List.Forall_impl; [|apply recurring_notAdHocId].
  intros b Hb. now apply notAdHocId_differs.
Qed.

Lemma hasId_false l :
  List.Forall (fun b => TimeBlock.id b <> blockId) l ->
  List.Forall (fun b => hasId blockId b = false) l.
Proof.
  apply List.Forall_impl. intros b Hb. now apply bool_decide_eq_false_2.
Qed.

(** Inside working hours the block is shown, from its own start. *)
Lemma added_shown :
  fst workDay <= startTime -> startTime < snd workDay -> fst workDay < endTime ->
  exists shown,
    Js.find (hasId blockId) (schedule added) = Some shown
    /\ TimeBlock.id shown = blockId
    /\ TimeBlock.type shown = unavailable
    /\ TimeBlock.startTime shown = startTime
    /\ TimeBlock.endTime shown = Z.min endTime (snd workDay).
Proof.
  intros H1 H2 H3. destruct added_schedule as (pushed & -> & _).
  unfold addAdHocBlock at 1. cbn [TimeBlock.startTime TimeBlock.endTime adHocBlock].
  replace (timeSlotsOverlap startTime endTime (fst workDay) (snd workDay)) with true
    by (symmetry; apply andb_true_iff; split; apply Z.ltb_lt; lia).
  unfold Js.push. rewrite <- app_assoc. cbn [app].
  eexists. split; [apply find_first|].
  - apply hasId_false, before_differ.
  - now apply bool_decide_eq_true_2.
  - cbn [TimeBlock.id TimeBlock.type TimeBlock.startTime TimeBlock.endTime adHocBlock].
    repeat split. lia.
Qed.


Lemma stored_filtered :
  Js.filter (fun b => negb (hasId blockId b))
    (stored ++ [adHocBlock startTime endTime title description])
  = stored.
Proof.
  rewrite List.filter_app, filter_all.
  - cbn [List.filter]. unfold hasId at 1. cbn [TimeBlock.id adHocBlock].
    rewrite bool_decide_eq_true_2 by reflexivity. apply app_nil_r.
  - revert stored_differ. apply List.Forall_impl. intros b Hb.
    apply negb_true_iff. now apply bool_decide_eq_false_2.
Qed.

Lemma added_then_deleted clock' :
  fst workDay <= startTime -> startTime < snd workDay -> fst workDay < endTime ->
  let deleted := deleteTimeBlock tz clock' added blockId in
  snd deleted = snd (generateSchedule tz clock' e startTime)
  /\ (forall key, default [] (adHocUnavailableByDate (fst deleted) !! key)
                  = default [] (adHocUnavailableByDate e !! key))
  /\ suppressedRecurringInstances (fst deleted) = suppressedRecurringInstances e.
Proof.
  intros H1 H2 H3 deleted.
  destruct (added_shown H1 H2 H3) as (shown & Hfind & _ & _ & Hs & _).
  destruct added_reads as (Hc & Ht & Hu & Hsup & Had).
  set (m := <[getDateKey startTime :=
                stored ++ [adHocBlock startTime endTime title description]]>
              (adHocUnavailableByDate e)) in Had.
  assert (Hdel : deleted
                 = generateSchedule tz clock'
                     (match stored with
                      | [] => withAdHoc added (delete (getDateKey startTime) m)
                      | _ => withAdHoc added (<[getDateKey startTime := stored]> m)
                      end) startTime).
  { unfold deleted, deleteTimeBlock. rewrite Hfind, Hs.
    unfold blockId. rewrite startsWith_adHoc. fold blockId.
    assert (Hlk : default [] (m !! getDateKey startTime)
                  = stored ++ [adHocBlock startTime endTime title description])
      by (unfold m; now rewrite lookup_insert_eq).
    rewrite Had, !Hlk, !stored_filtered. reflexivity. }
  clearbody deleted. subst deleted.
  assert (Hlook : forall m',
            (forall key, default [] (m' !! key)
                         = default [] (adHocUnavailableByDate e !! key)) ->
            let deleted := generateSchedule tz clock' (withAdHoc added m') startTime in
            snd deleted = snd (generateSchedule tz clock' e startTime)
            /\ (forall key, default [] (adHocUnavailableByDate (fst deleted) !! key)
                            = default [] (adHocUnavailableByDate e !! key))
            /\ suppressedRecurringInstances (fst deleted)
               = suppressedRecurringInstances e).
  { intros m' Hm'. cbv zeta. split; [|split; [exact Hm'|reflexivity]].
    apply generateSchedule_reads; try reflexivity. apply Hm'. }
  destruct stored as [|b0 rest] eqn:Hst.
  - apply Hlook. intros key. unfold m.
    destruct (decide (key = getDateKey startTime)) as [->|Hne].
    + rewrite lookup_delete_eq. cbn [default]. symmetry. exact Hst.
    + rewrite lookup_delete_ne, lookup_insert_ne by congruence. reflexivity.
  - apply Hlook. intros key. unfold m.
    destruct (decide (key = getDateKey startTime)) as [->|Hne].
    + rewrite lookup_insert_eq. cbn [default]. symmetry. exact Hst.
    + rewrite !lookup_insert_ne by congruence. reflexivity.
Qed.

End AdHocRoundTrip.

(** X11.  An ad-hoc block that starts inside working hours, added by
    [addUnavailableTime] and then deleted by its identity: the block was
    shown from its own start; after the deletion the schedule is the one
    [generateSchedule] gives without it, and the ad-hoc blocks stored for
    every date are those there were. *)
Theorem X11_adHoc_block_added_then_deleted
    (tz : Z) (clock clock' : ScheduleEngine.Clock) (e : ScheduleEngine.t)
    (startTime endTime : Z) (title : string) (description : option string) :
  let workDay := ScheduleEngine.createWorkDay tz (ScheduleEngine.config e) startTime in
  let blockId := "ad-hoc-" +:+ Js.show startTime in
  fst workDay <= startTime -> startTime < snd workDay -> fst workDay < endTime ->
  List.Forall (fun b => TimeBlock.id b <> blockId)
    (default [] (ScheduleEngine.adHocUnavailableByDate e
                 !! ScheduleEngine.getDateKey startTime)) ->
  let added :=
    fst (ScheduleEngine.addUnavailableTime tz clock e startTime endTime
           title description) in
  let deleted := ScheduleEngine.deleteTimeBlock tz clock' added blockId in
  (exists shown,
     In shown (ScheduleEngine.schedule added)
     /\ TimeBlock.id shown = blockId
     /\ TimeBlock.type shown = unavailable
     /\ TimeBlock.startTime shown = startTime
     /\ TimeBlock.endTime shown = Z.min endTime (snd workDay))
  /\ snd deleted = snd (ScheduleEngine.generateSchedule tz clock' e startTime)
  /\ (forall key,
        default [] (ScheduleEngine.adHocUnavailableByDate (fst deleted) !! key)
        = default [] (ScheduleEngine.adHocUnavailableByDate e !! key))
  /\ ScheduleEngine.suppressedRecurringInstances (fst deleted)
     = ScheduleEngine.suppressedRecurringInstances e.
Proof.
  intros workDay blockId H1 H2 H3 Hst added deleted. split.
  - destruct (added_shown tz clock e startTime endTime title description Hst H1 H2 H3)
      as (shown & Hfind & Hrest).
    exists shown. split; [|exact Hrest].
    apply List.find_some in Hfind. apply Hfind.
  - apply (added_then_deleted tz clock e startTime endTime title description Hst
             clock' H1 H2 H3).
Qed.

Lemma X11_witness :
  let workDay := ScheduleEngine.createWorkDay 0 (ScheduleEngine.config twoTasks)
                   (at_ 10 0) in
  let blockId := "ad-hoc-" +:+ Js.show (at_ 10 0) in
  let added :=
    fst (ScheduleEngine.addUnavailableTime 0 (ScheduleEngine.mkClock 0 0) twoTasks
           (at_ 10 0) (at_ 11 0) "call" None) in
  let deleted :=
    ScheduleEngine.deleteTimeBlock 0 (ScheduleEngine.mkClock 0 0) added blockId in
  (exists shown,
     In shown (ScheduleEngine.schedule added)
     /\ TimeBlock.id shown = blockId
     /\ TimeBlock.type shown = unavailable
     /\ TimeBlock.startTime shown = at_ 10 0
     /\ TimeBlock.endTime shown = Z.min (at_ 11 0) (snd workDay))
  /\ snd deleted
     = snd (ScheduleEngine.generateSchedule 0 (ScheduleEngine.mkClock 0 0) twoTasks
              (at_ 10 0))
  /\ (forall key,
        default [] (ScheduleEngine.adHocUnavailableByDate (fst deleted) !! key)
        = default [] (ScheduleEngine.adHocUnavailableByDate twoTasks !! key))
  /\ ScheduleEngine.suppressedRecurringInstances (fst deleted)
     = ScheduleEngine.suppressedRecurringInstances twoTasks.
Proof.
  apply (X11_adHoc_block_added_then_deleted 0 (ScheduleEngine.mkClock 0 0)
           (ScheduleEngine.mkClock 0 0) twoTasks (at_ 10 0) (at_ 11 0) "call" None).
  - vm_compute. discriminate.
  - reflexivity.
  - reflexivity.
  - constructor.
Defined.



(** X13.  Deleting the instance of a rule whose identity holds no hyphen:
    the schedule returned is the one of the engine without the rule; from
    then on the rule is left out on the dates with the date key of the
    instance, and on those dates only. *)
Theorem X13_deleted_instance_is_suppressed_on_its_date_only
    (tz : Z) (clock : ScheduleEngine.Clock) (e : ScheduleEngine.t)
    (ruleId : string) (n : Z) (block : TimeBlock.t) :
  hyphenFree ruleId = true ->
  Js.find (hasId ("unavailable-" +:+ ruleId +:+ "-" +:+ Js.show n))
    (ScheduleEngine.schedule e) = Some block ->
  let deleted :=
    ScheduleEngine.deleteTimeBlock tz clock e
      ("unavailable-" +:+ ruleId +:+ "-" +:+ Js.show n) in
  let day := TimeBlock.startTime block in
  snd deleted = snd (ScheduleEngine.generateSchedule tz clock (withoutRule ruleId e) day)
  /\ (forall c date,
        ScheduleEngine.getDateKey date = ScheduleEngine.getDateKey day ->
        snd (ScheduleEngine.generateSchedule tz c (fst deleted) date)
        = snd (ScheduleEngine.generateSchedule tz c (withoutRule ruleId e) date))
  /\ (forall c date,
        ScheduleEngine.getDateKey date <> ScheduleEngine.getDateKey day ->
        snd (ScheduleEngine.generateSchedule tz c (fst deleted) date)
        = snd (ScheduleEngine.generateSchedule tz c e date)).
Proof. apply deleteTimeBlock_suppresses_on_its_date. Qed.

Lemma X13_witness :
  let e := fst (ScheduleEngine.generateSchedule 0 (ScheduleEngine.mkClock 0 0)
                  callAtTen 0) in
  let deleted :=
    ScheduleEngine.deleteTimeBlock 0 (ScheduleEngine.mkClock 0 0) e
      ("unavailable-" +:+ "call" +:+ "-" +:+ Js.show (at_ 9 0)) in
  let day := at_ 10 0 in
  snd deleted
  = snd (ScheduleEngine.generateSchedule 0 (ScheduleEngine.mkClock 0 0)
           (withoutRule "call" e) day)
  /\ (forall c date,
        ScheduleEngine.getDateKey date = ScheduleEngine.getDateKey day ->
        snd (ScheduleEngine.generateSchedule 0 c (fst deleted) date)
        = snd (ScheduleEngine.generateSchedule 0 c (withoutRule "call" e) date))
  /\ (forall c date,
        ScheduleEngine.getDateKey date <> ScheduleEngine.getDateKey day ->
        snd (ScheduleEngine.generateSchedule 0 c (fst deleted) date)
        = snd (ScheduleEngine.generateSchedule 0 c e date)).
Proof.
  intros e.
  apply (X13_deleted_instance_is_suppressed_on_its_date_only 0
           (ScheduleEngine.mkClock 0 0) e "call" (at_ 9 0)
           {| TimeBlock.id := "unavailable-" +:+ "call" +:+ "-" +:+ Js.show (at_ 9 0);
              TimeBlock.type := unavailable;
              TimeBlock.startTime := at_ 10 0;
              TimeBlock.endTime := at_ 10 30;
              TimeBlock.title := "call";
              TimeBlock.description := None;
              TimeBlock.taskId := None;
              TimeBlock.task := None;
              TimeBlock.isFixed := Some true |}).
  - reflexivity.
  - vm_compute. reflexivity.
Defined.

(** ** [TimetableScheduler]: what a slot of the grid is clear of *)

Section GridSearch.
Import TimetableScheduler.

(** A slot still available after the marking was available before it, and
    overlaps no block. *)
Lemma markUnavailable_clear timetable :
  forall slots (k : nat) slot,
    markUnavailable timetable slots !! k = Some slot ->
    available slot = true ->
    slots !! k = Some slot
    /\ List.Forall (fun b => slotsOverlap (start slot) (end_ slot)
                      (TimeBlock.startTime b) (TimeBlock.endTime b) = false)
         timetable.
Proof.
  unfold markUnavailable.
  induction timetable as [|b timetable IH]; intros slots k slot Hk Ha; simpl in Hk.
  - split; [exact Hk|constructor].
  - destruct (IH _ _ _ Hk Ha) as [H1 Hrest].
    unfold markBlock in H1. rewrite list_lookup_fmap in H1.
    destruct (slots !! k) as [slot0|] eqn:E0; [|discriminate].
    simpl in H1. injection H1 as H1.
    destruct (slotsOverlap (start slot0) (end_ slot0)
                (TimeBlock.startTime b) (TimeBlock.endTime b)) eqn:Ov.
    + subst slot. discriminate Ha.
    + subst slot0. split; [reflexivity|]. constructor; assumption.
Qed.

(** The slots of an accepted run are all available. *)
Lemma every_slice (slots : list Slot) (i required : Z) :
  0 <= i -> 1 <= required -> i + required <= Z.of_nat (length slots) ->
  Js.every available (slice slots i (i + required)) = true ->
  forall j slot, i <= j < i + required ->
    slots !! Z.to_nat j = Some slot -> available slot = true.
Proof.
  intros Hi Hr Hlen Hall j slot Hj Hslot. unfold slice in Hall.
  destruct (Z.ltb_spec i 0); [lia|].
  destruct (Z.ltb_spec (i + required) 0); [lia|].
  rewrite !Z.min_l in Hall by lia.
  rewrite List.forallb_forall in Hall. apply Hall.
  apply list_elem_of_In. apply (list_elem_of_lookup_2 _ (Z.to_nat (j - i))).
  rewrite lookup_take_lt by lia. rewrite lookup_drop.
  replace (Z.to_nat i + Z.to_nat (j - i))%nat with (Z.to_nat j) by lia.
  exact Hslot.
Qed.

(** What the search returns, for a run of at least one slot: never an
    error; and a run of the grid whose slots are all available. *)
Lemma searchSlots_found origin slots required lastEnd work :
  onGrid origin slots -> 1 <= required ->
  forall todo i,
    0 <= i ->
    (todo <> O -> i + Z.of_nat todo <= Z.of_nat (length slots) - required + 1) ->
    searchSlots todo i slots required lastEnd work <> TypeError
    /\ forall s e,
         searchSlots todo i slots required lastEnd work = Normal (Some (s, e)) ->
         exists i0,
           i <= i0 /\ i0 + required <= Z.of_nat (length slots)
           /\ s = origin + i0 * SLOT_MS /\ e = s + required * SLOT_MS
           /\ forall j slot, i0 <= j < i0 + required ->
                slots !! Z.to_nat j = Some slot -> available slot = true.
Proof.
  intros Hgrid Hr. induction todo as [|todo IH]; intros i Hi Hb; simpl.
  - split; [discriminate|]. intros s e H. discriminate.
  - assert (Hb' : i + Z.of_nat (S todo) <= Z.of_nat (length slots) - required + 1)
      by (apply Hb; discriminate).
    destruct (IH (i + 1)) as [Hok Hnext]; [lia|intros _; lia|].
    assert (Hnext' : forall s e,
              searchSlots todo (i + 1) slots required lastEnd work
                = Normal (Some (s, e)) ->
              exists i0,
                i <= i0 /\ i0 + required <= Z.of_nat (length slots)
                /\ s = origin + i0 * SLOT_MS /\ e = s + required * SLOT_MS
                /\ forall j slot, i0 <= j < i0 + required ->
                     slots !! Z.to_nat j = Some slot -> available slot = true).
    { intros s e H. destruct (Hnext s e H) as (i0 & H0 & Hrest).
      exists i0. split; [lia|exact Hrest]. }
    destruct (slice_run slots i required) as [Hh Hl]; [lia..|].
    destruct (Js.every available _) eqn:Hall; [|split; assumption].
    rewrite Hh, Hl.
    destruct (lookup_lt_is_Some_2 slots (Z.to_nat i)) as [first E1]; [lia|].
    destruct (lookup_lt_is_Some_2 slots (Z.to_nat (i + required - 1)))
      as [final E2]; [lia|].
    rewrite E1, E2.
    match goal with
    | |- (if ?c then _ else _) <> _ /\ _ => destruct c; [split; assumption|]
    end.
    split; [discriminate|]. intros s e [= <- <-].
    exists i. apply Hgrid in E1 as [E1 _], E2 as [E2a E2b].
    rewrite !Z2Nat.id in * by lia.
    repeat split; [lia|lia|lia|lia|].
    apply every_slice; auto; lia.
Qed.

(** A run of available slots overlaps no block of positive length. *)
Lemma run_clear origin timetable slots0 required i0 :
  onGrid origin (markUnavailable timetable slots0) ->
  1 <= required ->
  0 <= i0 -> i0 + required <= Z.of_nat (length (markUnavailable timetable slots0)) ->
  (forall j slot, i0 <= j < i0 + required ->
     markUnavailable timetable slots0 !! Z.to_nat j = Some slot ->
     available slot = true) ->
  List.Forall (fun b =>
      TimeBlock.startTime b < TimeBlock.endTime b ->
      timeSlotsOverlap (origin + i0 * SLOT_MS)
        (origin + i0 * SLOT_MS + required * SLOT_MS)
        (TimeBlock.startTime b) (TimeBlock.endTime b) = false) timetable.
Proof.
  intros Hgrid Hr Hi0 Hlen Hrun. apply List.Forall_forall. intros b Hb Hwf.
  set (s := origin + i0 * SLOT_MS).
  destruct (timeSlotsOverlap s (s + required * SLOT_MS)
              (TimeBlock.startTime b) (TimeBlock.endTime b)) eqn:Ov; [|reflexivity].
  exfalso. unfold timeSlotsOverlap in Ov.
  apply andb_true_iff in Ov as [O1 O2]. apply Z.ltb_lt in O1, O2.
  set (p := Z.max s (TimeBlock.startTime b)).
  set (j := i0 + (p - s) / SLOT_MS).
  assert (HS : SLOT_MS = 1800000) by reflexivity.
  assert (Hdiv : 0 <= (p - s) / SLOT_MS < required).
  { split; [apply Z.div_pos; lia|]. apply Z.div_lt_upper_bound; lia. }
  assert (Hmod : p - s = SLOT_MS * ((p - s) / SLOT_MS) + (p - s) mod SLOT_MS)
    by (apply Z.div_mod; lia).
  assert (Hbound : 0 <= (p - s) mod SLOT_MS < SLOT_MS)
    by (apply Z.mod_pos_bound; lia).
  destruct (lookup_lt_is_Some_2 (markUnavailable timetable slots0) (Z.to_nat j))
    as [slot Hslot]; [lia|].
  assert (Hav : available slot = true) by (apply (Hrun j); [lia|exact Hslot]).
  pose proof (Hgrid _ _ Hslot) as [Hst Hen].
  rewrite Z2Nat.id in Hst by lia.
  destruct (markUnavailable_clear _ _ _ _ Hslot Hav) as [_ Hclear].
  rewrite List.Forall_forall in Hclear. specialize (Hclear b Hb).
  unfold slotsOverlap in Hclear. apply andb_false_iff in Hclear.
  rewrite Z.ltb_ge, Z.gtb_ltb, Z.ltb_ge in Hclear.
  subst j s. lia.
Qed.

Lemma markUnavailable_length timetable :
  forall slots, length (markUnavailable timetable slots) = length slots.
Proof.
  unfold markUnavailable.
  induction timetable as [|b tt IH]; intros slots; simpl; [reflexivity|].
  rewrite IH. unfold markBlock. apply length_map.
Qed.

Lemma slotsFrom_length n : forall c, length (slotsFrom n c) = n.
Proof. induction n as [|n IH]; intros c; simpl; [reflexivity|]. now rewrite IH. Qed.

(** The search on the marked grid from [origin] to [gridEnd], for a
    task of positive duration. *)
Lemma findAvailable_onGrid origin gridEnd timetable duration lastEnd work :
  0 < duration ->
  let slots := markUnavailable timetable (createSlots origin gridEnd) in
  let found :=
    searchSlots (Z.to_nat (Z.of_nat (length slots) - requiredSlots duration + 1)) 0
      slots (requiredSlots duration) lastEnd work in
  found <> TypeError
  /\ forall s e, found = Normal (Some (s, e)) ->
       (exists i0, 0 <= i0
                   /\ i0 + requiredSlots duration
                      <= Z.of_nat (slotCount origin gridEnd)
                   /\ s = origin + i0 * SLOT_MS)
       /\ e = s + requiredSlots duration * SLOT_MS
       /\ List.Forall (fun b =>
            TimeBlock.startTime b < TimeBlock.endTime b ->
            timeSlotsOverlap s e (TimeBlock.startTime b) (TimeBlock.endTime b) = false)
            timetable.
Proof.
  intros Hd slots found.
  pose proof (requiredSlots_bounds duration) as Hb.
  assert (Hr : 1 <= requiredSlots duration) by (unfold SLOT_MINUTES in Hb; lia).
  assert (Hgrid : onGrid origin slots)
    by apply markUnavailable_onGrid, slotsFrom_onGrid.
  assert (Hlen : length slots = slotCount origin gridEnd).
  { unfold slots, createSlots. now rewrite markUnavailable_length, slotsFrom_length. }
  destruct (searchSlots_found origin slots (requiredSlots duration) lastEnd work
              Hgrid Hr
              (Z.to_nat (Z.of_nat (length slots) - requiredSlots duration + 1)) 0)
    as [Hok Hfound]; [lia|lia|].
  split; [exact Hok|]. intros s e H.
  destruct (Hfound s e H) as (i0 & H0 & Hfit & -> & -> & Hrun).
  repeat split.
  - exists i0. repeat split; [lia|]. now rewrite <- Hlen.
  - apply (run_clear origin timetable (createSlots origin gridEnd)); auto.
Qed.

(** Where the grid starts: on a half hour, not before [dayStart]. *)
Lemma localDay_setHours tz t h m :
  0 <= h * Js.MS_PER_HOUR + m * Js.MS_PER_MINUTE < Js.MS_PER_DAY ->
  Js.localDay tz (Js.setHours tz t h m) = Js.localDay tz t.
Proof.
  intros H. unfold Js.setHours, Js.localDay at 1.
  replace (Js.localDay tz t * Js.MS_PER_DAY + h * Js.MS_PER_HOUR
           + m * Js.MS_PER_MINUTE - tz + tz)
    with (h * Js.MS_PER_HOUR + m * Js.MS_PER_MINUTE
          + Js.localDay tz t * Js.MS_PER_DAY) by lia.
  rewrite Z.div_add by (unfold Js.MS_PER_DAY; lia).
  rewrite Z.div_small by exact H. lia.
Qed.

Lemma gridStart_aligned tz date now :
  exists k, 0 <= k
            /\ gridStart tz date now = Js.setHours tz date dayStart 0 + k * SLOT_MS.
Proof.
  unfold gridStart.
  destruct (Js.sameDateString tz date now && _) eqn:Htoday;
    [|exists 0; split; [lia|lia]].
  apply andb_true_iff in Htoday as [Hsame Hlate].
  apply Z.eqb_eq in Hsame. apply Z.ltb_lt in Hlate.
  assert (Hday : Js.localDay tz (Js.setHours tz date dayStart 0) = Js.localDay tz date)
    by (apply localDay_setHours;
        unfold dayStart, Js.MS_PER_HOUR, Js.MS_PER_MINUTE, Js.MS_PER_DAY; lia).
  set (h := Js.getHours tz now).
  assert (Hh : 6 <= h).
  { unfold h, Js.getHours. apply Z.div_le_lower_bound; [reflexivity|].
    unfold Js.setHours, dayStart in Hlate. rewrite Hsame in Hlate.
    unfold Js.localDay in Hlate.
    pose proof (Z.div_mod (now + tz) Js.MS_PER_DAY ltac:(discriminate)) as Hdm.
    unfold Js.MS_PER_HOUR, Js.MS_PER_MINUTE, Js.MS_PER_DAY in *. lia. }
  unfold Js.setHours at 1 3. rewrite Hday.
  unfold Js.setHours, dayStart, SLOT_MS, SLOT_MINUTES,
    Js.MS_PER_HOUR, Js.MS_PER_MINUTE.
  fold h.
  destruct (30 <? Js.getMinutes tz now); simpl.
  - exists ((h + 1 - 6) * 2). split; lia.
  - destruct (0 <? Js.getMinutes tz now); simpl.
    + exists ((h - 6) * 2 + 1). split; lia.
    + exists ((h - 6) * 2). split; lia.
Qed.

(** On a grid that starts [k] slots after [dayStart], the slot found lies
    between [dayStart] and [dayEnd], on a half hour. *)
Lemma grid_within_day tz date k i0 required :
  0 <= k -> 0 <= i0 -> 1 <= required ->
  i0 + required
  <= Z.of_nat (slotCount (Js.setHours tz date dayStart 0 + k * SLOT_MS)
                 (Js.setHours tz date dayEnd 0)) ->
  Js.setHours tz date dayStart 0 + k * SLOT_MS + i0 * SLOT_MS + required * SLOT_MS
  <= Js.setHours tz date dayEnd 0.
Proof.
  intros Hk Hi Hr. unfold slotCount.
  replace (Js.setHours tz date dayEnd 0 - (Js.setHours tz date dayStart 0 + k * SLOT_MS))
    with ((34 - k) * SLOT_MS)
    by (unfold Js.setHours, dayEnd, dayStart, SLOT_MS, SLOT_MINUTES,
          Js.MS_PER_HOUR, Js.MS_PER_MINUTE; lia).
  unfold Js.ceilDiv.
  replace (- ((34 - k) * SLOT_MS)) with ((k - 34) * SLOT_MS) by lia.
  rewrite Z.div_mul by discriminate.
  unfold Js.setHours, dayEnd, dayStart, SLOT_MS, SLOT_MINUTES,
    Js.MS_PER_HOUR, Js.MS_PER_MINUTE. lia.
Qed.
End GridSearch.

(** The slot search of both generations, for a task of positive
    duration. *)
Definition clearSlot (tz : Z) (timetable : list TimeBlock.t) (duration date : Z)
    (found : Completion (option (Z * Z))) : Prop :=
  found <> TypeError
  /\ forall s e, found = Normal (Some (s, e)) ->
       List.Forall (fun b =>
           TimeBlock.startTime b < TimeBlock.endTime b ->
           timeSlotsOverlap s e (TimeBlock.startTime b) (TimeBlock.endTime b) = false)
         timetable
       /\ (exists n, 0 <= n
             /\ s = Js.setHours tz date TimetableScheduler.dayStart 0
                    + n * TimetableScheduler.SLOT_MS)
       /\ e = s + Js.ceilDiv duration 30 * TimetableScheduler.SLOT_MS
       /\ e <= Js.setHours tz date TimetableScheduler.dayEnd 0.

Lemma findAvailableSlot_clearSlot
    (tz clock : Z) (timetable : list TimeBlock.t) (duration date : Z)
    (currentTime lastTaskEndTime : option Z) (work : Z) :
  0 < duration ->
  clearSlot tz timetable duration date
    (TimetableScheduler.findAvailableSlot tz clock timetable duration date
       currentTime lastTaskEndTime work)
  /\ clearSlot tz timetable duration date
       (TimetableSchedulerV1.findAvailableSlot tz timetable duration date).
Proof.
  intros Hd. set (clear := clearSlot tz timetable duration date).
  pose proof (requiredSlots_bounds duration) as Hb.
  assert (Hr : 1 <= TimetableScheduler.requiredSlots duration)
    by (unfold TimetableScheduler.SLOT_MINUTES in Hb; lia).
  assert (Hgen : forall k lastEnd w, 0 <= k ->
            clear (TimetableScheduler.searchSlots
                     (Z.to_nat
                        (Z.of_nat
                           (length
                              (TimetableScheduler.markUnavailable timetable
                                 (TimetableScheduler.createSlots
                                    (Js.setHours tz date TimetableScheduler.dayStart 0
                                     + k * TimetableScheduler.SLOT_MS)
                                    (Js.setHours tz date TimetableScheduler.dayEnd 0))))
                         - TimetableScheduler.requiredSlots duration + 1)) 0
                     (TimetableScheduler.markUnavailable timetable
                        (TimetableScheduler.createSlots
                           (Js.setHours tz date TimetableScheduler.dayStart 0
                            + k * TimetableScheduler.SLOT_MS)
                           (Js.setHours tz date TimetableScheduler.dayEnd 0)))
                     (TimetableScheduler.requiredSlots duration) lastEnd w)).
  { intros k lastEnd w Hk.
    destruct (findAvailable_onGrid
                (Js.setHours tz date TimetableScheduler.dayStart 0
                 + k * TimetableScheduler.SLOT_MS)
                (Js.setHours tz date TimetableScheduler.dayEnd 0)
                timetable duration lastEnd w Hd) as [Hok Hfound].
    split; [exact Hok|]. intros s e H.
    destruct (Hfound s e H) as ((i0 & Hi0 & Hfit & Hs) & He & Hclear).
    split; [exact Hclear|]. split; [|split; [exact He|]].
    - exists (k + i0). split; [lia|]. rewrite Hs. lia.
    - rewrite He, Hs. now apply grid_within_day. }
  split.
  - unfold TimetableScheduler.findAvailableSlot.
    destruct (gridStart_aligned tz date (default clock currentTime)) as (k & Hk & ->).
    now apply Hgen.
  - unfold TimetableSchedulerV1.findAvailableSlot.
    replace (Js.setHours tz date TimetableScheduler.dayStart 0)
      with (Js.setHours tz date TimetableScheduler.dayStart 0
            + 0 * TimetableScheduler.SLOT_MS) at 1 2 by lia.
    now apply Hgen.
Qed.

(** X14.  [findAvailableSlot] of [TimetableScheduler] (both generations),
    for a task of positive duration: the call returns; the slot it finds
    overlaps no block of positive length of the timetable, starts on a half
    hour of the grid, not before 6:00, ends by 23:00, and is
    [ceil (duration / 30)] slots long. *)
Theorem X14_timetable_slot_overlaps_no_block
    (tz clock : Z) (timetable : list TimeBlock.t) (duration date : Z)
    (currentTime lastTaskEndTime : option Z) (work : Z) :
  0 < duration ->
  clearSlot tz timetable duration date
    (TimetableScheduler.findAvailableSlot tz clock timetable duration date
       currentTime lastTaskEndTime work)
  /\ clearSlot tz timetable duration date
       (TimetableSchedulerV1.findAvailableSlot tz timetable duration date).
Proof. apply findAvailableSlot_clearSlot. Qed.

Lemma X14_witness :
  clearSlot 0 [sampleBlock "u" unavailable (at_ 6 0) (at_ 7 0) None] 45 0
    (TimetableScheduler.findAvailableSlot 0 (at_ 30 0)
       [sampleBlock "u" unavailable (at_ 6 0) (at_ 7 0) None] 45 0 None None 0)
  /\ clearSlot 0 [sampleBlock "u" unavailable (at_ 6 0) (at_ 7 0) None] 45 0
       (TimetableSchedulerV1.findAvailableSlot 0
          [sampleBlock "u" unavailable (at_ 6 0) (at_ 7 0) None] 45 0).
Proof.
  apply (X14_timetable_slot_overlaps_no_block 0 (at_ 30 0)
           [sampleBlock "u" unavailable (at_ 6 0) (at_ 7 0) None] 45 0 None None 0).
  lia.
Defined.

(** ** [TimetableScheduler]: what a generated timetable holds *)

Section GeneratedTimetable.
Import TimetableScheduler.

(** Two blocks one of which is a task do not overlap. *)
Definition taskApart (a b : TimeBlock.t) : Prop :=
  TimeBlock.type a = task \/ TimeBlock.type b = task -> blocksOverlap a b = false.

Lemma taskApart_sym a b : taskApart a b -> taskApart b a.
Proof. unfold taskApart. rewrite (blocksOverlap_sym b a). tauto. Qed.

Definition wellFormed (b : TimeBlock.t) : Prop :=
  TimeBlock.startTime b < TimeBlock.endTime b.

(** [placeTasks] on tasks of positive duration returns, and keeps tasks
    apart from everything. *)
Lemma placeLoop_apart tz clock dateLabel date currentTime ts :
  List.Forall (fun tk => 0 < Task.duration tk) ts ->
  forall timetable lastTaskEndTime work,
    List.Forall wellFormed timetable -> pairwise taskApart timetable ->
    exists pushed,
      placeLoop tz clock dateLabel date currentTime ts timetable lastTaskEndTime work
      = Normal (timetable ++ pushed)
      /\ List.Forall wellFormed (timetable ++ pushed)
      /\ pairwise taskApart (timetable ++ pushed)
      /\ List.Forall (fun b => TimeBlock.type b = task
                        /\ exists tk, In tk ts /\ TimeBlock.taskId b = Some (Task.id tk))
           pushed.
Proof.
  induction ts as [|tk ts IH]; intros Hts timetable lastEnd work Hpos Hap; simpl.
  - exists []. rewrite app_nil_r. repeat split; auto.
  - inversion Hts as [|? ? Hd Hts']; subst.
    assert (Hmore : forall pushed,
              List.Forall (fun b => TimeBlock.type b = task
                  /\ exists tk0, In tk0 ts /\ TimeBlock.taskId b = Some (Task.id tk0))
                pushed ->
              List.Forall (fun b => TimeBlock.type b = task
                  /\ exists tk0, In tk0 (tk :: ts)
                                 /\ TimeBlock.taskId b = Some (Task.id tk0))
                pushed).
    { intros pushed. apply List.Forall_impl.
      intros b (Hb & tk0 & Hin & Hid). split; [exact Hb|].
      exists tk0. split; [now right|exact Hid]. }
    destruct (proj1 (findAvailableSlot_clearSlot tz clock timetable (Task.duration tk) date currentTime
                lastEnd work Hd)) as [Hok Hfound].
    destruct (findAvailableSlot tz clock timetable (Task.duration tk) date
                currentTime lastEnd work) as [[[s e]|]|]; [| |congruence].
    + destruct (Hfound s e eq_refl) as (Hclear & _ & He & _).
      pose proof (requiredSlots_bounds (Task.duration tk)) as Hb.
      assert (Hse : s < e).
      { unfold requiredSlots, SLOT_MINUTES in Hb. rewrite He.
        unfold SLOT_MS, SLOT_MINUTES, Js.MS_PER_MINUTE. lia. }
      destruct (IH Hts' (Js.push timetable (taskBlock dateLabel tk (s, e)))
                  (Some (snd (s, e)))
                  (if maxContinuousWork <? work + Task.duration tk
                   then 0 else work + Task.duration tk))
        as (pushed & -> & Hp & Ha & Hk).
      * apply List.Forall_app. split; [exact Hpos|]. constructor; [exact Hse|constructor].
      * apply pairwise_snoc; [exact Hap|]. intros y Hy _.
        rewrite List.Forall_forall in Hclear, Hpos.
        unfold blocksOverlap. rewrite timeSlotsOverlap_sym.
        apply (Hclear y Hy). apply (Hpos y Hy).
      * exists (taskBlock dateLabel tk (s, e) :: pushed).
        unfold Js.push in *. rewrite <- !app_assoc in *. cbn [app] in *.
        repeat split; auto. constructor; [|now apply Hmore].
        split; [reflexivity|]. exists tk. split; [now left|reflexivity].
    + destruct (IH Hts' timetable lastEnd work Hpos Hap)
        as (pushed & -> & Hp & Ha & Hk).
      exists pushed. repeat split; auto.
Qed.

Lemma pairwise_all {A} (R : A -> A -> Prop) l :
  (forall a b, In a l -> In b l -> R a b) -> pairwise R l.
Proof.
  induction l as [|x l IH]; intros H; simpl; [trivial|]. split.
  - apply List.Forall_forall. intros y Hy. apply H; [now left|now right].
  - apply IH. intros a b Ha Hb. apply H; now right.
Qed.

(** The breaks between tasks in a row touch no task. *)
Lemma breaks_apart taskBlocks :
  inRow taskBlocks -> List.Forall wellFormed taskBlocks ->
  forall work,
    List.Forall (fun b =>
        TimeBlock.type b = break
        /\ (exists A, In A taskBlocks /\ TimeBlock.startTime b = TimeBlock.endTime A)
        /\ forall a, In a taskBlocks -> blocksOverlap a b = false)
      (omap inserted (breakSteps taskBlocks work)).
Proof.
  induction taskBlocks as [|A rest IH]; intros Hrow Hpos work; [constructor|].
  destruct rest as [|B rest']; [constructor|].
  destruct Hrow as [HA Hrow]. inversion Hpos as [|? ? HpA Hpos']; subst.
  specialize (IH Hrow Hpos'
                (carried (breakStep A B work))).
  assert (Hlater : List.Forall (fun b =>
              TimeBlock.type b = break
              /\ (exists A0, In A0 (A :: B :: rest')
                             /\ TimeBlock.startTime b = TimeBlock.endTime A0)
              /\ forall a, In a (A :: B :: rest') -> blocksOverlap a b = false)
            (omap inserted (breakSteps (B :: rest') (carried (breakStep A B work))))).
  { revert IH. apply List.Forall_impl.
    intros b (Hb & (X & HX & Hs) & Hclear). split; [exact Hb|]. split.
    - exists X. split; [now right|exact Hs].
    - intros a [<-|Ha]; [|now apply Hclear].
      rewrite List.Forall_forall in HA, Hpos'.
      specialize (HA X HX). specialize (Hpos' X HX). unfold wellFormed in Hpos'.
      apply timeSlotsOverlap_false. lia. }
  change (omap inserted (breakSteps (A :: B :: rest') work))
    with (match inserted (breakStep A B work) with
          | Some b => b :: omap inserted
                             (breakSteps (B :: rest') (carried (breakStep A B work)))
          | None => omap inserted
                      (breakSteps (B :: rest') (carried (breakStep A B work)))
          end).
  destruct (inserted (breakStep A B work)) as [b0|] eqn:Eb; [|exact Hlater].
  constructor; [|exact Hlater].
  destruct (breakStep_followsBreakRule A B work) as (_ & Hb0 & _).
  destruct (Hb0 b0 Eb) as (Hty & Hst & Hen & _).
  split; [exact Hty|]. split; [exists A; split; [now left|exact Hst]|].
  intros a Ha. apply timeSlotsOverlap_false.
  destruct Ha as [<-|[<-|Ha]].
  - lia.
  - lia.
  - destruct Hrow as [HB _]. rewrite List.Forall_forall in HB.
    specialize (HB a Ha). inversion Hpos' as [|? ? HpB _]; subst.
    unfold wellFormed in HpB. lia.
Qed.

(** A rule whose start is earlier in the day than its end. *)
Definition ruleOk (tz : Z) (r : UnavailableBlock.t) : Prop :=
  Js.getHours tz (UnavailableBlock.startTime r) * 60
  + Js.getMinutes tz (UnavailableBlock.startTime r)
  < Js.getHours tz (UnavailableBlock.endTime r) * 60
    + Js.getMinutes tz (UnavailableBlock.endTime r).

Lemma timeOfDay_bounds tz t :
  0 <= Js.getHours tz t * Js.MS_PER_HOUR + Js.getMinutes tz t * Js.MS_PER_MINUTE
  < Js.MS_PER_DAY.
Proof.
  unfold Js.getHours, Js.getMinutes.
  pose proof (Z.mod_pos_bound (t + tz) Js.MS_PER_DAY ltac:(reflexivity)) as H1.
  pose proof (Z.mod_pos_bound (t + tz) Js.MS_PER_HOUR ltac:(reflexivity)) as H2.
  pose proof (Z.div_mod ((t + tz) mod Js.MS_PER_DAY) Js.MS_PER_HOUR
                ltac:(discriminate)) as H3.
  pose proof (Z.mod_pos_bound ((t + tz) mod Js.MS_PER_DAY) Js.MS_PER_HOUR
                ltac:(reflexivity)) as H4.
  pose proof (Z.div_mod ((t + tz) mod Js.MS_PER_HOUR) Js.MS_PER_MINUTE
                ltac:(discriminate)) as H5.
  pose proof (Z.mod_pos_bound ((t + tz) mod Js.MS_PER_HOUR) Js.MS_PER_MINUTE
                ltac:(reflexivity)) as H6.
  unfold Js.MS_PER_DAY, Js.MS_PER_HOUR, Js.MS_PER_MINUTE in *. lia.
Qed.

Lemma addUnavailableBlocks_positive tz dateLabel rules date :
  List.Forall (ruleOk tz) rules ->
  List.Forall (fun b => TimeBlock.type b = unavailable /\ wellFormed b)
    (addUnavailableBlocks tz dateLabel rules [] date).
Proof.
  intros Hrules. unfold addUnavailableBlocks.
  assert (Hgen : forall acc,
            List.Forall (fun b => TimeBlock.type b = unavailable /\ wellFormed b) acc ->
            List.Forall (fun b => TimeBlock.type b = unavailable /\ wellFormed b)
              (fold_left (addUnavailableBlock tz dateLabel date) rules acc));
    [|apply Hgen; constructor].
  induction Hrules as [|r rules Hr _ IH]; intros acc Hacc; simpl; [exact Hacc|].
  apply IH. unfold addUnavailableBlock.
  destruct (shouldIncludeBlock tz r date); [|exact Hacc].
  apply List.Forall_app. split; [exact Hacc|]. constructor; [|constructor].
  split; [reflexivity|]. unfold wellFormed. cbn [TimeBlock.startTime TimeBlock.endTime].
  pose proof (timeOfDay_bounds tz (UnavailableBlock.startTime r)) as Hb.
  unfold Js.setHours at 1 2. rewrite localDay_setHours by exact Hb.
  unfold ruleOk in Hr. unfold Js.MS_PER_HOUR, Js.MS_PER_MINUTE. lia.
Qed.

Lemma generateTimetable_apart tz clock dateLabel ts rules date :
  List.Forall (fun tk => 0 < Task.duration tk) ts ->
  List.Forall (ruleOk tz) rules ->
  exists placed,
    generateTimetable tz clock dateLabel ts rules date
    = Normal (Js.sort byStartTime (insertIntelligentBreaks placed))
    /\ pairwise taskApart (insertIntelligentBreaks placed).
Proof.
  intros Hts Hrules. unfold generateTimetable.
  set (targetDate := Js.setHours tz date 0 0).
  set (currentTime := if Js.sameDateString tz targetDate clock
                      then Some clock else None).
  pose proof (addUnavailableBlocks_positive tz dateLabel rules targetDate Hrules)
    as Hun.
  set (timetable := addUnavailableBlocks tz dateLabel rules [] targetDate) in *.
  set (sortedTasks := prioritizeTasks clock ts targetDate currentTime).
  assert (Hsorted : List.Forall (fun tk => 0 < Task.duration tk) sortedTasks).
  { apply List.Forall_forall. intros tk Htk. unfold sortedTasks, prioritizeTasks in Htk.
    apply sort_In, List.filter_In in Htk as [Htk _].
    rewrite List.Forall_forall in Hts. now apply Hts. }
  destruct (placeLoop_apart tz clock dateLabel targetDate currentTime sortedTasks
              Hsorted timetable None 0) as (pushed & Hplaced & Hpos & Hap & _).
  { revert Hun. apply List.Forall_impl. tauto. }
  { apply pairwise_all. intros a b Ha Hb [Hta|Htb].
    - rewrite List.Forall_forall in Hun. destruct (Hun a Ha). congruence.
    - rewrite List.Forall_forall in Hun. destruct (Hun b Hb). congruence. }
  unfold placeTasks. rewrite Hplaced.
  exists (timetable ++ pushed). split; [reflexivity|].
  set (placed := timetable ++ pushed) in *.
  unfold insertIntelligentBreaks, breaksToAdd.
  assert (Htasks : forall a, In a (sortedTaskBlocks placed)
                             <-> In a placed /\ TimeBlock.type a = task).
  { intros a. unfold sortedTaskBlocks. rewrite sort_In, List.filter_In.
    unfold isType. now rewrite bool_decide_eq_true. }
  assert (Hrow : inRow (sortedTaskBlocks placed)).
  { apply sorted_disjoint_inRow.
    - apply sort_start_sorted.
    - apply (pairwise_Permutation _) with (l := List.filter (isType task) placed).
      + intros a b. now rewrite blocksOverlap_sym.
      + apply sort_Permutation.
      + apply (pairwise_impl taskApart); [|now apply pairwise_filter].
        intros a b Ha _ Hab. apply Hab. left.
        apply List.filter_In in Ha as [_ Ha]. unfold isType in Ha.
        now apply bool_decide_eq_true in Ha.
    - apply List.Forall_forall. intros a Ha. apply Htasks in Ha as [Ha _].
      rewrite List.Forall_forall in Hpos. now apply Hpos. }
  assert (Hpt : List.Forall wellFormed (sortedTaskBlocks placed)).
  { apply List.Forall_forall. intros a Ha. apply Htasks in Ha as [Ha _].
    rewrite List.Forall_forall in Hpos. now apply Hpos. }
  pose proof (breaks_apart (sortedTaskBlocks placed) Hrow Hpt 0) as Hbr.
  rewrite List.Forall_forall in Hbr.
  apply pairwise_app. split; [exact Hap|]. split.
  - apply pairwise_all. intros a b Ha Hb [Hta|Htb].
    + destruct (Hbr a Ha) as [Hk _]. congruence.
    + destruct (Hbr b Hb) as [Hk _]. congruence.
  - intros a b Ha Hb [Hta|Htb].
    + destruct (Hbr b Hb) as (_ & _ & Hclear). apply Hclear, Htasks. now split.
    + destruct (Hbr b Hb) as [Hk _]. congruence.
Qed.
End GeneratedTimetable.

(** X15.  [generateTimetable] on tasks of positive duration and rules that
    start earlier in the day than they end: the call returns, the
    timetable is in start order, and a task block overlaps no other block
    of it, be it a task, a break or an unavailable block. *)
Theorem X15_generated_timetable_keeps_tasks_apart
    (tz clock : Z) (dateLabel : string) (ts : list Task.t)
    (rules : list UnavailableBlock.t) (date : Z) :
  List.Forall (fun tk => 0 < Task.duration tk) ts ->
  List.Forall (ruleOk tz) rules ->
  exists timetable,
    TimetableScheduler.generateTimetable tz clock dateLabel ts rules date
    = Normal timetable
    /\ pairwise (fun a b => TimeBlock.startTime a <= TimeBlock.startTime b) timetable
    /\ forall (i j : nat) a b,
         i <> j -> timetable !! i = Some a -> timetable !! j = Some b ->
         TimeBlock.type a = task -> blocksOverlap a b = false.
Proof.
  intros Hts Hrules.
  destruct (generateTimetable_apart tz clock dateLabel ts rules date Hts Hrules)
    as (placed & -> & Hap).
  eexists. split; [reflexivity|]. split; [apply sort_start_sorted|].
  intros i j a b Hij Hi Hj Hta.
  apply (pairwise_lookup taskApart taskApart_sym
           (Js.sort byStartTime (TimetableScheduler.insertIntelligentBreaks placed)))
    with (i := i) (j := j); auto.
  apply (pairwise_Permutation _ taskApart_sym) with (2 := Hap).
  apply sort_Permutation.
Qed.

Lemma X15_witness :
  exists timetable,
    TimetableScheduler.generateTimetable 0 0 "Thu Jan 01 1970"
      [sampleTask "a" 60 (at_ 11 0) high work;
       sampleTask "b" 30 (at_ 72 0) low leisure]
      [dailyRule "call" (at_ 10 0) (at_ 10 30)] 0
    = Normal timetable
    /\ pairwise (fun a b => TimeBlock.startTime a <= TimeBlock.startTime b) timetable
    /\ forall (i j : nat) a b,
         i <> j -> timetable !! i = Some a -> timetable !! j = Some b ->
         TimeBlock.type a = task -> blocksOverlap a b = false.
Proof.
  apply (X15_generated_timetable_keeps_tasks_apart 0 0 "Thu Jan 01 1970"
           [sampleTask "a" 60 (at_ 11 0) high work;
            sampleTask "b" 30 (at_ 72 0) low leisure]
           [dailyRule "call" (at_ 10 0) (at_ 10 30)] 0).
  - repeat constructor.
  - constructor; [|constructor]. vm_compute. reflexivity.
Defined.

(** ** [TimetableScheduler]: a task without duration *)

Section EmptyTask.
Import TimetableScheduler.

Lemma requiredSlots_zero duration :
  -30 < duration <= 0 -> requiredSlots duration = 0.
Proof.
  intros H. unfold requiredSlots, Js.ceilDiv, SLOT_MINUTES.
  rewrite Z.div_small by lia. reflexivity.
Qed.

(** With no slot required the first run is empty, and reading the start of
    its first slot throws. *)
Lemma searchSlots_empty_run slots lastEnd work :
  searchSlots (Z.to_nat (Z.of_nat (length slots) - 0 + 1)) 0 slots 0 lastEnd work
  = TypeError.
Proof.
  assert (Hrun : slice slots 0 (0 + 0) = []).
  { unfold slice. change (0 + 0) with 0. change (0 <? 0) with false. cbv iota.
    rewrite Z.min_l by lia. reflexivity. }
  destruct (Z.to_nat (Z.of_nat (length slots) - 0 + 1)) as [|todo] eqn:E; [lia|].
  cbn [searchSlots]. rewrite Hrun. reflexivity.
Qed.

Lemma findAvailableSlot_throws tz clock timetable duration date
    currentTime lastTaskEndTime work :
  -30 < duration <= 0 ->
  findAvailableSlot tz clock timetable duration date currentTime lastTaskEndTime work
  = TypeError
  /\ TimetableSchedulerV1.findAvailableSlot tz timetable duration date = TypeError.
Proof.
  intros H. unfold findAvailableSlot, TimetableSchedulerV1.findAvailableSlot.
  rewrite (requiredSlots_zero duration H). split; apply searchSlots_empty_run.
Qed.

Lemma placeLoop_throws tz clock dateLabel date currentTime tk ts :
  In tk ts -> -30 < Task.duration tk <= 0 ->
  forall timetable lastTaskEndTime work,
    placeLoop tz clock dateLabel date currentTime ts timetable lastTaskEndTime work
    = TypeError.
Proof.
  intros Hin Hd. induction ts as [|tk0 ts IH]; [destruct Hin|].
  intros timetable lastEnd work. simpl.
  destruct (findAvailableSlot tz clock timetable (Task.duration tk0) date
              currentTime lastEnd work) as [[slot|]|] eqn:Ef; [| |reflexivity].
  - destruct Hin as [->|Hin]; [|now apply IH].
    rewrite (proj1 (findAvailableSlot_throws tz clock timetable (Task.duration tk)
                      date currentTime lastEnd work Hd)) in Ef. discriminate.
  - destruct Hin as [->|Hin]; [|now apply IH].
    rewrite (proj1 (findAvailableSlot_throws tz clock timetable (Task.duration tk)
                      date currentTime lastEnd work Hd)) in Ef. discriminate.
Qed.
End EmptyTask.

(** X16.  A task whose duration is zero, or negative by less than a slot,
    needs no slot: the search of [findAvailableSlot] (both generations)
    reads the first slot of an empty run and throws, whatever the
    timetable.  [generateTimetable] throws with it when such a task is
    among those it ranks, here one whose deadline is not before the day. *)
Theorem X16_task_without_duration_throws
    (tz clock : Z) (dateLabel : string) (ts : list Task.t)
    (rules : list UnavailableBlock.t) (date : Z) (tk : Task.t) :
  In tk ts ->
  -30 < Task.duration tk <= 0 ->
  Js.setHours tz date 0 0 <= Task.deadline tk ->
  (forall timetable currentTime lastTaskEndTime work,
     TimetableScheduler.findAvailableSlot tz clock timetable (Task.duration tk) date
       currentTime lastTaskEndTime work = TypeError)
  /\ (forall timetable,
        TimetableSchedulerV1.findAvailableSlot tz timetable (Task.duration tk) date
        = TypeError)
  /\ TimetableScheduler.generateTimetable tz clock dateLabel ts rules date = TypeError.
Proof.
  intros Hin Hd Hdl. split; [|split].
  - intros. now apply findAvailableSlot_throws.
  - intros. now apply (findAvailableSlot_throws tz clock timetable _ date None None 0).
  - unfold TimetableScheduler.generateTimetable, TimetableScheduler.placeTasks.
    rewrite (placeLoop_throws tz clock dateLabel _ _ tk); [reflexivity| |exact Hd].
    unfold TimetableScheduler.prioritizeTasks.
    apply sort_In, List.filter_In. split; [exact Hin|].
    apply orb_true_iff. left. apply Z.leb_le. unfold Js.ceilDiv.
    assert (- (Task.deadline tk - Js.setHours tz date 0 0) / Js.MS_PER_DAY <= 0);
      [|lia].
    apply Z.div_le_upper_bound; [reflexivity|]. lia.
Qed.

Lemma X16_witness :
  (forall timetable currentTime lastTaskEndTime work,
     TimetableScheduler.findAvailableSlot 0 0 timetable
       (Task.duration (sampleTask "empty" 0 (at_ 20 0) low leisure)) 0
       currentTime lastTaskEndTime work = TypeError)
  /\ (forall timetable,
        TimetableSchedulerV1.findAvailableSlot 0 timetable
          (Task.duration (sampleTask "empty" 0 (at_ 20 0) low leisure)) 0
        = TypeError)
  /\ TimetableScheduler.generateTimetable 0 0 "Thu Jan 01 1970"
       [sampleTask "a" 60 (at_ 11 0) high work;
        sampleTask "empty" 0 (at_ 20 0) low leisure] [] 0
     = TypeError.
Proof.
  apply (X16_task_without_duration_throws 0 0 "Thu Jan 01 1970"
           [sampleTask "a" 60 (at_ 11 0) high work;
            sampleTask "empty" 0 (at_ 20 0) low leisure] [] 0
           (sampleTask "empty" 0 (at_ 20 0) low leisure)).
  - right. left. reflexivity.
  - simpl. lia.
  - vm_compute. discriminate.
Defined.

(** ** [TimetableScheduler.rescheduleTask] *)

(** What a move leaves to a block: identity, kind, task identity, title
    and length. *)
Definition blockFrame (b : TimeBlock.t) : string * BlockType * option string * string * Z :=
  (TimeBlock.id b, TimeBlock.type b, TimeBlock.taskId b, TimeBlock.title b,
   TimeBlock.endTime b - TimeBlock.startTime b).

(** X17.  [rescheduleTask] of [TimetableScheduler] keeps the timetable's
    blocks in place, each with its identity, kind, task, title and length;
    and two blocks that overlap afterwards overlapped before, at the same
    places: a move never makes an overlap. *)
Theorem X17_timetable_reschedule_keeps_frame_and_adds_no_overlap
    (taskId : string) (newStartTime : Z) (S : list TimeBlock.t) :
  map blockFrame (TimetableScheduler.rescheduleTask taskId newStartTime S)
  = map blockFrame S
  /\ forall (i j : nat) a b,
       i <> j ->
       TimetableScheduler.rescheduleTask taskId newStartTime S !! i = Some a ->
       TimetableScheduler.rescheduleTask taskId newStartTime S !! j = Some b ->
       blocksOverlap a b = true ->
       exists a' b', S !! i = Some a' /\ S !! j = Some b'
                     /\ blocksOverlap a' b' = true.
Proof.
  split; [|apply timetable_reschedule_adds_no_overlap].
  unfold TimetableScheduler.rescheduleTask.
  destruct (Js.findIndex _ S) as [taskIndex|]; [|reflexivity].
  destruct (S !! taskIndex) as [taskBlock|] eqn:Eidx; [|reflexivity].
  destruct (negb _); [|reflexivity].
  change (blockFrame <$> <[taskIndex:=TimetableScheduler.moved taskBlock newStartTime
                             (newStartTime + (TimeBlock.endTime taskBlock
                                              - TimeBlock.startTime taskBlock))]> S
          = blockFrame <$> S).
  rewrite list_fmap_insert. apply list_insert_id.
  rewrite list_lookup_fmap, Eidx. simpl. unfold blockFrame. simpl.
  do 2 f_equal. lia.
Qed.

(** X18.  A move of [TimetableScheduler.rescheduleTask] onto a slot that
    overlaps the block at another place is refused: the timetable comes
    back as it was. *)
Theorem X18_timetable_reschedule_refuses_taken_slot
    (taskId : string) (newStartTime : Z) (S : list TimeBlock.t)
    (taskIndex j : nat) (taskBlock other : TimeBlock.t) :
  Js.findIndex (hasTaskId taskId) S = Some taskIndex ->
  S !! taskIndex = Some taskBlock ->
  S !! j = Some other -> j <> taskIndex ->
  timeSlotsOverlap newStartTime
    (newStartTime + (TimeBlock.endTime taskBlock - TimeBlock.startTime taskBlock))
    (TimeBlock.startTime other) (TimeBlock.endTime other) = true ->
  TimetableScheduler.rescheduleTask taskId newStartTime S = S.
Proof. apply timetable_reschedule_conflict_is_noop. Qed.

Lemma X18_witness :
  TimetableScheduler.rescheduleTask "b" (at_ 9 30)
    [sampleBlock "task-a" task (at_ 9 0) (at_ 10 0)
       (Some (sampleTask "a" 60 (at_ 20 0) medium study));
     sampleBlock "task-b" task (at_ 10 30) (at_ 11 0)
       (Some (sampleTask "b" 30 (at_ 20 0) medium study))]
  = [sampleBlock "task-a" task (at_ 9 0) (at_ 10 0)
       (Some (sampleTask "a" 60 (at_ 20 0) medium study));
     sampleBlock "task-b" task (at_ 10 30) (at_ 11 0)
       (Some (sampleTask "b" 30 (at_ 20 0) medium study))].
Proof.
  apply (X18_timetable_reschedule_refuses_taken_slot "b" (at_ 9 30)
           [sampleBlock "task-a" task (at_ 9 0) (at_ 10 0)
              (Some (sampleTask "a" 60 (at_ 20 0) medium study));
            sampleBlock "task-b" task (at_ 10 30) (at_ 11 0)
              (Some (sampleTask "b" 30 (at_ 20 0) medium study))]
           1%nat 0%nat
           (sampleBlock "task-b" task (at_ 10 30) (at_ 11 0)
              (Some (sampleTask "b" 30 (at_ 20 0) medium study)))
           (sampleBlock "task-a" task (at_ 9 0) (at_ 10 0)
              (Some (sampleTask "a" 60 (at_ 20 0) medium study)))).
  - reflexivity.
  - reflexivity.
  - reflexivity.
  - discriminate.
  - reflexivity.
Defined.

(** ** [AITaskScheduler] *)

Section AIChain.
Import AITaskScheduler.

(** Blocks that follow one another without a gap, from [start] on. *)
Fixpoint chained (start : Z) (l : list TimeBlock.t) : Prop :=
  match l with
  | [] => True
  | b :: l' => TimeBlock.startTime b = start /\ chained (TimeBlock.endTime b) l'
  end.

Lemma chained_inRow l :
  List.Forall (fun b => TimeBlock.startTime b <= TimeBlock.endTime b) l ->
  forall start, chained start l ->
    List.Forall (fun b => start <= TimeBlock.startTime b) l /\ inRow l.
Proof.
  induction 1 as [|b l Hb _ IH]; intros start Hc; simpl; [split; [constructor|exact I]|].
  destruct Hc as [Hs Hc]. destruct (IH _ Hc) as [Hafter Hrow].
  split; [|split; [exact Hafter|exact Hrow]].
  constructor; [lia|]. revert Hafter. apply List.Forall_impl. intros c Hc'. lia.
Qed.

(** All blocks but the last satisfy [P]. *)
Definition beforeLast (P : TimeBlock.t -> Prop) (l : list TimeBlock.t) : Prop :=
  forall (i : nat) b, l !! i = Some b -> (S i < length l)%nat -> P b.

Lemma beforeLast_cons (P : TimeBlock.t -> Prop) b l :
  (l <> [] -> P b) -> beforeLast P l -> beforeLast P (b :: l).
Proof.
  intros Hb Hl [|i] c Hc Hlen; simpl in *.
  - injection Hc as <-. apply Hb. destruct l; [simpl in Hlen; lia|discriminate].
  - apply (Hl i c Hc). lia.
Qed.

Definition endsInHours (tz : Z) (b : TimeBlock.t) : Prop :=
  TimeBlock.type b = task -> Js.getHours tz (TimeBlock.endTime b) < workingHoursEnd.

(** What the loop pushes. *)
Lemma scheduleLoop_pushed_chain tz ts :
  forall sched cur work,
    exists pushed rest,
      scheduleLoop tz ts sched cur work = sched ++ pushed
      /\ chained cur pushed
      /\ ts = omap TimeBlock.task pushed ++ rest
      /\ List.Forall (fun b =>
           (TimeBlock.type b = break
            /\ (TimeBlock.endTime b - TimeBlock.startTime b
                = shortBreak * Js.MS_PER_MINUTE
                \/ TimeBlock.endTime b - TimeBlock.startTime b
                   = longBreak * Js.MS_PER_MINUTE))
           \/ (TimeBlock.type b = task
               /\ exists tk, In tk ts /\ TimeBlock.task b = Some tk
                  /\ TimeBlock.endTime b - TimeBlock.startTime b
                     = Task.duration tk * Js.MS_PER_MINUTE)) pushed
      /\ beforeLast (endsInHours tz) pushed
      /\ (rest <> [] ->
          exists b, last pushed = Some b /\ TimeBlock.type b = task
                    /\ workingHoursEnd <= Js.getHours tz (TimeBlock.endTime b)).
Proof.
  induction ts as [|tk ts IH]; intros sched cur work.
  - exists [], []. cbn [scheduleLoop]. rewrite app_nil_r.
    split; [reflexivity|]. split; [exact I|]. split; [reflexivity|].
    split; [constructor|]. split; [intros i b Hb; discriminate|congruence].
  - cbn [scheduleLoop].
    set (kindOk := fun (l : list Task.t) (b : TimeBlock.t) =>
           (TimeBlock.type b = break
            /\ (TimeBlock.endTime b - TimeBlock.startTime b
                = shortBreak * Js.MS_PER_MINUTE
                \/ TimeBlock.endTime b - TimeBlock.startTime b
                   = longBreak * Js.MS_PER_MINUTE))
           \/ (TimeBlock.type b = task
               /\ exists tk, In tk l /\ TimeBlock.task b = Some tk
                  /\ TimeBlock.endTime b - TimeBlock.startTime b
                     = Task.duration tk * Js.MS_PER_MINUTE)).
    assert (Hb : exists brk,
               breakBeforeTask sched cur work
               = (sched ++ brk,
                  snd (fst (breakBeforeTask sched cur work)),
                  snd (breakBeforeTask sched cur work))
               /\ chained cur brk
               /\ (forall l, chained (snd (fst (breakBeforeTask sched cur work))) l ->
                             chained cur (brk ++ l))
               /\ omap TimeBlock.task brk = []
               /\ List.Forall (kindOk (tk :: ts)) brk
               /\ List.Forall (fun b => TimeBlock.type b = break) brk).
    { unfold breakBeforeTask, Js.push. destruct (_ <=? _); cbn [fst snd].
      - eexists [_]. split; [reflexivity|]. cbn [chained app].
        repeat split; auto.
        constructor; [|constructor]. left. split; [reflexivity|].
        cbn [TimeBlock.startTime TimeBlock.endTime breakBlock].
        destruct (_ <=? _); [right|left]; lia.
      - exists []. rewrite app_nil_r. repeat split; auto. }
    destruct Hb as (brk & Heq & _ & Hchain & Hnone & Hkind & Hbrk).
    rewrite Heq. clear Heq.
    set (cur1 := snd (fst (breakBeforeTask sched cur work))) in *.
    set (work1 := snd (breakBeforeTask sched cur work)).
    set (b := taskBlock tk cur1).
    assert (Hkb : kindOk (tk :: ts) b).
    { right. split; [reflexivity|]. exists tk. split; [now left|].
      split; [reflexivity|]. cbn. lia. }
    unfold Js.push.
    destruct (Z.leb_spec workingHoursEnd (Js.getHours tz (TimeBlock.endTime b)))
      as [Hstop|Hgo].
    + exists (brk ++ [b]), ts. rewrite app_assoc.
      split; [reflexivity|]. split; [apply Hchain; cbn; auto|].
      split; [rewrite omap_app, Hnone; reflexivity|].
      split; [apply List.Forall_app; split; [exact Hkind|constructor; auto]|].
      split.
      * intros i c Hc Hlen. rewrite length_app in Hlen. cbn in Hlen.
        rewrite lookup_app_l in Hc by lia.
        rewrite List.Forall_forall in Hbrk.
        intros Ht. rewrite (Hbrk c) in Ht; [discriminate|].
        apply list_elem_of_In. eapply list_elem_of_lookup_2. exact Hc.
      * intros _. exists b. rewrite last_snoc. repeat split. exact Hstop.
    + destruct (IH ((sched ++ brk) ++ [b]) (TimeBlock.endTime b)
                  (work1 + Task.duration tk))
        as (pushed & rest & -> & Hc & Hts & Hk & Hbl & Hlast).
      exists (brk ++ b :: pushed), rest.
      split; [now rewrite <- !app_assoc|].
      split; [apply Hchain; cbn [chained]; split; [reflexivity|exact Hc]|].
      split; [rewrite omap_app, Hnone; cbn; now f_equal|].
      split.
      { apply List.Forall_app. split; [exact Hkind|]. constructor; [exact Hkb|].
        revert Hk. apply List.Forall_impl. intros c [Hc1|(Hc1 & tk0 & Hin & Hrest)].
        - now left.
        - right. split; [exact Hc1|]. exists tk0. split; [now right|exact Hrest]. }
      split.
      { intros i c Hc' Hlen.
        destruct (decide (i < length brk)%nat) as [Hi|Hi].
        - rewrite lookup_app_l in Hc' by exact Hi.
          rewrite List.Forall_forall in Hbrk.
          intros Ht. rewrite (Hbrk c) in Ht; [discriminate|].
          apply list_elem_of_In. eapply list_elem_of_lookup_2. exact Hc'.
        - rewrite lookup_app_r in Hc' by lia.
          rewrite length_app in Hlen. cbn [length] in Hlen.
          apply (beforeLast_cons (endsInHours tz) b pushed)
            with (i := (i - length brk)%nat); auto.
          + intros _ _. exact Hgo.
          + cbn [length]. lia. }
      intros Hrest. destruct (Hlast Hrest) as (c & Hc' & Hrest').
      exists c. split; [|exact Hrest'].
      rewrite last_app. cbn [last]. 
      destruct pushed as [|p pushed']; [discriminate|].
      change (last (b :: p :: pushed')) with (last (p :: pushed')).
      now rewrite Hc'.
Qed.

Lemma generateSchedule_loop tz now ts date :
  generateSchedule tz now ts date
  = scheduleLoop tz (prioritizeTasks now ts) []
      (Js.setHours tz date workingHoursStart 0) 0.
Proof. unfold generateSchedule. now destruct (prioritizeTasks now ts). Qed.
End AIChain.

(** X19.  The schedule of [AITaskScheduler.generateSchedule] is a chain
    from 9:00 of the day: each block starts where the one before it ends.
    Its blocks are breaks of 10 or 30 minutes and task blocks as long as
    their tasks; when no task has a negative duration, no two blocks
    overlap. *)
Theorem X19_ai_schedule_is_a_chain (tz now : Z) (ts : list Task.t) (date : Z) :
  let sched := AITaskScheduler.generateSchedule tz now ts date in
  chained (Js.setHours tz date AITaskScheduler.workingHoursStart 0) sched
  /\ List.Forall (fun b =>
       (TimeBlock.type b = break
        /\ (TimeBlock.endTime b - TimeBlock.startTime b
            = AITaskScheduler.shortBreak * Js.MS_PER_MINUTE
            \/ TimeBlock.endTime b - TimeBlock.startTime b
               = AITaskScheduler.longBreak * Js.MS_PER_MINUTE))
       \/ (TimeBlock.type b = task
           /\ exists tk, In tk ts /\ TimeBlock.task b = Some tk
              /\ TimeBlock.endTime b - TimeBlock.startTime b
                 = Task.duration tk * Js.MS_PER_MINUTE)) sched
  /\ (List.Forall (fun tk => 0 <= Task.duration tk) ts ->
      pairwise (fun a b => blocksOverlap a b = false) sched).
Proof.
  cbv zeta. rewrite generateSchedule_loop.
  destruct (scheduleLoop_pushed_chain tz (AITaskScheduler.prioritizeTasks now ts) []
              (Js.setHours tz date AITaskScheduler.workingHoursStart 0) 0)
    as (pushed & rest & -> & Hc & _ & Hk & _).
  cbn [app].
  assert (Hk' : List.Forall (fun b =>
       (TimeBlock.type b = break
        /\ (TimeBlock.endTime b - TimeBlock.startTime b
            = AITaskScheduler.shortBreak * Js.MS_PER_MINUTE
            \/ TimeBlock.endTime b - TimeBlock.startTime b
               = AITaskScheduler.longBreak * Js.MS_PER_MINUTE))
       \/ (TimeBlock.type b = task
           /\ exists tk, In tk ts /\ TimeBlock.task b = Some tk
              /\ TimeBlock.endTime b - TimeBlock.startTime b
                 = Task.duration tk * Js.MS_PER_MINUTE)) pushed).
  { revert Hk. apply List.Forall_impl. intros b [Hb|(Hb & tk & Hin & Hrest)].
    - now left.
    - right. split; [exact Hb|]. exists tk. split; [|exact Hrest].
      unfold AITaskScheduler.prioritizeTasks in Hin. now apply sort_In in Hin. }
  split; [exact Hc|]. split; [exact Hk'|].
  intros Hts.
  assert (Hlen : List.Forall (fun b => TimeBlock.startTime b <= TimeBlock.endTime b)
                   pushed).
  { revert Hk'. apply List.Forall_impl.
    intros b [(_ & [Hl|Hl])|(_ & tk & Hin & _ & Hl)].
    - unfold AITaskScheduler.shortBreak, Js.MS_PER_MINUTE in Hl. lia.
    - unfold AITaskScheduler.longBreak, Js.MS_PER_MINUTE in Hl. lia.
    - rewrite List.Forall_forall in Hts. specialize (Hts tk Hin).
      unfold Js.MS_PER_MINUTE in Hl. lia. }
  destruct (chained_inRow pushed Hlen _ Hc) as [_ Hrow].
  revert Hrow. apply pairwise_impl. intros a b _ _ Hab.
  apply timeSlotsOverlap_false. right. exact Hab.
Qed.

(** X20.  [AITaskScheduler.generateSchedule] places the tasks in the order
    of the ranking and skips none.  It looks at the clock only after a task
    is placed: every task block but the last ends before hour 17, and tasks
    are left out only when the last block is a task that ends at hour 17
    or later. *)
Theorem X20_ai_schedule_stops_after_the_task_that_fills_the_day
    (tz now : Z) (ts : list Task.t) (date : Z) :
  let sched := AITaskScheduler.generateSchedule tz now ts date in
  exists rest,
    AITaskScheduler.prioritizeTasks now ts = omap TimeBlock.task sched ++ rest
    /\ beforeLast (endsInHours tz) sched
    /\ (rest <> [] ->
        exists b, last sched = Some b /\ TimeBlock.type b = task
                  /\ AITaskScheduler.workingHoursEnd
                     <= Js.getHours tz (TimeBlock.endTime b)).
Proof.
  cbv zeta. rewrite generateSchedule_loop.
  destruct (scheduleLoop_pushed_chain tz (AITaskScheduler.prioritizeTasks now ts) []
              (Js.setHours tz date AITaskScheduler.workingHoursStart 0) 0)
    as (pushed & rest & -> & _ & Hts & _ & Hbl & Hlast).
  exists rest. cbn [app]. auto.
Qed.

(** ** The first [TimetableScheduler]: when [insertBreaks] inserts *)

(** X21.  One turn of [insertBreaks] on the adjacent tasks [A] and [B]: a
    break is inserted exactly when the gap holds it, a gap of 15 minutes,
    or of 30 once the count of continuous work (A included) has reached
    120; the 90 minutes of [maxContinuousWork] play no part.  The break
    starts where [A] ends and is 30 minutes long from a count of 120 on,
    15 otherwise; the count restarts after a long break only. *)
Theorem X21_first_scheduler_break_rule (A B : TimeBlock.t) (work : Z) :
  let st := TimetableSchedulerV1.breakStep A B work in
  let gap := TimeBlock.startTime B - TimeBlock.endTime A in
  let long := 120 <= TimetableScheduler.accumulated st in
  TimetableScheduler.accumulated st = work + TimetableScheduler.taskDuration A
  /\ (is_Some (TimetableScheduler.inserted st)
      <-> 15 * Js.MS_PER_MINUTE <= gap /\ (long -> 30 * Js.MS_PER_MINUTE <= gap))
  /\ (forall b, TimetableScheduler.inserted st = Some b ->
        TimeBlock.type b = break
        /\ TimeBlock.startTime b = TimeBlock.endTime A
        /\ TimeBlock.endTime b <= TimeBlock.startTime B
        /\ (long -> TimeBlock.endTime b - TimeBlock.startTime b
                    = 30 * Js.MS_PER_MINUTE)
        /\ (~ long -> TimeBlock.endTime b - TimeBlock.startTime b
                      = 15 * Js.MS_PER_MINUTE))
  /\ (is_Some (TimetableScheduler.inserted st) /\ long ->
      TimetableScheduler.carried st = 0)
  /\ (~ (is_Some (TimetableScheduler.inserted st) /\ long) ->
      TimetableScheduler.carried st = TimetableScheduler.accumulated st).
Proof.
  cbv zeta. unfold TimetableSchedulerV1.breakStep.
  cbn [TimetableScheduler.accumulated TimetableScheduler.inserted
       TimetableScheduler.carried].
  unfold TimetableScheduler.maxContinuousWork, TimetableScheduler.longBreakDuration,
    TimetableScheduler.shortBreakDuration, Js.MS_PER_MINUTE.
  set (acc := work + TimetableScheduler.taskDuration A).
  set (gap := TimeBlock.startTime B - TimeBlock.endTime A).
  assert (Hend : forall d, TimeBlock.endTime A + d <= TimeBlock.startTime B
                           <-> d <= gap) by (intros; subst gap; lia).
  destruct (Z.leb_spec 90 acc); destruct (Z.leb_spec 120 acc);
    destruct (Z.leb_spec (15 * 60000) gap); try lia; cbn [orb andb];
    repeat match goal with
           | |- context [?a <=? ?b] => destruct (Z.leb_spec a b); try lia
           end;
    cbn [orb andb Z.eqb Pos.eqb]; repeat split; intros;
    repeat match goal with
           | H : is_Some None |- _ => destruct H as [? H]; discriminate H
           | H : None = Some _ |- _ => discriminate H
           | H : Some _ = Some _ |- _ => injection H as <-
           | H : _ /\ _ |- _ => destruct H
           | |- is_Some (Some _) => eexists; reflexivity
           end;
    cbn [TimeBlock.type TimeBlock.startTime TimeBlock.endTime];
    try reflexivity; try lia; try tauto;
    try (exfalso; match goal with H : ~ _ |- _ => apply H end;
         split; [eexists; reflexivity | lia]).
Qed.

(** ** [TimetableScheduler.prioritizeTasks] *)

(** X22.  [prioritizeTasks] of the second [TimetableScheduler] keeps the
    tasks whose deadline is less than a day before the target date, and
    the tasks not completed whose deadline is less than two days before
    it, and no others.  It returns them by balanced score from the highest
    down, tasks with the same score in the order they were given in. *)
Theorem X22_timetable_ranking_keeps_recent_deadlines
    (clock : Z) (ts : list Task.t) (targetDate : Z) (currentTime : option Z) :
  let ranked := TimetableScheduler.prioritizeTasks clock ts targetDate currentTime in
  let score := TimetableScheduler.getBalancedScore (default clock currentTime) in
  let kept :=
    List.filter (fun tk =>
        (targetDate - Js.MS_PER_DAY <? Task.deadline tk)
        || ((targetDate - 2 * Js.MS_PER_DAY <? Task.deadline tk)
            && negb (Task.completed tk))) ts in
  Permutation kept ranked
  /\ pairwise (fun a b => score b <= score a) ranked
  /\ forall v,
       List.filter (fun tk => score tk =? v) ranked
       = List.filter (fun tk => score tk =? v) kept.
Proof.
  cbv zeta. unfold TimetableScheduler.prioritizeTasks.
  assert (Hkeep : forall tk,
            (0 <=? Js.ceilDiv (Task.deadline tk - targetDate) Js.MS_PER_DAY)
            || ((-1 <=? Js.ceilDiv (Task.deadline tk - targetDate) Js.MS_PER_DAY)
                && negb (Task.completed tk))
            = (targetDate - Js.MS_PER_DAY <? Task.deadline tk)
              || ((targetDate - 2 * Js.MS_PER_DAY <? Task.deadline tk)
                  && negb (Task.completed tk))).
  { intros tk. unfold Js.ceilDiv.
    pose proof (Z.div_mod (- (Task.deadline tk - targetDate)) Js.MS_PER_DAY
                  ltac:(discriminate)) as Hdm.
    pose proof (Z.mod_pos_bound (- (Task.deadline tk - targetDate)) Js.MS_PER_DAY
                  ltac:(reflexivity)) as Hb.
    unfold Js.MS_PER_DAY in *.
    set (q := - (Task.deadline tk - targetDate) / 86400000) in *.
    f_equal; [|f_equal].
    - destruct (Z.leb_spec 0 (- q)), (Z.ltb_spec (targetDate - 86400000)
                                        (Task.deadline tk)); try reflexivity; lia.
    - destruct (Z.leb_spec (-1) (- q)), (Z.ltb_spec (targetDate - 2 * 86400000)
                                           (Task.deadline tk)); try reflexivity; lia. }
  rewrite (List.filter_ext _ _ Hkeep).
  split; [apply sort_Permutation|]. split.
  - apply (sort_key_sorted
             (TimetableScheduler.getBalancedScore (default clock currentTime))).
  - intros v.
    apply (sort_key_stable
             (TimetableScheduler.getBalancedScore (default clock currentTime))).
Qed.
